(** * Sine-tone synthesis and WAV encoding of [generate_tone.py]

    A shallow embedding of [generate_sine_wave] (src/generate_tone.py) and of
    the parts of Python's standard library it calls: [struct.pack] and the
    writer class [Wave_write] of the [wave] module (CPython's Lib/wave.py),
    method by method, over a binary file object.

    Number model.  Python's [int] values are [Z]; bytes are [Byte.byte].
    Python's [float] is read in two ways, and a statement says which one it
    is about by the definitions it names.

    - Module [B64] is the program as CPython runs it.  A [float] is a
      binary64 number ([PrimFloat.float]); [*] is the correctly rounded
      product, [int / int] the correctly rounded quotient, [int * float]
      converts the int first; [int()] truncates toward zero and raises
      [OverflowError] on an infinity and [ValueError] on a NaN; [math.sin]
      raises [ValueError] where CPython's wrapper does.  The sine of the C
      library is not part of the repository: it is a parameter [libm_sin],
      constrained where needed by [B64.libm_sine] (a result in [-1, 1] or
      a NaN, and a zero at a zero).
    - The definitions of the same names outside [B64], over [R], are the
      exact-arithmetic reading: [*], [/], [math.sin] and [math.pi] are
      [Rmult], [Rdiv], [sin] and [PI].  There is no rounding, no infinity
      and no NaN in it, so none of the exceptions these cause, and a sample
      can differ from the program's where a product comes within rounding
      distance of an integer.  It is used for facts that need the true sine
      (the value of one sample of the A4 tone), for the numpy scripts, and
      for inputs on which the two readings agree. *)

From Stdlib Require Import Reals Lra Lia ZArith List Bool String.
From Stdlib Require Import Strings.Byte.
From Stdlib Require Import Zfloor.
From Stdlib Require Import DecimalString.
From Stdlib Require Import Floats.
Import ListNotations.

Set Implicit Arguments.
Open Scope list_scope.

(** ** Exceptions *)

Inductive exn : Type :=
| ZeroDivisionError
| StructError     (* struct.error *)
| WaveError.      (* wave.Error *)

Inductive result (A : Type) : Type :=
| Ok (a : A)
| Raise (e : exn).

Arguments Ok {A} a.
Arguments Raise {A} e.

Definition bind {A B : Type} (m : result A) (k : A -> result B) : result B :=
  match m with
  | Ok a => k a
  | Raise e => Raise e
  end.

Declare Scope py_scope.
Delimit Scope py_scope with py.
Notation "x <- m ;; k" := (bind m (fun x => k))
  (at level 61, m at next level, right associativity) : py_scope.
Open Scope py_scope.

(** ** Python built-ins used by the synthesis loop *)

Module Py.

(** [int(x)] on a float: truncation toward zero. *)
Definition int (x : R) : Z :=
  if Rle_dec 0 x then Zfloor x else Zceil x.

(** [a / b] on two ints: true division, [ZeroDivisionError] on [b = 0]. *)
Definition truediv (a b : Z) : result R :=
  if (b =? 0)%Z then Raise ZeroDivisionError else Ok (IZR a / IZR b)%R.

(** [range(n)]: [0, 1, ..., n-1]; empty when [n <= 0]. *)
Definition range (n : Z) : list Z :=
  map Z.of_nat (seq 0 (Z.to_nat n)).

End Py.

(** ** The synthesis half of [generate_sine_wave] (lines 12-23) *)

(** The four arguments of [generate_sine_wave]. *)
Record ToneSpec : Type := mkTone {
  frequency   : R;
  duration    : R;
  sample_rate : Z;
  amplitude   : R
}.

(** [num_samples = int(sample_rate * duration)], exact-arithmetic reading:
    truncation of the real product.  [B64.num_samples] truncates the
    binary64 product and has the exceptions of [int()]. *)
Definition num_samples (sample_rate : Z) (duration : R) : Z :=
  Py.int (IZR sample_rate * duration)%R.

(** Body of the [for] loop, for one index [i]:
    [t = i / sample_rate],
    [sample = amplitude * math.sin(2 * math.pi * frequency * t)],
    [sample_int = int(sample * 32767)],
    exact-arithmetic reading ([B64.sample_int] is the binary64 one). *)
Definition sample_int (frequency : R) (sample_rate : Z) (amplitude : R)
    (i : Z) : result Z :=
  t <- Py.truediv i sample_rate ;;
  let sample := (amplitude * sin (2 * PI * frequency * t))%R in
  Ok (Py.int (sample * 32767)%R).

(** [for i in range(num_samples): ... samples.append(sample_int)], run over
    the remaining indices with the list built so far. *)
Fixpoint for_samples (frequency : R) (sample_rate : Z) (amplitude : R)
    (indices : list Z) (samples : list Z) : result (list Z) :=
  match indices with
  | [] => Ok samples
  | i :: rest =>
      s <- sample_int frequency sample_rate amplitude i ;;
      for_samples frequency sample_rate amplitude rest (samples ++ [s])
  end.

(** Lines 12-23: the sample list handed to the WAV writer, exact-arithmetic
    reading.  The only exception left in this reading is the division by a
    zero sample rate; [B64.generate_samples] has the others. *)
Definition generate_samples (frequency duration : R) (sample_rate : Z)
    (amplitude : R) : result (list Z) :=
  for_samples frequency sample_rate amplitude
    (Py.range (num_samples sample_rate duration)) [].

Definition synthesize (spec : ToneSpec) : result (list Z) :=
  generate_samples (frequency spec) (duration spec) (sample_rate spec)
    (amplitude spec).

(** ** [struct.pack] / [struct.unpack] for the little-endian formats used *)

Module Struct.

Definition byte_of_Z (z : Z) : byte :=
  match Byte.of_N (Z.to_N (z mod 256)) with
  | Some b => b
  | None => x00
  end.

Definition Z_of_byte (b : byte) : Z := Z.of_N (Byte.to_N b).

(** The [n] low-order bytes of [z], least significant first (two's
    complement for negative [z]). *)
Fixpoint le_bytes (n : nat) (z : Z) : list byte :=
  match n with
  | O => []
  | S k => byte_of_Z z :: le_bytes k (z / 256)
  end.

(** The unsigned value of a little-endian byte sequence. *)
Fixpoint le_value (bs : list byte) : Z :=
  match bs with
  | [] => 0
  | b :: rest => Z_of_byte b + 256 * le_value rest
  end.

(** [struct.pack('<h', z)]: [struct.error] outside [-32768, 32767]. *)
Definition pack_h (z : Z) : result (list byte) :=
  if ((-32768 <=? z) && (z <=? 32767))%Z then Ok (le_bytes 2 z)
  else Raise StructError.

(** [struct.pack('<H', z)] *)
Definition pack_H (z : Z) : result (list byte) :=
  if ((0 <=? z) && (z <? 65536))%Z then Ok (le_bytes 2 z)
  else Raise StructError.

(** [struct.pack('<L', z)] *)
Definition pack_L (z : Z) : result (list byte) :=
  if ((0 <=? z) && (z <? 4294967296))%Z then Ok (le_bytes 4 z)
  else Raise StructError.

(** [struct.unpack('<h', bs)[0]] on two bytes. *)
Definition unpack_h (bs : list byte) : Z :=
  let u := le_value bs in
  if (u <? 32768)%Z then u else (u - 65536)%Z.

(** [struct.unpack('<H', bs)[0]] and [struct.unpack('<L', bs)[0]]. *)
Definition unpack_unsigned (bs : list byte) : Z := le_value bs.

End Struct.

(** ** A binary file object: contents and current position *)

Module File.

Record t : Type := mk {
  content  : list byte;
  position : nat
}.

(** [open(name, 'wb')]: an empty file, whatever was stored under the name. *)
Definition open_wb : t := mk [] 0.

(** [f.write(data)]: overwrite at the current position, extending the
    file when the write runs past its end.  (The writer below never seeks
    beyond the end, where a real file would be padded with zero bytes.) *)
Definition write (data : list byte) (f : t) : t :=
  mk (firstn (position f) (content f) ++ data
        ++ skipn (position f + List.length data) (content f))
     (position f + List.length data).

Definition tell (f : t) : nat := position f.

Definition seek (p : nat) (f : t) : t := mk (content f) p.

Arguments write data f /.
Arguments seek p f /.
Arguments tell f /.

End File.

(** ** The writer of Python's [wave] module ([Wave_write]) *)

Module Wave.

(** The attributes of a [Wave_write] object ([_file], [_nchannels],
    [_sampwidth], [_framerate], [_nframes], [_nframeswritten],
    [_datawritten], [_datalength], [_headerwritten], [_form_length_pos],
    [_data_length_pos]). *)
Record Wave_write : Type := mkWave {
  file            : File.t;
  nchannels       : Z;
  sampwidth       : Z;
  framerate       : Z;
  nframes         : Z;
  nframeswritten  : Z;
  datawritten     : Z;
  datalength      : Z;
  headerwritten   : bool;
  form_length_pos : nat;
  data_length_pos : nat
}.

(** A method: it runs on the object, may raise, and leaves the object in
    the state reached when it returned or raised. *)
Definition W (A : Type) : Type := Wave_write -> result A * Wave_write.

Definition ret {A : Type} (a : A) : W A := fun w => (Ok a, w).

Definition raise {A : Type} (e : exn) : W A := fun w => (Raise e, w).

Definition wbind {A B : Type} (m : W A) (k : A -> W B) : W B :=
  fun w =>
    match m w with
    | (Ok a, w') => k a w'
    | (Raise e, w') => (Raise e, w')
    end.

Definition get : W Wave_write := fun w => (Ok w, w).

Definition modify (f : Wave_write -> Wave_write) : W unit :=
  fun w => (Ok tt, f w).

(** A computation that does not touch the object, such as [struct.pack]. *)
Definition lift {A : Type} (r : result A) : W A := fun w => (r, w).

Declare Scope wave_scope.
Delimit Scope wave_scope with wave.
Notation "x <- m ;; k" := (wbind m (fun x => k))
  (at level 61, m at next level, right associativity) : wave_scope.
Notation "m ;;; k" := (wbind m (fun _ => k))
  (at level 61, right associativity) : wave_scope.
Local Open Scope wave_scope.
Local Open Scope Z_scope.

(** Attribute assignments. *)
Definition set_file (v : File.t) (w : Wave_write) : Wave_write :=
  mkWave v (nchannels w) (sampwidth w) (framerate w) (nframes w)
    (nframeswritten w) (datawritten w) (datalength w) (headerwritten w)
    (form_length_pos w) (data_length_pos w).
Definition set_nchannels (v : Z) (w : Wave_write) : Wave_write :=
  mkWave (file w) v (sampwidth w) (framerate w) (nframes w)
    (nframeswritten w) (datawritten w) (datalength w) (headerwritten w)
    (form_length_pos w) (data_length_pos w).
Definition set_sampwidth (v : Z) (w : Wave_write) : Wave_write :=
  mkWave (file w) (nchannels w) v (framerate w) (nframes w)
    (nframeswritten w) (datawritten w) (datalength w) (headerwritten w)
    (form_length_pos w) (data_length_pos w).
Definition set_framerate (v : Z) (w : Wave_write) : Wave_write :=
  mkWave (file w) (nchannels w) (sampwidth w) v (nframes w)
    (nframeswritten w) (datawritten w) (datalength w) (headerwritten w)
    (form_length_pos w) (data_length_pos w).
Definition set_nframes (v : Z) (w : Wave_write) : Wave_write :=
  mkWave (file w) (nchannels w) (sampwidth w) (framerate w) v
    (nframeswritten w) (datawritten w) (datalength w) (headerwritten w)
    (form_length_pos w) (data_length_pos w).
Definition set_nframeswritten (v : Z) (w : Wave_write) : Wave_write :=
  mkWave (file w) (nchannels w) (sampwidth w) (framerate w) (nframes w)
    v (datawritten w) (datalength w) (headerwritten w)
    (form_length_pos w) (data_length_pos w).
Definition set_datawritten (v : Z) (w : Wave_write) : Wave_write :=
  mkWave (file w) (nchannels w) (sampwidth w) (framerate w) (nframes w)
    (nframeswritten w) v (datalength w) (headerwritten w)
    (form_length_pos w) (data_length_pos w).
Definition set_datalength (v : Z) (w : Wave_write) : Wave_write :=
  mkWave (file w) (nchannels w) (sampwidth w) (framerate w) (nframes w)
    (nframeswritten w) (datawritten w) v (headerwritten w)
    (form_length_pos w) (data_length_pos w).
Definition set_headerwritten (v : bool) (w : Wave_write) : Wave_write :=
  mkWave (file w) (nchannels w) (sampwidth w) (framerate w) (nframes w)
    (nframeswritten w) (datawritten w) (datalength w) v
    (form_length_pos w) (data_length_pos w).
Definition set_form_length_pos (v : nat) (w : Wave_write) : Wave_write :=
  mkWave (file w) (nchannels w) (sampwidth w) (framerate w) (nframes w)
    (nframeswritten w) (datawritten w) (datalength w) (headerwritten w)
    v (data_length_pos w).
Definition set_data_length_pos (v : nat) (w : Wave_write) : Wave_write :=
  mkWave (file w) (nchannels w) (sampwidth w) (framerate w) (nframes w)
    (nframeswritten w) (datawritten w) (datalength w) (headerwritten w)
    (form_length_pos w) v.

(** [self._file.write(data)], [self._file.seek(p, 0)] *)
Definition file_write (data : list byte) : W unit :=
  modify (fun w => set_file (File.write data (file w)) w).
Definition file_seek (p : nat) : W unit :=
  modify (fun w => set_file (File.seek p (file w)) w).
Definition file_tell : W nat :=
  fun w => (Ok (File.tell (file w)), w).

(** [a // b] on ints. *)
Definition floordiv (a b : Z) : result Z :=
  if b =? 0 then Raise ZeroDivisionError else Ok (a / b).

Definition WAVE_FORMAT_PCM : Z := 1.

Definition b_RIFF : list byte := ["R"; "I"; "F"; "F"]%byte.
Definition b_WAVE : list byte := ["W"; "A"; "V"; "E"]%byte.
Definition b_fmt  : list byte := ["f"; "m"; "t"; " "]%byte.
Definition b_data : list byte := ["d"; "a"; "t"; "a"]%byte.

(** [wave.open(name, 'w')]: [Wave_write.__init__] and [initfp] on a file
    freshly opened with mode ['wb']. *)
Definition initfp : Wave_write :=
  mkWave File.open_wb 0 0 0 0 0 0 0 false 0%nat 0%nat.

(** [if self._datawritten: raise Error(..)]
    [if nchannels < 1: raise Error(..)]
    [self._nchannels = nchannels] *)
Definition setnchannels (n : Z) : W unit :=
  w <- get ;;
  if negb (datawritten w =? 0) then raise WaveError
  else if n <? 1 then raise WaveError
  else modify (set_nchannels n).

(** [if self._datawritten: raise Error(..)]
    [if sampwidth < 1 or sampwidth > 4: raise Error(..)]
    [self._sampwidth = sampwidth] *)
Definition setsampwidth (n : Z) : W unit :=
  w <- get ;;
  if negb (datawritten w =? 0) then raise WaveError
  else if (n <? 1) || (4 <? n) then raise WaveError
  else modify (set_sampwidth n).

(** [if self._datawritten: raise Error(..)]
    [if framerate <= 0: raise Error(..)]
    [self._framerate = int(round(framerate))]
    ([framerate] is an [int] at the call site, so [int(round(framerate))]
    is [framerate]). *)
Definition setframerate (n : Z) : W unit :=
  w <- get ;;
  if negb (datawritten w =? 0) then raise WaveError
  else if n <=? 0 then raise WaveError
  else modify (set_framerate n).

(** [struct.pack('<L4s4sLHHLLHH4s', 36 + datalength, b'WAVE', b'fmt ', 16,
    WAVE_FORMAT_PCM, nchannels, framerate, nchannels*framerate*sampwidth,
    nchannels*sampwidth, sampwidth*8, b'data')] *)
Definition pack_header (w : Wave_write) : result (list byte) :=
  (form_len   <- Struct.pack_L (36 + datalength w) ;;
   fmt_len    <- Struct.pack_L 16 ;;
   tag        <- Struct.pack_H WAVE_FORMAT_PCM ;;
   channels   <- Struct.pack_H (nchannels w) ;;
   rate       <- Struct.pack_L (framerate w) ;;
   byte_rate  <- Struct.pack_L (nchannels w * framerate w * sampwidth w) ;;
   block      <- Struct.pack_H (nchannels w * sampwidth w) ;;
   bits       <- Struct.pack_H (sampwidth w * 8) ;;
   Ok (form_len ++ b_WAVE ++ b_fmt ++ fmt_len ++ tag ++ channels ++ rate
         ++ byte_rate ++ block ++ bits ++ b_data))%py.

(** [self._file.write(b'RIFF')]
    [if not self._nframes:]
    [    self._nframes = initlength // (self._nchannels * self._sampwidth)]
    [self._datalength = self._nframes * self._nchannels * self._sampwidth]
    [self._form_length_pos = self._file.tell()]
    [self._file.write(struct.pack('<L4s4sLHHLLHH4s', ..))]
    [self._data_length_pos = self._file.tell()]
    [self._file.write(struct.pack('<L', self._datalength))]
    [self._headerwritten = True] *)
Definition _write_header (initlength : Z) : W unit :=
  file_write b_RIFF ;;;
  w <- get ;;
  (if nframes w =? 0
   then n <- lift (floordiv initlength (nchannels w * sampwidth w)) ;;
        modify (set_nframes n)
   else ret tt) ;;;
  modify (fun w => set_datalength (nframes w * nchannels w * sampwidth w) w) ;;;
  p <- file_tell ;;
  modify (set_form_length_pos p) ;;;
  w <- get ;;
  hdr <- lift (pack_header w) ;;
  file_write hdr ;;;
  p <- file_tell ;;
  modify (set_data_length_pos p) ;;;
  w <- get ;;
  len <- lift (Struct.pack_L (datalength w)) ;;
  file_write len ;;;
  modify (set_headerwritten true).

(** [if not self._headerwritten:]
    [    if not self._nchannels: raise Error(..)]
    [    if not self._sampwidth: raise Error(..)]
    [    if not self._framerate: raise Error(..)]
    [    self._write_header(datasize)] *)
Definition _ensure_header_written (datasize : Z) : W unit :=
  w <- get ;;
  if headerwritten w then ret tt
  else if nchannels w =? 0 then raise WaveError
  else if sampwidth w =? 0 then raise WaveError
  else if framerate w =? 0 then raise WaveError
  else _write_header datasize.

(** [if self._datawritten == self._datalength: return]
    [curpos = self._file.tell()]
    [self._file.seek(self._form_length_pos, 0)]
    [self._file.write(struct.pack('<L', 36 + self._datawritten))]
    [self._file.seek(self._data_length_pos, 0)]
    [self._file.write(struct.pack('<L', self._datawritten))]
    [self._file.seek(curpos, 0)]
    [self._datalength = self._datawritten] *)
Definition _patchheader : W unit :=
  w <- get ;;
  if datawritten w =? datalength w then ret tt
  else
    curpos <- file_tell ;;
    file_seek (form_length_pos w) ;;;
    form_len <- lift (Struct.pack_L (36 + datawritten w)) ;;
    file_write form_len ;;;
    file_seek (data_length_pos w) ;;;
    len <- lift (Struct.pack_L (datawritten w)) ;;
    file_write len ;;;
    file_seek curpos ;;;
    modify (fun w => set_datalength (datawritten w) w).

(** [self._ensure_header_written(len(data))]
    [nframes = len(data) // (self._sampwidth * self._nchannels)]
    [self._file.write(data)]
    [self._datawritten += len(data)]
    [self._nframeswritten = self._nframeswritten + nframes]
    ([data] is a [bytes] object and the host is little-endian, so the
    frames are written as they are). *)
Definition writeframesraw (data : list byte) : W unit :=
  let len := Z.of_nat (List.length data) in
  _ensure_header_written len ;;;
  w <- get ;;
  n <- lift (floordiv len (sampwidth w * nchannels w)) ;;
  file_write data ;;;
  modify (fun w => set_datawritten (datawritten w + len) w) ;;;
  modify (fun w => set_nframeswritten (nframeswritten w + n) w).

(** [self.writeframesraw(data)]
    [if self._datalength != self._datawritten: self._patchheader()] *)
Definition writeframes (data : list byte) : W unit :=
  writeframesraw data ;;;
  w <- get ;;
  if negb (datalength w =? datawritten w) then _patchheader else ret tt.

(** [self._ensure_header_written(0)]
    [if self._datalength != self._datawritten: self._patchheader()]
    [self._file.flush()], and in the [finally] part [file.close()]. *)
Definition close : W unit :=
  _ensure_header_written 0 ;;;
  w <- get ;;
  if negb (datalength w =? datawritten w) then _patchheader else ret tt.

(** [with wave.open(name, 'w') as wav_file: body].  [__exit__] is [close],
    run whether or not the body raised; an exception of [close] replaces
    the one of the body. *)
Definition with_open {A : Type} (body : W A) : result A * Wave_write :=
  match body initfp with
  | (Ok a, w) =>
      match close w with
      | (Ok _, w') => (Ok a, w')
      | (Raise e, w') => (Raise e, w')
      end
  | (Raise e, w) =>
      match close w with
      | (Ok _, w') => (Raise e, w')
      | (Raise e', w') => (Raise e', w')
      end
  end.

(** The primitive steps unfold as soon as they are run on an object. *)
Arguments wbind {A B} m k w /.
Arguments get w /.
Arguments modify f w /.
Arguments lift {A} r w /.
Arguments ret {A} a w /.
Arguments raise {A} e w /.
Arguments file_write data w /.
Arguments file_seek p w /.
Arguments file_tell w /.
Arguments set_file v w /.
Arguments set_nchannels v w /.
Arguments set_sampwidth v w /.
Arguments set_framerate v w /.
Arguments set_nframes v w /.
Arguments set_nframeswritten v w /.
Arguments set_datawritten v w /.
Arguments set_datalength v w /.
Arguments set_headerwritten v w /.
Arguments set_form_length_pos v w /.
Arguments set_data_length_pos v w /.

End Wave.

(** ** The encoding half of [generate_sine_wave] (lines 26-34) *)

Import Wave.
Local Open Scope wave_scope.

(** [for sample in samples: wav_file.writeframes(struct.pack('<h', sample))] *)
Fixpoint for_frames (samples : list Z) : W unit :=
  match samples with
  | [] => ret tt
  | sample :: rest =>
      data <- lift (Struct.pack_h sample) ;;
      writeframes data ;;;
      for_frames rest
  end.

(** The body of the [with] statement. *)
Definition write_wav (samples : list Z) (sample_rate : Z) : W unit :=
  setnchannels 1 ;;;
  setsampwidth 2 ;;;
  setframerate sample_rate ;;;
  for_frames samples.

(** The bytes left in the file by the [with] statement, and its outcome. *)
Definition encode_wav (samples : list Z) (sample_rate : Z)
    : result unit * list byte :=
  let (r, w) := with_open (write_wav samples sample_rate) in
  (r, File.content (file w)).

(** The files of the working directory, by name. *)
Definition filesystem : Type := string -> option (list byte).

Definition store (name : string) (data : list byte) (fs : filesystem)
    : filesystem :=
  fun n => if String.eqb n name then Some data else fs n.

(** [generate_sine_wave(frequency, duration, sample_rate, amplitude)], run
    in a working directory [fs].  [frequency_text] is the text the f-string
    [f"tone_{frequency}hz.wav"] puts in for [frequency] (Python's [str] of
    the argument, which the real-number model of [frequency] does not
    determine); the result is the returned file name, or the exception that
    escaped, and the working directory afterwards. *)
Definition generate_sine_wave (frequency_text : string)
    (frequency duration : R) (sample_rate : Z) (amplitude : R)
    (fs : filesystem) : result string * filesystem :=
  match generate_samples frequency duration sample_rate amplitude with
  | Raise e => (Raise e, fs)
  | Ok samples =>
      let filename := ("tone_" ++ frequency_text ++ "hz.wav")%string in
      match encode_wav samples sample_rate with
      | (Ok _, data) => (Ok filename, store filename data fs)
      | (Raise e, data) => (Raise e, store filename data fs)
      end
  end.

Local Close Scope wave_scope.

(** ** Closed forms of what the program computes *)

(** The value the loop body computes at index [i] when it does not raise,
    in the exact-arithmetic reading. *)
Definition sample_value (frequency : R) (sample_rate : Z) (amplitude : R)
    (i : Z) : Z :=
  Py.int (amplitude * sin (2 * PI * frequency * (IZR i / IZR sample_rate))
            * 32767)%R.

(** Samples that fit a signed 16-bit integer. *)
Definition int16 (z : Z) : Prop := (-32768 <= z <= 32767)%Z.

(** The 44-byte header of a mono 16-bit PCM file with sample rate
    [sample_rate] and [datalength] bytes of sample data. *)
Definition wav_header (sample_rate datalength : Z) : list byte :=
  b_RIFF ++ Struct.le_bytes 4 (36 + datalength) ++ b_WAVE ++ b_fmt
    ++ Struct.le_bytes 4 16 ++ Struct.le_bytes 2 1 ++ Struct.le_bytes 2 1
    ++ Struct.le_bytes 4 sample_rate ++ Struct.le_bytes 4 (1 * sample_rate * 2)
    ++ Struct.le_bytes 2 (1 * 2) ++ Struct.le_bytes 2 (2 * 8)
    ++ b_data ++ Struct.le_bytes 4 datalength.

(** The sample data of a buffer: each sample as two little-endian bytes. *)
Definition frames_of (samples : list Z) : list byte :=
  flat_map (Struct.le_bytes 2) samples.

(** The writer after [setnchannels(1)], [setsampwidth(2)] and
    [setframerate(sample_rate)], before anything is written. *)
Definition configured (sample_rate : Z) : Wave_write :=
  mkWave File.open_wb 1 2 sample_rate 0 0 0 0 false 0%nat 0%nat.

(** The writer after [nf] calls of [writeframes] that wrote [data]: the
    header in the file already carries the length of [data]. *)
Definition written (sample_rate nf : Z) (data : list byte) : Wave_write :=
  mkWave
    (File.mk (wav_header sample_rate (Z.of_nat (List.length data)) ++ data)
       (44 + List.length data))
    1 2 sample_rate 1 nf (Z.of_nat (List.length data))
    (Z.of_nat (List.length data)) true 4%nat 40%nat.

(** An object whose header is still to be written. *)
Definition unwritten (sr : Z) (w : Wave_write) : Prop :=
  nchannels w = 1%Z /\ sampwidth w = 2%Z /\ framerate w = sr /\
  headerwritten w = false.

(** ** The vocabulary of the specification *)

(** A valid ToneSpec: frequency > 0, duration > 0, a positive integer
    sample rate, and 0 < amplitude <= 1. *)
Definition valid (spec : ToneSpec) : Prop :=
  (0 < frequency spec)%R /\ (0 < duration spec)%R /\
  (0 < sample_rate spec)%Z /\ (0 < amplitude spec <= 1)%R.

(** The specification's [round]: the nearest integer, a tie going to the
    even neighbour as in Python's [round]. *)
Definition round (x : R) : Z :=
  let f := Zfloor x in
  if Rlt_dec (x - IZR f) (1 / 2) then f
  else if Rlt_dec (1 / 2) (x - IZR f) then (f + 1)%Z
  else if Z.even f then f else (f + 1)%Z.

(** The specification's clamp to the signed 16-bit range. *)
Definition clamp16 (z : Z) : Z := Z.max (-32768) (Z.min 32767 z).

(** The specification's sample at index [i]:
    round(amplitude * sin(2 pi frequency i / sample_rate) * 32767), clamped
    to [-32768, 32767]. *)
Definition spec_sample (spec : ToneSpec) (i : Z) : Z :=
  clamp16
    (round (amplitude spec
            * sin (2 * PI * frequency spec * (IZR i / IZR (sample_rate spec)))
            * 32767)%R).


(** ** A WAV reader *)

Fixpoint bytes_eqb (a b : list byte) : bool :=
  match a, b with
  | [], [] => true
  | x :: a', y :: b' => Byte.eqb x y && bytes_eqb a' b'
  | _, _ => false
  end.

(** [bs[start : start + len]] *)
Definition slice (start len : nat) (bs : list byte) : list byte :=
  firstn len (skipn start bs).

(** 16-bit little-endian frames back to samples, two bytes at a time. *)
Fixpoint unpack_frames (data : list byte) : list Z :=
  match data with
  | lo :: hi :: rest => Struct.unpack_h [lo; hi] :: unpack_frames rest
  | _ => []
  end.

(** What a reader gets out of a file: the header fields and the samples. *)
Record wav : Type := mkWav {
  wav_channels : Z;
  wav_rate     : Z;
  wav_bits     : Z;
  wav_samples  : list Z
}.

(** Modelled from the spec: the repository has no WAV reader; this is the
    [decode] of the round-trip property, a standard reader of the canonical
    layout the spec describes (a header declaring channel count, sample
    rate, bit depth and data length, followed by the raw little-endian
    sample bytes).  It checks the RIFF/WAVE/fmt/data tags, the 16-byte PCM
    format chunk and the declared data length against the bytes present, and
    returns the 16-bit samples. *)
Definition decode_wav (bs : list byte) : option wav :=
  let fmt_len  := Struct.unpack_unsigned (slice 16 4 bs) in
  let tag      := Struct.unpack_unsigned (slice 20 2 bs) in
  let channels := Struct.unpack_unsigned (slice 22 2 bs) in
  let rate     := Struct.unpack_unsigned (slice 24 4 bs) in
  let bits     := Struct.unpack_unsigned (slice 34 2 bs) in
  let data_len := Struct.unpack_unsigned (slice 40 4 bs) in
  let data     := slice 44 (Z.to_nat data_len) bs in
  if bytes_eqb (slice 0 4 bs) b_RIFF
     && bytes_eqb (slice 8 4 bs) b_WAVE
     && bytes_eqb (slice 12 4 bs) b_fmt
     && bytes_eqb (slice 36 4 bs) b_data
     && (fmt_len =? 16)%Z && (tag =? WAVE_FORMAT_PCM)%Z && (bits =? 16)%Z
     && (Z.of_nat (List.length data) =? data_len)%Z
  then Some (mkWav channels rate bits (unpack_frames data))
  else None.

(** ** The tones used as concrete inputs *)

(** 440 Hz for 0.4375 s at 44100 Hz: 19293.75 sample periods. *)
Definition tone_c1 : ToneSpec := mkTone 440 (7 / 16) 44100 (3 / 10).

(** 1 Hz for one second at 4 samples per second; the sine is 0, 1, 0, -1 at
    the four sample times. *)
Definition tone_quarter (amplitude : R) : ToneSpec := mkTone 1 1 4 amplitude.



(** One sample at 2^31 samples per second: 1 Hz for 2^-31 s. *)
Definition tone_rate31 : ToneSpec :=
  mkTone 1 (/ 2147483648) 2147483648 (3 / 10).

(** * The scripts around the synthesis

    [play_tone] and the script body of generate_tone.py, and the scripts
    generate_test_tones.py, continuous_tone.py and loop_tone.py.  They add
    three things to the picture: numpy's array operations, external
    commands run through [subprocess.run], and files that are removed
    again.  Standard output is not part of the model: the [print]
    statements write nothing that the programs read back, and they are
    left out.  Signals ([KeyboardInterrupt], the SIGINT handler of
    loop_tone.py) are not modelled either.  The external commands are taken
    not to touch the files of the working directory. *)

(** ** Exceptions and outcomes of the scripts *)

Inductive error : Type :=
| Lib (e : exn)                      (* an exception of [struct] or [wave] *)
| ValueError
| OverflowError
| CalledProcessError (status : Z)    (* subprocess.CalledProcessError *)
| FileNotFoundError.

Inductive outcome (A : Type) : Type :=
| Done (a : A)
| Failed (e : error).

Arguments Done {A} a.
Arguments Failed {A} e.

(** What [subprocess.run(cmd, check=True)] meets: the command runs and
    exits with a status, or there is no such command. *)
Inductive run_outcome : Type :=
| Exited (status : Z)
| NotFound.

(** The working directory, the commands run so far (oldest first) and the
    number of [time.sleep(0.1)] calls made. *)
Record world : Type := mkWorld {
  files    : filesystem;
  commands : list (list string);
  sleeps   : nat
}.

(** A statement of a script: it runs in a world and ends normally or with
    an exception, in the world it reached. *)
Definition P (A : Type) : Type := world -> outcome A * world.

Definition pret {A : Type} (a : A) : P A := fun w => (Done a, w).

Definition pbind {A B : Type} (m : P A) (k : A -> P B) : P B :=
  fun w =>
    match m w with
    | (Done a, w') => k a w'
    | (Failed e, w') => (Failed e, w')
    end.

Declare Scope script_scope.
Delimit Scope script_scope with script.
Notation "x <- m ;; k" := (pbind m (fun x => k))
  (at level 61, m at next level, right associativity) : script_scope.
Notation "m ;;; k" := (pbind m (fun _ => k))
  (at level 61, right associativity) : script_scope.

(** [try: body / except <handled>: handler] *)
Definition try_except {A : Type} (body : P A) (handled : error -> bool)
    (handler : P A) : P A :=
  fun w =>
    match body w with
    | (Done a, w') => (Done a, w')
    | (Failed e, w') => if handled e then handler w' else (Failed e, w')
    end.

(** [try: body / finally: final]: [final] runs in every case; an exception
    of [final] replaces the outcome of [body]. *)
Definition try_finally {A : Type} (body : P A) (final : P unit) : P A :=
  fun w =>
    match body w with
    | (r, w') =>
        match final w' with
        | (Done _, w'') => (r, w'')
        | (Failed e, w'') => (Failed e, w'')
        end
    end.

Definition is_CalledProcessError (e : error) : bool :=
  match e with CalledProcessError _ => true | _ => false end.

Definition is_CalledProcessError_or_FileNotFoundError (e : error) : bool :=
  match e with
  | CalledProcessError _ | FileNotFoundError => true
  | _ => false
  end.

(** [except Exception] *)
Definition is_Exception (e : error) : bool := true.

(** ** The operating system *)

Module Os.

(** [subprocess.run(cmd, check=True)].  [os k] is what the [k]-th command
    of the run meets (counting from 0): a missing command raises
    [FileNotFoundError], a non-zero exit status [CalledProcessError]. *)
Definition subprocess_run (os : nat -> run_outcome) (cmd : list string)
    : P unit :=
  fun w =>
    let w' := mkWorld (files w) (commands w ++ [cmd]) (sleeps w) in
    match os (List.length (commands w)) with
    | NotFound => (Failed FileNotFoundError, w')
    | Exited status =>
        if (status =? 0)%Z then (Done tt, w')
        else (Failed (CalledProcessError status), w')
    end.

(** [time.sleep(0.1)] *)
Definition time_sleep : P unit :=
  fun w => (Done tt, mkWorld (files w) (commands w) (S (sleeps w))).

(** [os.path.exists(name)] *)
Definition path_exists (name : string) : P bool :=
  fun w =>
    (Done (match files w name with Some _ => true | None => false end), w).

Definition unlink (name : string) (fs : filesystem) : filesystem :=
  fun n => if String.eqb n name then None else fs n.

(** [os.remove(name)]: [FileNotFoundError] when there is no such file. *)
Definition remove (name : string) : P unit :=
  fun w =>
    match files w name with
    | Some _ =>
        (Done tt, mkWorld (unlink name (files w)) (commands w) (sleeps w))
    | None => (Failed FileNotFoundError, w)
    end.

End Os.

(** ** numpy *)

Module Np.

(** [np.linspace(start, stop, num, False)]: [num] points
    [i * ((stop - start) / num) + start], the end point left out;
    [ValueError] for a negative [num]. *)
Definition linspace (start stop : R) (num : Z) : outcome (list R) :=
  if (num <? 0)%Z then Failed ValueError
  else Done (map (fun i => (IZR i * ((stop - start) / IZR num) + start)%R)
               (Py.range num)).

(** The C conversion of an integral value to a 16-bit integer as x86-64
    carries it out: a value that fits 32 bits is cut to its low 16 bits, and
    one that does not fit gives 0 (the low half of the 32-bit
    "indefinite" result 0x80000000). *)
Definition wrap16 (z : Z) : Z :=
  if ((-2147483648 <=? z) && (z <=? 2147483647))%Z
  then ((z + 32768) mod 65536 - 32768)%Z
  else 0%Z.

(** [x.astype(np.int16)] on one float64 element: the fraction is dropped;
    within 16 bits the value is kept, and outside the result is the one of
    the C conversion above (C leaves it undefined; the scripts never get
    there, see below). *)
Definition astype_int16 (x : R) : Z := wrap16 (Py.int x).

(** [a.tobytes()] on an int16 array, on a little-endian host. *)
Definition tobytes (a : list Z) : list byte := frames_of a.

End Np.

(** ** Writing all frames at once *)

Import Wave.

(** [with wave.open(name, 'w') as wav_file:]
    [    wav_file.setnchannels(1)]
    [    wav_file.setsampwidth(2)]
    [    wav_file.setframerate(sample_rate)]
    [    wav_file.writeframes(data)]
    as in generate_test_tones.py and continuous_tone.py: the outcome and
    the bytes left in the file. *)
Definition write_wav_at_once (data : list byte) (sample_rate : Z)
    : result unit * list byte :=
  let (r, w) :=
    with_open (wbind (setnchannels 1) (fun _ =>
               wbind (setsampwidth 2) (fun _ =>
               wbind (setframerate sample_rate) (fun _ =>
               writeframes data)))) in
  (r, File.content (file w)).

(** Running a [with wave.open(name, 'w')] block as a statement of a
    script: the file is created or replaced whatever the outcome. *)
Definition save_as (name : string) (block : result unit * list byte)
    : P unit :=
  fun w =>
    let w' := mkWorld (store name (snd block) (files w)) (commands w)
                (sleeps w) in
    match fst block with
    | Ok _ => (Done tt, w')
    | Raise e => (Failed (Lib e), w')
    end.

(** The writer with a header declaring [dl] data bytes in the file, followed
    by the [data] written so far. *)
Definition header_state (sr nfr nfw dl : Z) (data : list byte) : Wave_write :=
  mkWave (File.mk (wav_header sr dl ++ data) (44 + List.length data))
    1 2 sr nfr nfw (Z.of_nat (List.length data)) dl true 4%nat 40%nat.

(** ** generate_tone.py: [play_tone] and the script body *)

Local Open Scope script_scope.

(** A Python number as a program holds it: its value, and the text [str]
    gives for it (which the real-number value does not determine). *)
Record number : Type := mkNumber {
  str : string;
  val : R
}.

(** [for x in items: body] *)
Fixpoint for_each {A : Type} (items : list A) (body : A -> P unit)
    : P unit :=
  match items with
  | [] => pret tt
  | x :: rest => body x ;;; for_each rest body
  end.

(** A call of [generate_sine_wave] as a statement of a script. *)
Definition call_generate_sine_wave (frequency : number) (duration : R)
    (sample_rate : Z) (amplitude : R) : P string :=
  fun w =>
    match generate_sine_wave (str frequency) (val frequency) duration
            sample_rate amplitude (files w) with
    | (Ok filename, fs) => (Done filename, mkWorld fs (commands w) (sleeps w))
    | (Raise e, fs) => (Failed (Lib e), mkWorld fs (commands w) (sleeps w))
    end.

(** [play_tone(frequency, duration)] (lines 38-56):
    [filename = generate_sine_wave(frequency, duration)], with the default
    sample rate 44100 and amplitude 0.3, then
    [try: subprocess.run(['afplay', filename], check=True)]
    [except subprocess.CalledProcessError: ...]
    [finally: if os.path.exists(filename): os.remove(filename)]. *)
Definition play_tone (os : nat -> run_outcome) (frequency : number)
    (duration : R) : P unit :=
  filename <- call_generate_sine_wave frequency duration 44100 (3 / 10) ;;
  try_finally
    (try_except (Os.subprocess_run os ["afplay"%string; filename])
       is_CalledProcessError (pret tt))
    (present <- Os.path_exists filename ;;
     if present then Os.remove filename else pret tt).

(** The [notes] of the script body (lines 63-68), each frequency with its
    [str]. *)
Definition notes : list (number * string) :=
  [(mkNumber "440" 440, "A4"%string);
   (mkNumber "261.63" (26163 / 100), "C4"%string);
   (mkNumber "329.63" (32963 / 100), "E4"%string);
   (mkNumber "523.25" (52325 / 100), "C5"%string)].

(** [for freq, note_name in notes: play_tone(freq, 2)] (lines 70-72) *)
Definition generate_tone_main (os : nat -> run_outcome) : P unit :=
  for_each notes (fun note => play_tone os (fst note) 2).

(** ** generate_test_tones.py *)

Definition obind {A B : Type} (m : outcome A) (k : A -> outcome B)
    : outcome B :=
  match m with
  | Done a => k a
  | Failed e => Failed e
  end.

(** The [notes] dictionary (lines 7-13), in insertion order. *)
Definition test_notes : list (string * R) :=
  [("A4"%string, 440%R); ("C4"%string, (26163 / 100)%R);
   ("E4"%string, (32963 / 100)%R); ("G4"%string, 392%R);
   ("C5"%string, (52325 / 100)%R)].

(** Lines 16-20 and 27 for one note:
    [duration = 3.0], [sample_rate = 44100],
    [t = np.linspace(0, duration, int(sample_rate * duration), False)],
    [audio = np.sin(2 * np.pi * freq * t) * 0.5],
    [audio_int = (audio * 32767).astype(np.int16)]. *)
Definition test_tone_audio_int (freq : R) : outcome (list Z) :=
  let duration := 3%R in
  let sample_rate := 44100%Z in
  obind (Np.linspace 0 duration (Py.int (IZR sample_rate * duration)%R))
    (fun t =>
       let audio := map (fun ti => (sin (2 * PI * freq * ti) * (1 / 2))%R) t in
       Done (map (fun a => Np.astype_int16 (a * 32767)%R) audio)).

(** The body of the loop (lines 15-29) for one note. *)
Definition test_tone (note_name : string) (freq : R) : P unit :=
  fun w =>
    match test_tone_audio_int freq with
    | Failed e => (Failed e, w)
    | Done audio_int =>
        save_as (note_name ++ "_test.wav")%string
          (write_wav_at_once (Np.tobytes audio_int) 44100) w
    end.

(** [for note_name, freq in notes.items(): ...] (lines 15-29) *)
Definition generate_test_tones : P unit :=
  for_each test_notes (fun note => test_tone (fst note) (snd note)).

(** ** continuous_tone.py *)

(** Python's [str] of an [int]. *)
Definition str_int (z : Z) : string :=
  DecimalString.NilZero.string_of_int (Z.to_int z).

(** Lines 30-34 and 40:
    [sample_rate = 44100], [samples = int(sample_rate * 5)],
    [t = np.linspace(0, 5, samples, False)],
    [audio = np.sin(2 * np.pi * frequency * t) * 0.3],
    [audio_int = (audio * 32767).astype(np.int16)]. *)
Definition continuous_audio_int (frequency : R) : outcome (list Z) :=
  let sample_rate := 44100%Z in
  let samples := (sample_rate * 5)%Z in
  obind (Np.linspace 0 5 samples)
    (fun t =>
       let audio :=
         map (fun ti => (sin (2 * PI * frequency * ti) * (3 / 10))%R) t in
       Done (map (fun a => Np.astype_int16 (a * 32767)%R) audio)).

(** [play_continuous_tone(frequency, duration)] (lines 7-51), [duration]
    an [int] as at its call and in its default.  numpy is taken to be
    installed.
    [try: subprocess.run(['sox', '-n', '-t', 'coreaudio', 'default',]
    [       'synth', str(duration), 'sine', str(frequency), 'vol', '0.3'],]
    [       check=True)]
    [except (subprocess.CalledProcessError, FileNotFoundError):]
    [    try: <write the 5 second file>; loops = duration // 5]
    [         for i in range(loops):]
    [             subprocess.run(['afplay', filename], check=True)]
    [    except Exception as e: ...] *)
Definition play_continuous_tone (os : nat -> run_outcome)
    (frequency : number) (duration : Z) : P unit :=
  try_except
    (Os.subprocess_run os
       ["sox"; "-n"; "-t"; "coreaudio"; "default"; "synth";
        str_int duration; "sine"; str frequency; "vol"; "0.3"]%string)
    is_CalledProcessError_or_FileNotFoundError
    (try_except
       (fun w =>
          match continuous_audio_int (val frequency) with
          | Failed e => (Failed e, w)
          | Done audio_int =>
              let filename :=
                ("continuous_" ++ str frequency ++ "hz.wav")%string in
              (save_as filename
                 (write_wav_at_once (Np.tobytes audio_int) 44100) ;;;
               let loops := (duration / 5)%Z in
               for_each (Py.range loops)
                 (fun i => Os.subprocess_run os ["afplay"%string; filename]))
                w
          end)
       is_Exception
       (pret tt)).

(** ** loop_tone.py *)

(** How one round of the [while True] loop ends. *)
Inductive flow : Type := Continue | Break.

(** One round (lines 19-27):
    [try: subprocess.run(['afplay', f'{note_name}_test.wav'], check=True)]
    [     time.sleep(0.1)]
    [except subprocess.CalledProcessError as e: ...; break] *)
Definition play_tone_round (os : nat -> run_outcome) (note_name : string)
    : P flow :=
  try_except
    (Os.subprocess_run os ["afplay"%string; (note_name ++ "_test.wav")%string] ;;;
     Os.time_sleep ;;;
     pret Continue)
    is_CalledProcessError
    (pret Break).

(** [play_tone_loop(frequency, note_name)] (lines 14-27), for at most
    [rounds] rounds of the loop: [Some tt] when the function has returned,
    [None] when it is still looping after [rounds] rounds.  [frequency] is
    only printed. *)
Fixpoint play_tone_loop (rounds : nat) (os : nat -> run_outcome)
    (frequency : R) (note_name : string) : P (option unit) :=
  match rounds with
  | O => pret None
  | S rounds' =>
      next <- play_tone_round os note_name ;;
      match next with
      | Continue => play_tone_loop rounds' os frequency note_name
      | Break => pret (Some tt)
      end
  end.

Local Close Scope script_scope.

(** ** Closed forms and concrete runs for the scripts *)

(** What [play_tone] makes of the player's result. *)
Definition player_result (r : run_outcome) : outcome unit :=
  match r with
  | Exited _ => Done tt
  | NotFound => Failed FileNotFoundError
  end.

(** The names of the four tone files of the script body. *)
Definition tone_files : list string :=
  ["tone_440hz.wav"; "tone_261.63hz.wav"; "tone_329.63hz.wav";
   "tone_523.25hz.wav"]%string.

(** The names of the files generate_test_tones.py writes. *)
Definition test_files : list string :=
  map (fun note => (fst note ++ "_test.wav")%string) test_notes.

(** The file of a numpy tone of [n] samples at level [level]. *)
Definition numpy_tone_file (frequency level : R) (n : Z) : list byte :=
  wav_header 44100 (2 * n)
    ++ frames_of (map (sample_value frequency 44100 level) (Py.range n)).

(** How many of [n] successive runs are attempted when the runs stop at the
    first one that does not exit with status 0; [start] is the index of the
    first. *)
Fixpoint attempts (os : nat -> run_outcome) (start n : nat) : nat :=
  match n with
  | O => O
  | S n' =>
      match os start with
      | Exited status =>
          if (status =? 0)%Z then S (attempts os (S start) n') else 1%nat
      | NotFound => 1%nat
      end
  end.

(** The [sox] command line of [play_continuous_tone]. *)
Definition sox_command (frequency : number) (duration : Z) : list string :=
  ["sox"; "-n"; "-t"; "coreaudio"; "default"; "synth"; str_int duration;
   "sine"; str frequency; "vol"; "0.3"]%string.

(** sox is missing, afplay works. *)
Definition only_afplay (k : nat) : run_outcome :=
  match k with
  | O => NotFound
  | S _ => Exited 0
  end.

(** The player works twice and then fails with status 1. *)
Definition fails_third (k : nat) : run_outcome :=
  match k with
  | 0%nat | 1%nat => Exited 0
  | _ => Exited 1
  end.

(** The player works twice and is then gone. *)
Definition gone_third (k : nat) : run_outcome :=
  match k with
  | 0%nat | 1%nat => Exited 0
  | _ => NotFound
  end.

(** * The binary64 reading of the synthesis

    The same lines of [generate_sine_wave], with Python's [float] as the
    IEEE-754 binary64 format: [PrimFloat.float], whose [*] and [/] round to
    nearest, ties to even, and whose values include the infinities and NaN.
    The implicit conversions of an [int] operand, the true division of two
    [int]s, the built-in [int] and [math.sin] raise the exceptions CPython
    raises ([OverflowError], [ZeroDivisionError], [ValueError]).  The C
    library's [sin], which [math.sin] calls, is a parameter [libm_sin]. *)

Module B64.

Inductive exception : Type :=
| ValueError
| OverflowError
| Exn (e : exn).     (* ZeroDivisionError, struct.error, wave.Error *)

(** A computation that returns a value or raises. *)
Inductive py (A : Type) : Type :=
| Return (a : A)
| Raised (e : exception).

Arguments Return {A} a.
Arguments Raised {A} e.

Definition bind {A B : Type} (m : py A) (k : A -> py B) : py B :=
  match m with
  | Return a => k a
  | Raised e => Raised e
  end.

Declare Scope b64_scope.
Delimit Scope b64_scope with b64.
Notation "x <- m ;; k" := (bind m (fun x => k))
  (at level 61, m at next level, right associativity) : b64_scope.
Local Open Scope b64_scope.

(** An [int] as the value the float operations round: an unnormalised
    floating-point number with exponent 0. *)
Definition exact (z : Z) : spec_float :=
  match z with
  | Z0 => S754_zero false
  | Zpos p => S754_finite false p 0
  | Zneg p => S754_finite true p 0
  end.

(** The conversion of an [int] operand of a float operation
    ([PyLong_AsDouble]): the nearest binary64 value, ties to even;
    [OverflowError] when that is beyond the largest finite one. *)
Definition to_float (z : Z) : py float :=
  let x := SF2Prim (binary_normalize prec emax z 0 false) in
  if is_finite x then Return x else Raised OverflowError.

(** [a / b] on two ints: the quotient rounded once to binary64,
    [ZeroDivisionError] on [b = 0], [OverflowError] when the quotient is
    beyond the largest finite value. *)
Definition truediv (a b : Z) : py float :=
  if (b =? 0)%Z then Raised (Exn ZeroDivisionError)
  else
    let q := SF2Prim (SFdiv prec emax (exact a) (exact b)) in
    if is_finite q then Return q else Raised OverflowError.

(** [int(x)] on a float: [ValueError] on NaN, [OverflowError] on an
    infinity, otherwise the integer part of [x] (truncation toward zero). *)
Definition int (x : float) : py Z :=
  match Prim2SF x with
  | S754_nan => Raised ValueError
  | S754_infinity _ => Raised OverflowError
  | S754_zero _ => Return 0%Z
  | S754_finite s m e => Return (cond_Zopp s (Z.shiftl (Zpos m) e))
  end.

(** [math.pi] *)
Definition math_pi : float := 0x1.921fb54442d18p+1%float.

Section Libm.

(** The C library's [sin] on doubles. *)
Variable libm_sin : float -> float.

(** [math.sin(x)] (CPython's [math_1] wrapper): [ValueError] when the C
    function turns a number into NaN or a finite number into an infinity. *)
Definition math_sin (x : float) : py float :=
  let r := libm_sin x in
  if is_nan r && negb (is_nan x) then Raised ValueError
  else if is_infinity r && is_finite x then Raised ValueError
  else Return r.

(** [num_samples = int(sample_rate * duration)] *)
Definition num_samples (sample_rate : Z) (duration : float) : py Z :=
  r <- to_float sample_rate ;;
  int (r * duration).

(** Body of the [for] loop, for one index [i]:
    [t = i / sample_rate],
    [sample = amplitude * math.sin(2 * math.pi * frequency * t)],
    [sample_int = int(sample * 32767)]. *)
Definition sample_int (frequency : float) (sample_rate : Z)
    (amplitude : float) (i : Z) : py Z :=
  t <- truediv i sample_rate ;;
  s <- math_sin (2 * math_pi * frequency * t) ;;
  let sample := (amplitude * s)%float in
  int (sample * 32767).

(** The [for] loop over the remaining indices, with the list built so far. *)
Fixpoint for_samples (frequency : float) (sample_rate : Z)
    (amplitude : float) (indices : list Z) (samples : list Z)
    : py (list Z) :=
  match indices with
  | [] => Return samples
  | i :: rest =>
      s <- sample_int frequency sample_rate amplitude i ;;
      for_samples frequency sample_rate amplitude rest (samples ++ [s])
  end.

(** Lines 12-23: the sample list handed to the WAV writer. *)
Definition generate_samples (frequency duration : float) (sample_rate : Z)
    (amplitude : float) : py (list Z) :=
  n <- num_samples sample_rate duration ;;
  for_samples frequency sample_rate amplitude (Py.range n) [].

(** The four arguments of [generate_sine_wave], the three real-valued ones
    as floats. *)
Record ToneSpec : Type := mkTone {
  frequency   : float;
  duration    : float;
  sample_rate : Z;
  amplitude   : float
}.

Definition synthesize (spec : ToneSpec) : py (list Z) :=
  generate_samples (frequency spec) (duration spec) (sample_rate spec)
    (amplitude spec).

(** [generate_sine_wave(frequency, duration, sample_rate, amplitude)] in a
    working directory [fs]: the synthesis, then the [with wave.open] block
    on the samples.  An exception of the synthesis escapes before the file
    is opened. *)
Definition generate_sine_wave (frequency_text : string)
    (frequency duration : float) (sample_rate : Z) (amplitude : float)
    (fs : filesystem) : py string * filesystem :=
  match generate_samples frequency duration sample_rate amplitude with
  | Raised e => (Raised e, fs)
  | Return samples =>
      let filename := ("tone_" ++ frequency_text ++ "hz.wav")%string in
      match encode_wav samples sample_rate with
      | (Ok _, data) => (Return filename, store filename data fs)
      | (Raise e, data) => (Raised (Exn e), store filename data fs)
      end
  end.

End Libm.

(** A valid ToneSpec: frequency > 0, duration > 0, a positive integer
    sample rate, and 0 < amplitude <= 1, the comparisons being those of
    binary64. *)
Definition valid (spec : ToneSpec) : Prop :=
  (0 <? frequency spec)%float = true /\ (0 <? duration spec)%float = true /\
  (0 < sample_rate spec)%Z /\
  (0 <? amplitude spec)%float = true /\ (amplitude spec <=? 1)%float = true.

(** What is assumed of the C library's sine: a result is NaN or lies in
    [-1, 1], and the sine of a zero is a zero. *)
Record libm_sine (libm_sin : float -> float) : Prop := {
  sin_range : forall x,
    (abs (libm_sin x) <=? 1)%float = true \/ is_nan (libm_sin x) = true;
  sin_zero : forall x, is_zero x = true -> is_zero (libm_sin x) = true
}.

(** The value of a float as a real number; 0 for the infinities and NaN. *)
Definition bpow (e : Z) : R := powerRZ 2 e.

Definition F2R (m e : Z) : R := (IZR m * bpow e)%R.

Definition B2R (x : float) : R :=
  match Prim2SF x with
  | S754_finite s m e => F2R (cond_Zopp s (Zpos m)) e
  | _ => 0%R
  end.

(** [x] is zero or finite, of magnitude at most [B]. *)
Definition magnitude_le (x : spec_float) (B : R) : Prop :=
  match x with
  | S754_zero _ => (0 <= B)%R
  | S754_finite _ m e => (F2R (Zpos m) e <= B)%R
  | _ => False
  end.

Definition finite_le (x : float) (B : R) : Prop :=
  magnitude_le (Prim2SF x) B.

(** A sine on binary64 with the two properties above, to run the model on
    concrete tones: the argument less the nearest multiple of 2 pi, in the
    Taylor polynomial of degree 23, kept within [-1, 1]. *)
Definition clamp1 (y : float) : float :=
  if (y <? -1)%float then (-1)%float
  else if (1 <? y)%float then 1%float
  else y.

Definition nearest_turn (x : float) : float :=
  let half := if (x <? 0)%float then (-0.5)%float else 0.5%float in
  match int (x / (2 * math_pi) + half) with
  | Return k =>
      match to_float k with
      | Return r => r
      | Raised _ => 0%float
      end
  | Raised _ => 0%float
  end.

Definition taylor_sin (x : float) : float :=
  if is_zero x then x
  else if negb (is_finite x) then nan
  else
    let y := (x - nearest_turn x * (2 * math_pi))%float in
    let y2 := (y * y)%float in
    let p :=
      (y * (1 - y2 / 6 * (1 - y2 / 20 * (1 - y2 / 42 * (1 - y2 / 72
         * (1 - y2 / 110 * (1 - y2 / 156 * (1 - y2 / 210 * (1 - y2 / 272
         * (1 - y2 / 342 * (1 - y2 / 420 * (1 - y2 / 506)))))))))))
      )%float in
    clamp1 p.

(** ** Tones used as concrete inputs *)

(** 1 Hz for 0.29 s at 100 samples per second: the binary64 product
    [100 * 0.29] is 28.999999999999996. *)
Definition tone_029 : ToneSpec :=
  mkTone 1 0x1.28f5c28f5c28fp-2 100 0.5.

(** The samples of [tone_029] ([math.sin] gives them too). *)
Definition tone_029_samples : list Z :=
  [0; 1028; 2053; 3069; 4074; 5062; 6031; 6975; 7892; 8778; 9629; 10443;
   11215; 11943; 12623; 13254; 13833; 14356; 14824; 15232; 15581; 15868;
   16093; 16254; 16351; 16383; 16351; 16254]%Z.

(** 1 Hz for one second at 4 samples per second. *)
Definition tone_unit (amplitude : float) : ToneSpec :=
  mkTone 1 1 4 amplitude.

End B64.

(** * [play_tone] over the binary64 synthesis *)

Module B64Script.

(** A Python float as a program holds it: its value, and the text [str]
    gives for it. *)
Record number : Type := mkNumber {
  str : string;
  val : float
}.

(** An exception of the synthesis as an exception of a script. *)
Definition script_error (e : B64.exception) : error :=
  match e with
  | B64.ValueError => ValueError
  | B64.OverflowError => OverflowError
  | B64.Exn e => Lib e
  end.

Section Libm.

Variable libm_sin : float -> float.

(** A call of [generate_sine_wave] as a statement of a script. *)
Definition call_generate_sine_wave (frequency : number) (duration : float)
    (sample_rate : Z) (amplitude : float) : P string :=
  fun w =>
    match B64.generate_sine_wave libm_sin (str frequency) (val frequency)
            duration sample_rate amplitude (files w) with
    | (B64.Return filename, fs) =>
        (Done filename, mkWorld fs (commands w) (sleeps w))
    | (B64.Raised e, fs) =>
        (Failed (script_error e), mkWorld fs (commands w) (sleeps w))
    end.

(** [play_tone(frequency, duration)] (lines 38-56), as [play_tone] above,
    with the default sample rate 44100 and amplitude 0.3. *)
Definition play_tone (os : nat -> run_outcome) (frequency : number)
    (duration : float) : P unit :=
  pbind
    (call_generate_sine_wave frequency duration 44100 0x1.3333333333333p-2)
    (fun filename =>
       try_finally
         (try_except (Os.subprocess_run os ["afplay"%string; filename])
            is_CalledProcessError (pret tt))
         (pbind (Os.path_exists filename)
            (fun present =>
               if present then Os.remove filename else pret tt))).

End Libm.

End B64Script.

(** * Properties of the model *)

(** A three-sample buffer at 44100 Hz, byte for byte. *)
Example encode_wav_three :
  encode_wav [0; 1; -2]%Z 44100
  = (Ok tt,
     ["R"; "I"; "F"; "F"; "*"; x00; x00; x00; "W"; "A"; "V"; "E";
      "f"; "m"; "t"; " "; x10; x00; x00; x00; x01; x00; x01; x00;
      "D"; xac; x00; x00; x88; "X"; x01; x00; x02; x00; x10; x00;
      "d"; "a"; "t"; "a"; x06; x00; x00; x00;
      x00; x00; x01; x00; xfe; xff]%byte).
Proof. vm_compute. reflexivity. Qed.

(** ** Facts about [int], [range] and the synthesis loop *)

Section IntFacts.

Local Open Scope R_scope.

Lemma int_IZR (z : Z) : Py.int (IZR z) = z.
Proof.
  unfold Py.int. destruct (Rle_dec 0 (IZR z)).
  - apply ZfloorZ.
  - unfold Zceil. rewrite <- opp_IZR, ZfloorZ. lia.
Qed.

Lemma int_nonneg_bounds (x : R) :
  0 <= x -> IZR (Py.int x) <= x < IZR (Py.int x) + 1.
Proof.
  intros Hx. unfold Py.int. destruct (Rle_dec 0 x); [|contradiction].
  apply Zfloor_bound.
Qed.

Lemma int_neg_bounds (x : R) :
  x < 0 -> IZR (Py.int x) - 1 < x <= IZR (Py.int x).
Proof.
  intros Hx. unfold Py.int. destruct (Rle_dec 0 x); [lra|].
  apply Zceil_bound.
Qed.

(** [int] is determined by the unit interval its argument falls in. *)
Lemma int_eq_nonneg (x : R) (z : Z) :
  0 <= x -> IZR z <= x < IZR z + 1 -> Py.int x = z.
Proof.
  intros Hx Hz. unfold Py.int. destruct (Rle_dec 0 x); [|contradiction].
  now apply Zfloor_eq.
Qed.

Lemma int_eq_neg (x : R) (z : Z) :
  x < 0 -> IZR z - 1 < x <= IZR z -> Py.int x = z.
Proof.
  intros Hx Hz. unfold Py.int. destruct (Rle_dec 0 x); [lra|].
  now apply Zceil_eq.
Qed.

(** Truncation is odd. *)
Lemma int_opp (x : R) : Py.int (- x) = (- Py.int x)%Z.
Proof.
  destruct (Rtotal_order x 0) as [Hneg | [Hz | Hpos]].
  - apply int_eq_nonneg; [lra|].
    pose proof (int_neg_bounds Hneg). rewrite opp_IZR. lra.
  - subst x. rewrite Ropp_0. change 0 with (IZR 0). rewrite int_IZR. reflexivity.
  - apply int_eq_neg; [lra|].
    assert (0 <= x) as H0 by lra.
    pose proof (int_nonneg_bounds H0). rewrite opp_IZR. lra.
Qed.

(** Truncation never leaves a symmetric integer interval. *)
Lemma int_abs_le (x : R) (n : Z) :
  - IZR n <= x <= IZR n -> (- n <= Py.int x <= n)%Z.
Proof.
  intros [Hlo Hhi].
  destruct (Rlt_le_dec x 0) as [Hneg | Hpos].
  - pose proof (int_neg_bounds Hneg) as [B1 B2].
    split.
    + apply le_IZR. rewrite opp_IZR. lra.
    + apply Z.lt_succ_r. apply lt_IZR. rewrite succ_IZR.
      assert (0 <= IZR n) by lra. lra.
  - pose proof (int_nonneg_bounds Hpos) as [B1 B2].
    split.
    + apply Z.lt_succ_r. apply lt_IZR. rewrite succ_IZR, opp_IZR.
      assert (0 <= IZR n) by lra. lra.
    + apply le_IZR. lra.
Qed.

End IntFacts.

Section LoopFacts.

Variables (frequency : R) (sample_rate : Z) (amplitude : R).

Lemma sample_int_ok (i : Z) :
  sample_rate <> 0%Z ->
  sample_int frequency sample_rate amplitude i
  = Ok (sample_value frequency sample_rate amplitude i).
Proof.
  intros Hsr. unfold sample_int, Py.truediv.
  destruct (Z.eqb_spec sample_rate 0); [contradiction|]. reflexivity.
Qed.

Lemma for_samples_ok (indices acc : list Z) :
  sample_rate <> 0%Z ->
  for_samples frequency sample_rate amplitude indices acc
  = Ok (acc ++ map (sample_value frequency sample_rate amplitude) indices).
Proof.
  intros Hsr. revert acc.
  induction indices as [|i rest IH]; intros acc; simpl.
  - now rewrite app_nil_r.
  - rewrite sample_int_ok by assumption. simpl.
    rewrite IH, <- app_assoc. reflexivity.
Qed.

Lemma range_length (n : Z) : List.length (Py.range n) = Z.to_nat n.
Proof. unfold Py.range. now rewrite length_map, length_seq. Qed.

Lemma range_nth (n : Z) (k : nat) :
  (k < Z.to_nat n)%nat -> nth k (Py.range n) 0%Z = Z.of_nat k.
Proof.
  intros Hk. unfold Py.range.
  change 0%Z with (Z.of_nat 0). rewrite map_nth, seq_nth by assumption.
  reflexivity.
Qed.

Lemma num_samples_zero_rate (duration : R) : num_samples 0 duration = 0%Z.
Proof.
  unfold num_samples. rewrite Rmult_0_l. apply (int_IZR 0).
Qed.

(** The loop never raises: it divides by [sample_rate] only when there is
    at least one index, and then [sample_rate] is not zero. *)
Lemma generate_samples_ok (duration : R) :
  generate_samples frequency duration sample_rate amplitude
  = Ok (map (sample_value frequency sample_rate amplitude)
          (Py.range (num_samples sample_rate duration))).
Proof.
  unfold generate_samples.
  destruct (Z.eq_dec sample_rate 0) as [Hz | Hnz].
  - subst sample_rate. rewrite num_samples_zero_rate. reflexivity.
  - now rewrite for_samples_ok.
Qed.

End LoopFacts.

Lemma round_eq_up (x : R) (z : Z) :
  (IZR z - 1 / 2 < x < IZR z)%R -> round x = z.
Proof.
  intros [Hlo Hhi]. unfold round.
  assert (Zfloor x = (z - 1)%Z) as ->.
  { apply Zfloor_eq. rewrite minus_IZR. lra. }
  rewrite minus_IZR.
  destruct (Rlt_dec (x - (IZR z - 1)) (1 / 2)); [lra|].
  destruct (Rlt_dec (1 / 2) (x - (IZR z - 1))); [lia|lra].
Qed.

(** ** The synthesis as a whole *)

Lemma synthesize_ok (spec : ToneSpec) :
  synthesize spec
  = Ok (map (sample_value (frequency spec) (sample_rate spec) (amplitude spec))
          (Py.range (num_samples (sample_rate spec) (duration spec)))).
Proof. unfold synthesize. apply generate_samples_ok. Qed.

(** ** The [wave] writer on the calls [generate_sine_wave] makes *)

(** Running a method on an explicit object: unfold the steps, then settle
    the integer tests it branches on. *)
Ltac wave_cbn :=
  cbn [wbind get modify lift ret raise file_write file_seek file_tell
     set_file set_nchannels set_sampwidth set_framerate set_nframes
     set_nframeswritten set_datawritten set_datalength set_headerwritten
     set_form_length_pos set_data_length_pos
     file nchannels sampwidth framerate nframes nframeswritten datawritten
     datalength headerwritten form_length_pos data_length_pos
     File.write File.seek File.tell File.content File.position
     negb orb andb bind fst snd].

Ltac decide_test :=
  match goal with
  | |- context [Z.eqb ?a ?b] =>
      first [ replace (Z.eqb a b) with true by (symmetry; apply Z.eqb_eq; lia)
            | replace (Z.eqb a b) with false by (symmetry; apply Z.eqb_neq; lia) ]
  | |- context [Z.ltb ?a ?b] =>
      first [ replace (Z.ltb a b) with true by (symmetry; apply Z.ltb_lt; lia)
            | replace (Z.ltb a b) with false by (symmetry; apply Z.ltb_ge; lia) ]
  | |- context [Z.leb ?a ?b] =>
      first [ replace (Z.leb a b) with true by (symmetry; apply Z.leb_le; lia)
            | replace (Z.leb a b) with false by (symmetry; apply Z.leb_gt; lia) ]
  end.

Ltac wave_run := wave_cbn; repeat (decide_test; wave_cbn).


Ltac list_cbn :=
  cbn [app firstn skipn List.length Nat.add Struct.le_bytes
       b_RIFF b_WAVE b_fmt b_data wav_header].

Section WaveFacts.

Local Open Scope Z_scope.

Lemma pack_h_ok (z : Z) : int16 z -> Struct.pack_h z = Ok (Struct.le_bytes 2 z).
Proof.
  unfold int16, Struct.pack_h. intros [Hlo Hhi].
  destruct (Z.leb_spec (-32768) z); [|lia].
  destruct (Z.leb_spec z 32767); [|lia]. reflexivity.
Qed.

Lemma pack_h_raises (z : Z) : ~ int16 z -> Struct.pack_h z = Raise StructError.
Proof.
  unfold int16, Struct.pack_h. intros Hz.
  destruct (Z.leb_spec (-32768) z); [|reflexivity].
  destruct (Z.leb_spec z 32767); [lia|reflexivity].
Qed.

Lemma pack_H_ok (z : Z) : 0 <= z < 65536 -> Struct.pack_H z = Ok (Struct.le_bytes 2 z).
Proof.
  unfold Struct.pack_H. intros [Hlo Hhi].
  destruct (Z.leb_spec 0 z); [|lia].
  destruct (Z.ltb_spec z 65536); [|lia]. reflexivity.
Qed.

Lemma pack_L_ok (z : Z) :
  0 <= z < 4294967296 -> Struct.pack_L z = Ok (Struct.le_bytes 4 z).
Proof.
  unfold Struct.pack_L. intros [Hlo Hhi].
  destruct (Z.leb_spec 0 z); [|lia].
  destruct (Z.ltb_spec z 4294967296); [|lia]. reflexivity.
Qed.

Lemma le_bytes_length (n : nat) (z : Z) : List.length (Struct.le_bytes n z) = n.
Proof. revert z. induction n as [|n IH]; intros z; simpl; [|rewrite IH]; reflexivity. Qed.

Lemma setters_ok (sr : Z) (A : Type) (k : W A) :
  0 < sr ->
  wbind (setnchannels 1) (fun _ => wbind (setsampwidth 2) (fun _ => wbind (setframerate sr) (fun _ => k))) initfp
  = k (configured sr).
Proof.
  intros Hsr. unfold setnchannels, setsampwidth, setframerate, initfp, configured.
  wave_run. reflexivity.
Qed.


Lemma write_header_ok (sr L : Z) :
  0 < sr -> 2 * sr < 4294967296 -> 0 <= L / (1 * 2) < 2147483630 ->
  _write_header L (configured sr)
  = (Ok tt,
     mkWave (File.mk (wav_header sr (L / (1 * 2) * 1 * 2)) 44) 1 2 sr
       (L / (1 * 2)) 0 0 (L / (1 * 2) * 1 * 2) true 4%nat 40%nat).
Proof.
  intros Hsr Hsr2 HL. unfold _write_header, floordiv, pack_header, configured, File.open_wb.
  wave_run.
  rewrite !pack_L_ok, !pack_H_ok by (unfold WAVE_FORMAT_PCM; lia).
  wave_cbn. unfold WAVE_FORMAT_PCM. list_cbn. reflexivity.
Qed.

Lemma writeframes_first (sr : Z) (frame : list byte) :
  0 < sr -> 2 * sr < 4294967296 -> List.length frame = 2%nat ->
  writeframes frame (configured sr) = (Ok tt, written sr 1 frame).
Proof.
  intros Hsr Hsr2 Hlen.
  unfold writeframes, writeframesraw, _ensure_header_written. rewrite Hlen.
  unfold configured. wave_run. fold (configured sr).
  rewrite write_header_ok by (try assumption; change (Z.of_nat 2 / (1 * 2)) with 1; lia).
  change (Z.of_nat 2 / (1 * 2)) with 1. unfold floordiv.
  wave_run. change (Z.of_nat 2 / (2 * 1)) with 1.
  wave_run. unfold written. rewrite Hlen.
  list_cbn. rewrite app_nil_r. repeat f_equal; lia.
Qed.

Lemma writeframes_next (sr nf : Z) (data frame : list byte) :
  0 < sr -> 2 * sr < 4294967296 -> List.length frame = 2%nat ->
  36 + Z.of_nat (List.length data) + 2 < 4294967296 ->
  writeframes frame (written sr nf data)
  = (Ok tt, written sr (nf + 1) (data ++ frame)).
Proof.
  intros Hsr Hsr2 Hlen Hsize.
  unfold writeframes, writeframesraw, _ensure_header_written, _patchheader, floordiv.
  rewrite Hlen. unfold written. change (Z.of_nat 2) with 2.
  wave_run.
  rewrite !pack_L_ok by lia.
  wave_cbn. list_cbn.
  rewrite length_app, Hlen, Nat2Z.inj_add. change (Z.of_nat 2) with 2.
  rewrite firstn_all, skipn_all2 by lia. list_cbn.
  change (2 / (2 * 1)) with 1. rewrite app_nil_r.
  repeat f_equal; lia.
Qed.

Lemma close_written (sr nf : Z) (data : list byte) :
  close (written sr nf data) = (Ok tt, written sr nf data).
Proof.
  unfold close, _ensure_header_written, written.
  wave_run. reflexivity.
Qed.

Lemma close_configured (sr : Z) :
  0 < sr -> 2 * sr < 4294967296 ->
  close (configured sr)
  = (Ok tt, mkWave (File.mk (wav_header sr 0) 44) 1 2 sr 0 0 0 0 true 4%nat 40%nat).
Proof.
  intros Hsr Hsr2. unfold close, _ensure_header_written, configured.
  wave_run. fold (configured sr).
  rewrite write_header_ok by (try assumption; change (0 / (1 * 2)) with 0; lia).
  change (0 / (1 * 2)) with 0. change (0 * 1 * 2) with 0.
  wave_run. reflexivity.
Qed.

Lemma frames_of_length (samples : list Z) :
  List.length (frames_of samples) = (2 * List.length samples)%nat.
Proof.
  induction samples as [|s rest IH]; simpl; [reflexivity|].
  rewrite IH. lia.
Qed.

Lemma for_frames_written (samples : list Z) :
  forall (sr nf : Z) (data : list byte),
  0 < sr -> 2 * sr < 4294967296 ->
  Forall int16 samples ->
  36 + Z.of_nat (List.length data) + 2 * Z.of_nat (List.length samples) < 4294967296 ->
  for_frames samples (written sr nf data)
  = (Ok tt, written sr (nf + Z.of_nat (List.length samples)) (data ++ frames_of samples)).
Proof.
  induction samples as [|s rest IH]; intros sr nf data Hsr Hsr2 Hall Hsize.
  - simpl. rewrite app_nil_r, Z.add_0_r. reflexivity.
  - inversion Hall as [|? ? Hs Hrest]; subst.
    cbn [for_frames]. cbn [wbind lift]. rewrite pack_h_ok by assumption.
    cbn [List.length] in Hsize.
    rewrite writeframes_next; try assumption; try apply le_bytes_length; try lia.
    rewrite IH; try assumption.
    + cbn [frames_of flat_map List.length]. rewrite <- app_assoc.
      f_equal. f_equal. lia.
    + rewrite length_app, le_bytes_length. lia.
Qed.


(** The whole [with] statement, on samples that fit 16 bits and sizes that
    fit the 32-bit fields of the header. *)
Lemma encode_wav_ok (samples : list Z) (sr : Z) :
  0 < sr -> 2 * sr < 4294967296 ->
  Forall int16 samples ->
  36 + 2 * Z.of_nat (List.length samples) < 4294967296 ->
  encode_wav samples sr
  = (Ok tt,
     wav_header sr (2 * Z.of_nat (List.length samples)) ++ frames_of samples).
Proof.
  intros Hsr Hsr2 Hall Hsize.
  unfold encode_wav, with_open, write_wav.
  rewrite setters_ok by assumption.
  destruct samples as [|s rest].
  - cbn [for_frames ret]. rewrite close_configured by assumption.
    cbn [file File.content frames_of flat_map List.length].
    rewrite app_nil_r. reflexivity.
  - inversion Hall as [|? ? Hs Hrest]; subst.
    cbn [List.length] in Hsize.
    cbn [for_frames]. cbn [wbind lift]. rewrite pack_h_ok by assumption.
    rewrite writeframes_first by (try assumption; apply le_bytes_length).
    rewrite for_frames_written; try assumption.
    + rewrite close_written. unfold written.
      cbn [file File.content frames_of flat_map List.length].
      rewrite length_app, le_bytes_length, frames_of_length.
      f_equal. f_equal. f_equal. lia.
    + rewrite le_bytes_length. lia.
Qed.

End WaveFacts.

(** ** When the encoder raises *)

Section EncodeFailures.

Local Open Scope Z_scope.

Lemma pack_L_raises (z : Z) :
  ~ 0 <= z < 4294967296 -> Struct.pack_L z = Raise StructError.
Proof.
  unfold Struct.pack_L. intros Hz.
  destruct (Z.leb_spec 0 z); [|reflexivity].
  destruct (Z.ltb_spec z 4294967296); [lia|reflexivity].
Qed.

(** A sample outside 16 bits stops the loop; the frames before it stay. *)
Lemma for_frames_bad_sample (pre : list Z) :
  forall (sr nf : Z) (data : list byte) (s : Z) (post : list Z),
  0 < sr -> 2 * sr < 4294967296 ->
  Forall int16 pre -> ~ int16 s ->
  36 + Z.of_nat (List.length data) + 2 * Z.of_nat (List.length pre) < 4294967296 ->
  for_frames (pre ++ s :: post) (written sr nf data)
  = (Raise StructError,
     written sr (nf + Z.of_nat (List.length pre)) (data ++ frames_of pre)).
Proof.
  induction pre as [|p pre IH]; intros sr nf data s post Hsr Hsr2 Hall Hs Hsize.
  - cbn [app for_frames]. cbn [wbind lift]. rewrite pack_h_raises by assumption.
    cbn [frames_of flat_map List.length]. rewrite app_nil_r, Z.add_0_r. reflexivity.
  - inversion Hall as [|? ? Hp Hpre]; subst.
    cbn [List.length] in Hsize.
    cbn [app for_frames]. cbn [wbind lift]. rewrite pack_h_ok by assumption.
    rewrite writeframes_next; try assumption; try apply le_bytes_length; try lia.
    rewrite IH; try assumption.
    + cbn [frames_of flat_map List.length]. rewrite <- app_assoc.
      f_equal. f_equal. lia.
    + rewrite length_app, le_bytes_length. lia.
Qed.

Lemma encode_wav_bad_sample (pre : list Z) (s : Z) (post : list Z) (sr : Z) :
  0 < sr -> 2 * sr < 4294967296 ->
  Forall int16 pre -> ~ int16 s ->
  36 + 2 * Z.of_nat (List.length pre) < 4294967296 ->
  encode_wav (pre ++ s :: post) sr
  = (Raise StructError,
     wav_header sr (2 * Z.of_nat (List.length pre)) ++ frames_of pre).
Proof.
  intros Hsr Hsr2 Hall Hs Hsize.
  unfold encode_wav, with_open, write_wav.
  rewrite setters_ok by assumption.
  destruct pre as [|p pre].
  - cbn [app for_frames]. cbn [wbind lift]. rewrite pack_h_raises by assumption.
    rewrite close_configured by assumption.
    cbn [file File.content frames_of flat_map List.length].
    rewrite app_nil_r. reflexivity.
  - inversion Hall as [|? ? Hp Hpre]; subst.
    cbn [List.length] in Hsize.
    cbn [app for_frames]. cbn [wbind lift]. rewrite pack_h_ok by assumption.
    rewrite writeframes_first by (try assumption; apply le_bytes_length).
    rewrite for_frames_bad_sample; try assumption.
    + rewrite close_written. unfold written.
      cbn [file File.content frames_of flat_map List.length].
      rewrite length_app, le_bytes_length, frames_of_length.
      f_equal. f_equal. f_equal. lia.
    + rewrite le_bytes_length. lia.
Qed.


Lemma pack_header_raises (sr : Z) (w : Wave_write) :
  nchannels w = 1 -> sampwidth w = 2 -> framerate w = sr ->
  ~ 2 * sr < 4294967296 ->
  exists e, pack_header w = Raise e.
Proof.
  intros Hc Hw Hr Hsr. unfold pack_header. rewrite Hc, Hw, Hr.
  rewrite (@pack_L_raises (1 * sr * 2)) by lia.
  destruct (Struct.pack_L (36 + datalength w)); cbn [bind]; [|eauto].
  destruct (Struct.pack_L 16); cbn [bind]; [|eauto].
  destruct (Struct.pack_H WAVE_FORMAT_PCM); cbn [bind]; [|eauto].
  destruct (Struct.pack_H 1); cbn [bind]; [|eauto].
  destruct (Struct.pack_L sr); cbn [bind]; eauto.
Qed.

(** A sample rate whose byte rate does not fit 32 bits: the header cannot
    be packed, and the object stays without a header. *)
Lemma write_header_raises (sr L : Z) (w : Wave_write) :
  unwritten sr w -> ~ 2 * sr < 4294967296 ->
  exists e w', _write_header L w = (Raise e, w') /\ unwritten sr w'.
Proof.
  intros (Hc & Hw & Hr & Hh) Hsr.
  destruct w as [f nc sw fr nfr nfw dw dl hw flp dlp].
  cbn [nchannels sampwidth framerate headerwritten] in Hc, Hw, Hr, Hh. subst.
  unfold _write_header, floordiv, unwritten.
  destruct (Z.eqb_spec nfr 0) as [-> | Hnfr]; wave_run.
  - match goal with |- context [pack_header ?w] =>
      destruct (@pack_header_raises sr w eq_refl eq_refl eq_refl Hsr) as [e ->]
    end.
    eexists _, _. split; [reflexivity|]. cbn. auto.
  - match goal with |- context [pack_header ?w] =>
      destruct (@pack_header_raises sr w eq_refl eq_refl eq_refl Hsr) as [e ->]
    end.
    eexists _, _. split; [reflexivity|]. cbn. auto.
Qed.

Lemma close_raises (sr : Z) (w : Wave_write) :
  unwritten sr w -> 0 < sr -> ~ 2 * sr < 4294967296 ->
  exists e w', close w = (Raise e, w').
Proof.
  intros Hu Hpos Hsr.
  destruct (write_header_raises 0 Hu Hsr) as (e & w' & Hwh & _).
  destruct Hu as (Hc & Hw & Hr & Hh).
  unfold close, _ensure_header_written. cbn [wbind get].
  rewrite Hh, Hc, Hw, Hr. wave_run. rewrite Hwh. eauto.
Qed.

Lemma writeframes_raises (sr : Z) (frame : list byte) (w : Wave_write) :
  unwritten sr w -> 0 < sr -> ~ 2 * sr < 4294967296 ->
  exists e w', writeframes frame w = (Raise e, w') /\ unwritten sr w'.
Proof.
  intros Hu Hpos Hsr.
  destruct (write_header_raises (Z.of_nat (List.length frame)) Hu Hsr)
    as (e & w' & Hwh & Hu').
  destruct Hu as (Hc & Hw & Hr & Hh).
  unfold writeframes, writeframesraw, _ensure_header_written. cbn [wbind get].
  rewrite Hh, Hc, Hw, Hr. wave_run. rewrite Hwh. eauto.
Qed.

Lemma for_frames_unwritten (sr : Z) (samples : list Z) (w : Wave_write) :
  unwritten sr w -> 0 < sr -> ~ 2 * sr < 4294967296 ->
  exists r w', for_frames samples w = (r, w') /\ unwritten sr w'.
Proof.
  intros Hu Hpos Hsr. destruct samples as [|s rest].
  - cbn. eauto.
  - cbn [for_frames]. cbn [wbind lift].
    destruct (Struct.pack_h s) as [frame|e]; [|eauto].
    destruct (writeframes_raises frame Hu Hpos Hsr) as (e & w' & -> & Hu').
    eauto.
Qed.

(** With such a sample rate the [with] statement always ends in an
    exception. *)
Lemma encode_wav_rate_too_large (samples : list Z) (sr : Z) :
  0 < sr -> ~ 2 * sr < 4294967296 ->
  exists e, fst (encode_wav samples sr) = Raise e.
Proof.
  intros Hpos Hsr. unfold encode_wav, with_open, write_wav.
  rewrite setters_ok by assumption.
  assert (unwritten sr (configured sr)) as Hu by (repeat split).
  destruct (for_frames_unwritten samples Hu Hpos Hsr) as (r & w' & -> & Hu').
  destruct (close_raises Hu' Hpos Hsr) as (e & w'' & ->).
  destruct r; cbn; eauto.
Qed.


(** A frame that takes the data past what the 32-bit length fields hold:
    patching the header raises. *)
Lemma writeframes_overflow (sr nf : Z) (data frame : list byte) :
  List.length frame = 2%nat ->
  ~ 36 + Z.of_nat (List.length data) + 2 < 4294967296 ->
  exists w', writeframes frame (written sr nf data) = (Raise StructError, w').
Proof.
  intros Hlen Hsize.
  unfold writeframes, writeframesraw, _ensure_header_written, _patchheader, floordiv.
  rewrite Hlen. unfold written. change (Z.of_nat 2) with 2.
  wave_run.
  rewrite pack_L_raises by lia. eauto.
Qed.

Lemma for_frames_too_long (rest : list Z) :
  forall (sr nf : Z) (data : list byte),
  0 < sr -> 2 * sr < 4294967296 ->
  36 + Z.of_nat (List.length data) < 4294967296 ->
  ~ 36 + Z.of_nat (List.length data) + 2 * Z.of_nat (List.length rest)
      < 4294967296 ->
  exists e w', for_frames rest (written sr nf data) = (Raise e, w').
Proof.
  induction rest as [|s rest IH]; intros sr nf data Hsr Hsr2 Hdata Hsize.
  - cbn [List.length] in Hsize. lia.
  - cbn [List.length] in Hsize.
    cbn [for_frames]. cbn [wbind lift].
    destruct (Struct.pack_h s) as [frame|e] eqn:Hpack; [|eauto].
    assert (List.length frame = 2%nat) as Hlen.
    { unfold Struct.pack_h in Hpack.
      destruct (_ && _); [|discriminate].
      injection Hpack as <-. reflexivity. }
    destruct (Z_lt_dec (36 + Z.of_nat (List.length data) + 2) 4294967296)
      as [Hfit | Hover].
    + rewrite writeframes_next by assumption.
      apply IH; try assumption.
      * rewrite length_app, Hlen. lia.
      * rewrite length_app, Hlen. lia.
    + destruct (@writeframes_overflow sr nf data frame Hlen Hover) as (w' & ->).
      eauto.
Qed.

Lemma encode_wav_too_long (samples : list Z) (sr : Z) :
  0 < sr -> 2 * sr < 4294967296 ->
  ~ 36 + 2 * Z.of_nat (List.length samples) < 4294967296 ->
  exists e, fst (encode_wav samples sr) = Raise e.
Proof.
  intros Hsr Hsr2 Hsize. unfold encode_wav, with_open, write_wav.
  rewrite setters_ok by assumption.
  assert (forall (e : exn) (w : Wave_write),
            exists e', fst (let (r, w') :=
                              match close w with
                              | (Ok _, w') => (@Raise unit e, w')
                              | (Raise e', w') => (Raise e', w')
                              end in (r, File.content (file w'))) = Raise e')
    as Hclose.
  { intros e w. destruct (close w) as [[?|e'] w']; cbn; eauto. }
  destruct samples as [|s rest]; [cbn [List.length] in Hsize; lia|].
  cbn [List.length] in Hsize.
  cbn [for_frames]. cbn [wbind lift].
  destruct (Struct.pack_h s) as [frame|e] eqn:Hpack; [|apply Hclose].
  assert (List.length frame = 2%nat) as Hlen.
  { unfold Struct.pack_h in Hpack.
    destruct (_ && _); [|discriminate].
    injection Hpack as <-. reflexivity. }
  rewrite writeframes_first by assumption.
  destruct (@for_frames_too_long rest sr 1 frame) as (e & w' & ->);
    try assumption; try (rewrite Hlen; lia).
  apply Hclose.
Qed.

(** When the [with] statement ends without an exception, the sample rate
    and the data length fit the header. *)
Lemma encode_wav_ok_sizes (samples : list Z) (sr : Z) :
  0 < sr -> fst (encode_wav samples sr) = Ok tt ->
  2 * sr < 4294967296 /\
  36 + 2 * Z.of_nat (List.length samples) < 4294967296.
Proof.
  intros Hsr Hok.
  destruct (Z_lt_dec (2 * sr) 4294967296) as [Hsr2 | Hbig].
  - split; [assumption|].
    destruct (Z_lt_dec (36 + 2 * Z.of_nat (List.length samples)) 4294967296)
      as [|Hlong]; [assumption|].
    destruct (encode_wav_too_long samples Hsr Hsr2 Hlong) as [e He].
    congruence.
  - destruct (encode_wav_rate_too_large samples Hsr Hbig) as [e He].
    congruence.
Qed.

End EncodeFailures.

(** ** Reading back what [struct.pack] wrote *)

Section UnpackFacts.

Local Open Scope Z_scope.

Lemma Z_of_byte_of_Z (z : Z) : Struct.Z_of_byte (Struct.byte_of_Z z) = z mod 256.
Proof.
  unfold Struct.Z_of_byte, Struct.byte_of_Z.
  assert (0 <= z mod 256 < 256) as Hm by (apply Z.mod_pos_bound; lia).
  destruct (Byte.of_N (Z.to_N (z mod 256))) as [b|] eqn:Hb.
  - apply Byte.to_of_N in Hb. rewrite Hb. apply Z2N.id. lia.
  - apply Byte.of_N_None_iff in Hb. lia.
Qed.

Lemma le_value_le_bytes (n : nat) (z : Z) :
  Struct.le_value (Struct.le_bytes n z) = z mod 256 ^ Z.of_nat n.
Proof.
  revert z. induction n as [|n IH]; intros z.
  - simpl. now rewrite Z.mod_1_r.
  - cbn [Struct.le_bytes Struct.le_value]. rewrite IH, Z_of_byte_of_Z.
    rewrite Nat2Z.inj_succ, Z.pow_succ_r by lia.
    rewrite Z.rem_mul_r by lia. reflexivity.
Qed.

Lemma unpack_unsigned_le_bytes (n : nat) (z : Z) :
  0 <= z < 256 ^ Z.of_nat n ->
  Struct.unpack_unsigned (Struct.le_bytes n z) = z.
Proof.
  intros Hz. unfold Struct.unpack_unsigned.
  rewrite le_value_le_bytes. now apply Z.mod_small.
Qed.

Lemma unpack_h_le_bytes (z : Z) :
  int16 z -> Struct.unpack_h (Struct.le_bytes 2 z) = z.
Proof.
  unfold int16, Struct.unpack_h. intros Hz.
  rewrite le_value_le_bytes. change (256 ^ Z.of_nat 2) with 65536.
  destruct (Z.ltb_spec (z mod 65536) 32768) as [Hlt | Hge].
  - assert (0 <= z) as Hnn.
    { destruct (Z_lt_le_dec z 0) as [Hneg|]; [|assumption].
      assert (z mod 65536 = z + 65536) as E
        by (symmetry; apply Z.mod_unique with (q := -1); lia).
      lia. }
    apply Z.mod_small. lia.
  - assert (z < 0) as Hneg.
    { destruct (Z_lt_le_dec z 0) as [|Hnn]; [assumption|].
      rewrite Z.mod_small in Hge by lia. lia. }
    assert (z mod 65536 = z + 65536) as E
      by (symmetry; apply Z.mod_unique with (q := -1); lia).
    lia.
Qed.

Lemma unpack_frames_cons (lo hi : byte) (rest : list byte) :
  unpack_frames (lo :: hi :: rest)
  = Struct.unpack_h [lo; hi] :: unpack_frames rest.
Proof. reflexivity. Qed.

Lemma unpack_frames_of (samples : list Z) :
  Forall int16 samples -> unpack_frames (frames_of samples) = samples.
Proof.
  induction 1 as [|s rest Hs Hrest IH]; [reflexivity|].
  unfold frames_of in *. cbn [flat_map].
  change (Struct.le_bytes 2 s)
    with [Struct.byte_of_Z s; Struct.byte_of_Z (s / 256)] at 1.
  cbn [app]. rewrite unpack_frames_cons, IH. f_equal.
  apply (unpack_h_le_bytes Hs).
Qed.


Lemma unpack_2_bytes (z : Z) :
  0 <= z < 65536 ->
  Struct.unpack_unsigned [Struct.byte_of_Z z; Struct.byte_of_Z (z / 256)] = z.
Proof. exact (@unpack_unsigned_le_bytes 2 z). Qed.

Lemma unpack_4_bytes (z : Z) :
  0 <= z < 4294967296 ->
  Struct.unpack_unsigned
    [Struct.byte_of_Z z; Struct.byte_of_Z (z / 256);
     Struct.byte_of_Z (z / 256 / 256); Struct.byte_of_Z (z / 256 / 256 / 256)]
  = z.
Proof. exact (@unpack_unsigned_le_bytes 4 z). Qed.

Lemma bytes_eqb_refl (a : list byte) : bytes_eqb a a = true.
Proof.
  induction a as [|x a IH]; [reflexivity|].
  cbn [bytes_eqb]. rewrite IH, Byte.byte_dec_lb; reflexivity.
Qed.

(** The reader recovers rate, format and samples from a header followed by
    the frames of a 16-bit buffer. *)
Lemma decode_wav_header_frames (sr : Z) (samples : list Z) :
  0 <= sr < 4294967296 ->
  Forall int16 samples ->
  36 + 2 * Z.of_nat (List.length samples) < 4294967296 ->
  decode_wav (wav_header sr (2 * Z.of_nat (List.length samples))
                ++ frames_of samples)
  = Some (mkWav 1 sr 16 samples).
Proof.
  intros Hsr Hall Hsize.
  assert (2 * Z.of_nat (List.length samples)
          = Z.of_nat (List.length (frames_of samples))) as Hlen
    by (rewrite frames_of_length; lia).
  rewrite Hlen in *.
  unfold decode_wav, slice, WAVE_FORMAT_PCM. list_cbn.
  rewrite !bytes_eqb_refl.
  rewrite !unpack_4_bytes, !unpack_2_bytes by lia.
  rewrite Nat2Z.id, firstn_all. change (2 * 8) with 16.
  rewrite !Z.eqb_refl. cbn [andb].
  rewrite (unpack_frames_of Hall). reflexivity.
Qed.

End UnpackFacts.

(** ** The values of the samples *)

Section SampleFacts.

Local Open Scope R_scope.

(** With [|amplitude| <= 1] the scaled sine stays within [32767] of zero,
    and so does its truncation. *)
Lemma sample_value_bound (frequency : R) (sample_rate : Z) (amplitude : R)
    (i : Z) :
  -1 <= amplitude <= 1 ->
  (-32767 <= sample_value frequency sample_rate amplitude i <= 32767)%Z.
Proof.
  intros Ha. unfold sample_value.
  apply (@int_abs_le _ 32767%Z).
  pose proof (SIN_bound (2 * PI * frequency * (IZR i / IZR sample_rate))) as Hs.
  set (s := sin _) in *.
  assert (-1 <= amplitude * s <= 1) by nra.
  lra.
Qed.

Lemma sample_value_int16 (frequency : R) (sample_rate : Z) (amplitude : R)
    (i : Z) :
  -1 <= amplitude <= 1 ->
  int16 (sample_value frequency sample_rate amplitude i).
Proof.
  intros Ha. pose proof (sample_value_bound frequency sample_rate i Ha).
  unfold int16. lia.
Qed.

(** The first sample is always zero. *)
Lemma sample_value_0 (frequency : R) (sample_rate : Z) (amplitude : R) :
  sample_value frequency sample_rate amplitude 0 = 0%Z.
Proof.
  unfold sample_value.
  replace (2 * PI * frequency * (0 / IZR sample_rate)) with 0
    by (unfold Rdiv; ring).
  rewrite sin_0, Rmult_0_r, Rmult_0_l. apply (int_IZR 0).
Qed.




(** The angle at index [i] when [4 * frequency * i] is [k] sample rates. *)
Lemma angle_quarters (frequency : R) (sample_rate : Z) (i : Z) (k : R) :
  4 * frequency * IZR i = k * IZR sample_rate -> IZR sample_rate <> 0 ->
  2 * PI * frequency * (IZR i / IZR sample_rate) = k * (PI / 2).
Proof.
  intros Hq Hsr.
  apply (Rmult_eq_reg_r (IZR sample_rate)); [|exact Hsr].
  replace (2 * PI * frequency * (IZR i / IZR sample_rate) * IZR sample_rate)
    with (PI / 2 * (4 * frequency * IZR i)) by (field; exact Hsr).
  rewrite Hq. ring.
Qed.

(** The sample at a quarter period, where the sine is one, and at three
    quarters, where it is minus one. *)
Lemma sample_value_quarter (frequency : R) (sample_rate : Z) (amplitude : R)
    (i : Z) :
  4 * frequency * IZR i = 1 * IZR sample_rate -> IZR sample_rate <> 0 ->
  sample_value frequency sample_rate amplitude i
  = Py.int (amplitude * 32767).
Proof.
  intros Hq Hsr. unfold sample_value.
  rewrite (angle_quarters _ _ Hq Hsr), Rmult_1_l, sin_PI2.
  f_equal. ring.
Qed.

Lemma sample_value_three_quarters (frequency : R) (sample_rate : Z)
    (amplitude : R) (i : Z) :
  4 * frequency * IZR i = 3 * IZR sample_rate -> IZR sample_rate <> 0 ->
  sample_value frequency sample_rate amplitude i
  = Py.int (- (amplitude * 32767)).
Proof.
  intros Hq Hsr. unfold sample_value.
  rewrite (angle_quarters _ _ Hq Hsr), sin_3PI2.
  f_equal. ring.
Qed.

End SampleFacts.

(** * Facts about binary64 arithmetic *)

Module F64.

Local Open Scope Z_scope.

Lemma bpow_gt_0 e : (0 < B64.bpow e)%R.
Proof. apply powerRZ_lt; lra. Qed.

Lemma bpow_add a b : B64.bpow (a + b) = (B64.bpow a * B64.bpow b)%R.
Proof. apply powerRZ_add; lra. Qed.

Lemma bpow_Z k : 0 <= k -> B64.bpow k = IZR (2 ^ k).
Proof.
intros Hk. unfold B64.bpow. rewrite <- (Z2Nat.id k) at 1 by exact Hk.
rewrite <- pow_powerRZ, pow_IZR, Z2Nat.id by exact Hk. reflexivity.
Qed.

Lemma bpow_le a b : a <= b -> (B64.bpow a <= B64.bpow b)%R.
Proof.
intros H. replace b with (a + (b - a)) by lia.
rewrite bpow_add, (@bpow_Z (b - a)) by lia.
assert (H1 : (1 <= IZR (2 ^ (b - a)))%R).
{ apply IZR_le. assert (0 < 2 ^ (b - a)) by (apply Z.pow_pos_nonneg; lia). lia. }
pose proof (bpow_gt_0 a) as H0.
rewrite <- (Rmult_1_r (B64.bpow a)) at 1.
apply Rmult_le_compat_l; lra.
Qed.

Lemma bpow_lt_inv a b : (B64.bpow a < B64.bpow b)%R -> a < b.
Proof.
intros H. destruct (Z_lt_le_dec a b) as [Hlt | Hle]; [exact Hlt |].
apply bpow_le in Hle. lra.
Qed.

Lemma F2R_shift m e k : 0 <= k -> B64.F2R (m * 2 ^ k) e = B64.F2R m (e + k).
Proof.
intros Hk. unfold B64.F2R. rewrite mult_IZR, <- bpow_Z by exact Hk.
rewrite (Z.add_comm e k), bpow_add. ring.
Qed.

Lemma F2R_le m1 m2 e : m1 <= m2 -> (B64.F2R m1 e <= B64.F2R m2 e)%R.
Proof.
intros H. unfold B64.F2R. apply Rmult_le_compat_r.
- left. apply bpow_gt_0.
- apply IZR_le. exact H.
Qed.

Lemma F2R_le_inv m1 m2 e : (B64.F2R m1 e <= B64.F2R m2 e)%R -> m1 <= m2.
Proof.
unfold B64.F2R. intros H. apply le_IZR.
apply Rmult_le_reg_r with (r := B64.bpow e); [apply bpow_gt_0 | exact H].
Qed.

Lemma digits2_size p : digits2_pos p = Pos.size p.
Proof. induction p; simpl; congruence. Qed.

Lemma digits_bounds p :
  2 ^ (Zpos (digits2_pos p) - 1) <= Zpos p < 2 ^ Zpos (digits2_pos p).
Proof.
rewrite digits2_size. split.
- pose proof (Pos.size_le p) as H.
  assert (H' : 2 ^ Zpos (Pos.size p) <= 2 * Zpos p).
  { rewrite <- Pos2Z.inj_pow. change (2 * Zpos p) with (Zpos p~0). exact H. }
  replace (Zpos (Pos.size p)) with (Zpos (Pos.size p) - 1 + 1) in H' by lia.
  rewrite Z.pow_add_r in H' by lia. lia.
- pose proof (Pos.size_gt p) as H.
  rewrite <- Pos2Z.inj_pow. exact H.
Qed.


Lemma iter_pos_nat (A : Type) (f : A -> A) (p : positive) (x : A) :
  iter_pos f p x = Nat.iter (Pos.to_nat p) f x.
Proof.
revert x. induction p as [p IH | p IH |]; intros x; simpl iter_pos.
- rewrite !IH, <- Nat.iter_add, <- Nat.iter_succ_r.
  f_equal. rewrite Pos2Nat.inj_xI. lia.
- rewrite !IH, <- Nat.iter_add.
  f_equal. rewrite Pos2Nat.inj_xO. lia.
- reflexivity.
Qed.

Lemma shr_1_spec m r s :
  0 <= m ->
  shr_1 (Build_shr_record m r s) = Build_shr_record (m / 2) (Z.odd m) (r || s).
Proof.
intros Hm. rewrite <- Z.div2_div.
destruct m as [| [p | p |] | p]; try reflexivity; lia.
Qed.

Lemma shr_n_spec (k : nat) (m : Z) :
  0 <= m ->
  let mrs := Nat.iter k shr_1 (Build_shr_record m false false) in
  shr_m mrs = m / 2 ^ Z.of_nat k /\
  ((shr_r mrs || shr_s mrs)%bool = true -> m mod 2 ^ Z.of_nat k <> 0).
Proof.
intros Hm. induction k as [| k IH].
- simpl. rewrite Z.div_1_r. split; [reflexivity | discriminate].
- cbv zeta in IH |- *. rewrite Nat.iter_succ.
  destruct (Nat.iter k shr_1 (Build_shr_record m false false)) as [mk rk sk].
  simpl in IH. destruct IH as [IHm IHr].
  assert (Hp : 0 < 2 ^ Z.of_nat k) by (apply Z.pow_pos_nonneg; lia).
  assert (Hk : 2 ^ Z.of_nat (S k) = 2 ^ Z.of_nat k * 2).
  { rewrite Nat2Z.inj_succ, Z.pow_succ_r by lia. ring. }
  assert (Hmk : 0 <= mk) by (rewrite IHm; apply Z.div_pos; lia).
  rewrite shr_1_spec by exact Hmk. cbn [shr_m shr_r shr_s]. split.
  + rewrite IHm, Hk, Z.div_div by lia. reflexivity.
  + intros Hrs Hmod. rewrite Hk in Hmod.
    apply Z.mod_divide in Hmod; [| lia]. destruct Hmod as [q Hq].
    assert (Hm0 : m mod 2 ^ Z.of_nat k = 0).
    { apply Z.mod_divide; [lia |]. exists (q * 2). lia. }
    assert (Hmk2 : mk = q * 2).
    { rewrite IHm. symmetry. apply Z.div_unique_exact; lia. }
    assert (Hodd : Z.odd mk = false).
    { rewrite Hmk2, Z.mul_comm, Z.odd_mul. reflexivity. }
    rewrite Hodd in Hrs. simpl in Hrs. apply IHr in Hrs. contradiction.
Qed.

Lemma shr_fexp_exact m e mrs e' :
  0 <= m ->
  shr_fexp prec emax m e loc_Exact = (mrs, e') ->
  let k := Z.max 0 (fexp prec emax (Zdigits2 m + e) - e) in
  e' = e + k /\ shr_m mrs = m / 2 ^ k /\
  ((shr_r mrs || shr_s mrs)%bool = true -> m mod 2 ^ k <> 0).
Proof.
intros Hm. unfold shr_fexp, shr. simpl shr_record_of_loc.
destruct (fexp prec emax (Zdigits2 m + e) - e) as [| p | p] eqn:Hn;
  intros H; inversion H; subst; clear H; cbv zeta.
- simpl. rewrite Z.div_1_r. repeat split; [lia | discriminate].
- rewrite iter_pos_nat.
  replace (Z.max 0 (Zpos p)) with (Z.of_nat (Pos.to_nat p))
    by (rewrite positive_nat_Z; lia).
  pose proof (@shr_n_spec (Pos.to_nat p) m Hm) as Hs. cbv zeta in Hs.
  destruct Hs as [Hs1 Hs2]. repeat split; try assumption.
  rewrite positive_nat_Z. reflexivity.
- simpl. rewrite Z.div_1_r. repeat split; [lia | discriminate].
Qed.

Lemma round_nearest_even_spec mrs :
  let m1 := round_nearest_even (shr_m mrs) (loc_of_shr_record mrs) in
  shr_m mrs <= m1 <= shr_m mrs + 1 /\
  ((shr_r mrs || shr_s mrs)%bool = false -> m1 = shr_m mrs).
Proof.
destruct mrs as [m [|] [|]]; simpl; try (destruct (Z.even m)); split;
  intros; try discriminate; try reflexivity; lia.
Qed.


Lemma F2R_pow k e : 0 <= k -> B64.F2R (2 ^ k) e = B64.bpow (k + e).
Proof. intros Hk. unfold B64.F2R. rewrite <- bpow_Z, <- bpow_add by exact Hk. reflexivity. Qed.

Lemma F2R_lt m1 m2 e : m1 < m2 -> (B64.F2R m1 e < B64.F2R m2 e)%R.
Proof.
intros H. unfold B64.F2R. apply Rmult_lt_compat_r.
- apply bpow_gt_0.
- apply IZR_lt. exact H.
Qed.

(** A mantissa of a bounded float has at most 53 bits and its exponent lies
    between [emin] and [emax - prec]. *)
Lemma bounded_inv m e :
  bounded prec emax m e = true ->
  Zpos (digits2_pos m) <= 53 /\ -1074 <= e <= 971 /\
  (e = -1074 \/ Zpos (digits2_pos m) = 53).
Proof.
unfold bounded, canonical_mantissa, fexp, SpecFloat.emin, prec, emax.
intros H. apply andb_true_iff in H. destruct H as [H1 H2].
apply Z.eqb_eq in H1. apply Z.leb_le in H2. lia.
Qed.

Lemma bounded_lt_bpow m e :
  bounded prec emax m e = true -> (B64.F2R (Zpos m) e < B64.bpow (53 + e))%R.
Proof.
intros H. apply bounded_inv in H. destruct H as [Hd _].
rewrite <- F2R_pow by lia. apply F2R_lt.
pose proof (digits_bounds m) as [_ Hm].
assert (2 ^ Zpos (digits2_pos m) <= 2 ^ 53) by (apply Z.pow_le_mono_r; lia).
lia.
Qed.

Lemma big_mantissa (mm : positive) ee :
  let k := Z.max 0 (fexp prec emax (Zpos (digits2_pos mm) + ee) - ee) in
  0 <= fexp prec emax (Zpos (digits2_pos mm) + ee) - ee ->
  972 <= ee + k ->
  2 ^ 52 <= Zpos mm / 2 ^ k.
Proof.
cbv zeta. unfold fexp, SpecFloat.emin, prec, emax. intros H0 Hk.
pose proof (digits_bounds mm) as [Hm _].
set (dd := Zpos (digits2_pos mm)) in *.
assert (Hk' : Z.max 0 (Z.max (dd + ee - 53) (3 - 1024 - 53) - ee) = dd - 53) by lia.
rewrite Hk'. apply Z.div_le_lower_bound.
- apply Z.pow_pos_nonneg; lia.
- rewrite <- Z.pow_add_r by lia. replace (dd - 53 + 52) with (dd - 1) by lia. exact Hm.
Qed.

Lemma round_aux_bounded (s : bool) (m : positive) (e : Z) (mb : positive) (eb : Z) :
  e <= fexp prec emax (Zpos (digits2_pos m) + e) ->
  bounded prec emax mb eb = true ->
  (B64.F2R (Zpos m) e <= B64.F2R (Zpos mb) eb)%R ->
  binary_round_aux prec emax s (Zpos m) e loc_Exact = S754_zero s \/
  exists m' e',
    binary_round_aux prec emax s (Zpos m) e loc_Exact = S754_finite s m' e' /\
    (B64.F2R (Zpos m') e' <= B64.F2R (Zpos mb) eb)%R.
Proof.
intros Hal Hb Hle.
pose proof (bounded_lt_bpow _ _ Hb) as HB.
pose proof (bounded_inv _ _ Hb) as (Hdb & Heb & _).
pose proof (digits_bounds m) as [Hm1 Hm2].
unfold binary_round_aux.
destruct (shr_fexp prec emax (Zpos m) e loc_Exact) as [mrs1 e1] eqn:H1.
apply shr_fexp_exact in H1; [| lia]. cbv zeta in H1.
change (Zdigits2 (Zpos m)) with (Zpos (digits2_pos m)) in H1.
set (d := Zpos (digits2_pos m)) in *.
set (k1 := Z.max 0 (fexp prec emax (d + e) - e)) in *.
destruct H1 as (He1 & Hs1 & Hr1).
pose proof (round_nearest_even_spec mrs1) as Hrne. cbv zeta in Hrne.
set (m1 := round_nearest_even (shr_m mrs1) (loc_of_shr_record mrs1)) in *.
destruct Hrne as [Hm1b Hm1e].
assert (Hk1 : 0 <= k1) by (unfold k1; lia).
assert (Hp1 : 0 < 2 ^ k1) by (apply Z.pow_pos_nonneg; lia).
assert (Hs1pos : 0 <= shr_m mrs1) by (rewrite Hs1; apply Z.div_pos; lia).
(* the bound is on the grid of the result *)
assert (Hde : d + e - 53 <= eb).
{ assert (Hlt : (B64.bpow (d - 1 + e) < B64.bpow (53 + eb))%R).
  { rewrite <- F2R_pow by lia.
    apply Rle_lt_trans with (2 := HB). apply Rle_trans with (2 := Hle).
    apply F2R_le. exact Hm1. }
  apply bpow_lt_inv in Hlt. lia. }
assert (Hebe1 : e1 <= eb).
{ rewrite He1. unfold k1, fexp, SpecFloat.emin, prec, emax in *. lia. }
set (K := Zpos mb * 2 ^ (eb - e1)).
assert (HK : B64.F2R (Zpos mb) eb = B64.F2R K e1).
{ unfold K. rewrite F2R_shift by lia. f_equal. lia. }
assert (HmK : Zpos m <= K * 2 ^ k1).
{ apply F2R_le_inv with (e := e). rewrite F2R_shift by lia.
  rewrite <- He1, <- HK. exact Hle. }
assert (Hm1K : m1 <= K).
{ destruct (shr_r mrs1 || shr_s mrs1)%bool eqn:Hrs.
  - specialize (Hr1 eq_refl).
    assert (Hne : Zpos m <> K * 2 ^ k1).
    { intros Heq. apply Hr1. rewrite Heq. apply Z.mod_mul. lia. }
    assert (Hlt : Zpos m / 2 ^ k1 < K).
    { apply Z.div_lt_upper_bound; [exact Hp1 | lia]. }
    lia.
  - rewrite (Hm1e eq_refl), Hs1. apply Z.div_le_upper_bound; [exact Hp1 | lia]. }
assert (Hm1pos : 0 <= m1) by lia.
destruct (shr_fexp prec emax m1 e1 loc_Exact) as [mrs2 e2] eqn:H2.
apply shr_fexp_exact in H2; [| exact Hm1pos]. cbv zeta in H2.
set (k2 := Z.max 0 (fexp prec emax (Zdigits2 m1 + e1) - e1)) in *.
destruct H2 as (He2 & Hs2 & _).
assert (Hk2 : 0 <= k2) by (unfold k2; lia).
assert (Hp2 : 0 < 2 ^ k2) by (apply Z.pow_pos_nonneg; lia).
assert (Hval : (B64.F2R (shr_m mrs2) e2 <= B64.F2R (Zpos mb) eb)%R).
{ rewrite He2, <- F2R_shift, HK by lia. apply F2R_le.
  rewrite Hs2. pose proof (Z.mul_div_le m1 (2 ^ k2) Hp2). lia. }
destruct (shr_m mrs2) as [| p | p] eqn:Hsm2.
- left. reflexivity.
- right. destruct (e2 <=? emax - prec) eqn:Hov.
  + exists p, e2. split; [reflexivity | exact Hval].
  + exfalso. apply Z.leb_gt in Hov. unfold emax, prec in Hov.
    assert (Hbig : 2 ^ 52 <= Zpos p).
    { rewrite Hs2. destruct (Z_lt_le_dec 0 (fexp prec emax (Zdigits2 m1 + e1) - e1)) as [Hpos | Hnon].
      - destruct m1 as [| p1 | p1]; try lia.
        + rewrite Z.div_0_l in Hs2 by lia. discriminate.
        + apply big_mantissa; [change (Zdigits2 (Zpos p1)) with (Zpos (digits2_pos p1)) in Hpos; lia |].
          fold k2 in Hov. change (Zdigits2 (Zpos p1)) with (Zpos (digits2_pos p1)) in k2.
          fold k2. lia.
      - assert (Hk20 : k2 = 0) by (unfold k2; lia).
        rewrite Hk20, Z.div_1_r.
        assert (H52 : 2 ^ 52 <= Zpos m / 2 ^ k1).
        { apply big_mantissa; fold d; [lia |]. fold k1. lia. }
        lia. }
    assert (Hge : (B64.bpow 1024 <= B64.F2R (Zpos p) e2)%R).
    { apply Rle_trans with (B64.F2R (2 ^ 52) e2).
      - rewrite F2R_pow by lia. apply bpow_le. lia.
      - apply F2R_le. exact Hbig. }
    assert (Hlt : (B64.F2R (Zpos mb) eb < B64.bpow 1024)%R).
    { apply Rlt_le_trans with (1 := HB). apply bpow_le. lia. }
    lra.
- exfalso. assert (0 <= m1 / 2 ^ k2) by (apply Z.div_pos; lia). lia.
Qed.


Lemma F2R_gt_0 (m : positive) e : (0 < B64.F2R (Zpos m) e)%R.
Proof.
unfold B64.F2R. apply Rmult_lt_0_compat.
- apply IZR_lt. lia.
- apply bpow_gt_0.
Qed.

Lemma F2R_mul (mx my : positive) ex ey :
  B64.F2R (Zpos (mx * my)) (ex + ey)
  = (B64.F2R (Zpos mx) ex * B64.F2R (Zpos my) ey)%R.
Proof. unfold B64.F2R. rewrite Pos2Z.inj_mul, mult_IZR, bpow_add. ring. Qed.

(** The result of rounding has the sign it is given and is never NaN. *)
Lemma round_aux_shape s m e :
  match binary_round_aux prec emax s (Zpos m) e loc_Exact with
  | S754_zero s' | S754_infinity s' | S754_finite s' _ _ => s' = s
  | S754_nan => False
  end.
Proof.
unfold binary_round_aux.
destruct (shr_fexp prec emax (Zpos m) e loc_Exact) as [mrs1 e1] eqn:H1.
apply shr_fexp_exact in H1; [| lia]. destruct H1 as (_ & Hs1 & _).
pose proof (round_nearest_even_spec mrs1) as Hrne. cbv zeta in Hrne.
set (m1 := round_nearest_even (shr_m mrs1) (loc_of_shr_record mrs1)) in *.
destruct Hrne as [Hm1b _].
assert (Hm1 : 0 <= m1).
{ assert (0 <= shr_m mrs1); [| lia].
  rewrite Hs1. apply Z.div_pos; [lia |]. apply Z.pow_pos_nonneg; lia. }
destruct (shr_fexp prec emax m1 e1 loc_Exact) as [mrs2 e2] eqn:H2.
apply shr_fexp_exact in H2; [| exact Hm1]. destruct H2 as (_ & Hs2 & _).
assert (Hm2 : 0 <= shr_m mrs2).
{ rewrite Hs2. apply Z.div_pos; [lia |]. apply Z.pow_pos_nonneg; lia. }
destruct (shr_m mrs2) as [| p | p].
- reflexivity.
- destruct (e2 <=? emax - prec); reflexivity.
- lia.
Qed.

Lemma digits_mul (mx my : positive) :
  Zpos (digits2_pos mx) + Zpos (digits2_pos my) - 1
  <= Zpos (digits2_pos (mx * my)).
Proof.
pose proof (digits_bounds mx) as [Hx _].
pose proof (digits_bounds my) as [Hy _].
pose proof (digits_bounds (mx * my)) as [_ Hxy].
rewrite Pos2Z.inj_mul in Hxy.
set (dx := Zpos (digits2_pos mx)) in *.
set (dy := Zpos (digits2_pos my)) in *.
set (d := Zpos (digits2_pos (mx * my))) in *.
assert (Hdx : 0 < dx) by (unfold dx; lia).
assert (Hdy : 0 < dy) by (unfold dy; lia).
assert (Hd : 0 < d) by (unfold d; lia).
assert (Hlt : 2 ^ (dx - 1 + (dy - 1)) < 2 ^ d).
{ rewrite Z.pow_add_r by lia.
  assert (0 < 2 ^ (dx - 1)) by (apply Z.pow_pos_nonneg; lia).
  assert (0 < 2 ^ (dy - 1)) by (apply Z.pow_pos_nonneg; lia).
  nia. }
apply Z.pow_lt_mono_r_iff in Hlt; lia.
Qed.

(** The product of the mantissas of two bounded floats has enough bits for
    the rounding to work on it directly. *)
Lemma mul_aligned (mx my : positive) ex ey :
  bounded prec emax mx ex = true -> bounded prec emax my ey = true ->
  ex + ey <= fexp prec emax (Zpos (digits2_pos (mx * my)) + (ex + ey)).
Proof.
intros Hx Hy. apply bounded_inv in Hx. apply bounded_inv in Hy.
pose proof (digits_mul mx my) as Hd.
unfold fexp, SpecFloat.emin, prec, emax.
assert (0 < Zpos (digits2_pos mx)) by lia.
assert (0 < Zpos (digits2_pos my)) by lia.
lia.
Qed.

(** Rounding a product cannot take it beyond a float that bounds the exact
    product. *)
Lemma SFmul_magnitude (X Y : spec_float) (Bx By : R) (mb : positive) (eb : Z) :
  valid_binary X = true -> valid_binary Y = true ->
  B64.magnitude_le X Bx -> B64.magnitude_le Y By ->
  (Bx * By <= B64.F2R (Zpos mb) eb)%R ->
  bounded prec emax mb eb = true ->
  B64.magnitude_le (SFmul prec emax X Y) (B64.F2R (Zpos mb) eb).
Proof.
intros HvX HvY HX HY HB Hb.
pose proof (F2R_gt_0 mb eb) as HB0.
destruct X as [sx | sx | | sx mx ex], Y as [sy | sy | | sy my ey];
  simpl in HX, HY |- *; try contradiction; try lra.
simpl in HvX, HvY.
pose proof (F2R_gt_0 mx ex) as Hx0. pose proof (F2R_gt_0 my ey) as Hy0.
assert (Hle : (B64.F2R (Zpos (mx * my)) (ex + ey) <= B64.F2R (Zpos mb) eb)%R).
{ rewrite F2R_mul. apply Rle_trans with (2 := HB).
  apply Rmult_le_compat; lra. }
destruct (@round_aux_bounded (xorb sx sy) (mx * my) (ex + ey) mb eb
            (mul_aligned _ _ _ _ HvX HvY) Hb Hle) as [Hz | (m' & e' & Hf & Hv)].
- rewrite Hz. simpl. lra.
- rewrite Hf. simpl. exact Hv.
Qed.

(** A product that is finite has finite factors. *)
Lemma SFmul_finite_inv (X Y : spec_float) (B : R) :
  B64.magnitude_le (SFmul prec emax X Y) B ->
  (exists Bx, B64.magnitude_le X Bx) /\ (exists By, B64.magnitude_le Y By).
Proof.
destruct X as [sx | sx | | sx mx ex], Y as [sy | sy | | sy my ey];
  simpl; try contradiction; intros _; split;
  try (exists 0%R; simpl; lra);
  try (eexists; simpl; apply Rle_refl).
Qed.

Lemma magnitude_le_weaken (X : spec_float) (B B' : R) :
  B64.magnitude_le X B -> (B <= B')%R -> B64.magnitude_le X B'.
Proof. destruct X; simpl; intros; try contradiction; lra. Qed.

(** Two bounded floats compare as their exponents do when these differ. *)
Lemma bounded_exponent_lt (m mb : positive) (e eb : Z) :
  bounded prec emax m e = true -> bounded prec emax mb eb = true ->
  e < eb -> (B64.F2R (Zpos m) e <= B64.F2R (Zpos mb) eb)%R.
Proof.
intros Hx Hb Hlt.
pose proof (bounded_lt_bpow _ _ Hx) as Hx1.
apply bounded_inv in Hx. apply bounded_inv in Hb.
pose proof (digits_bounds mb) as [Hmb _].
assert (Hd : Zpos (digits2_pos mb) = 53) by lia.
rewrite Hd in Hmb. simpl Z.sub in Hmb.
apply Rle_trans with (B64.bpow (53 + e)); [lra |].
apply Rle_trans with (B64.F2R (2 ^ 52) eb).
- rewrite F2R_pow by lia. apply bpow_le. lia.
- apply F2R_le. exact Hmb.
Qed.

Lemma SFleb_abs_magnitude (X : spec_float) (mb : positive) (eb : Z) :
  valid_binary X = true -> bounded prec emax mb eb = true ->
  SFleb (SFabs X) (S754_finite false mb eb) = true ->
  B64.magnitude_le X (B64.F2R (Zpos mb) eb).
Proof.
intros HvX Hb. pose proof (F2R_gt_0 mb eb) as HB0.
destruct X as [sx | sx | | sx mx ex]; simpl; try discriminate; [lra |].
unfold SFleb. simpl. simpl in HvX.
destruct (Z.compare_spec ex eb) as [Heq | Hlt | Hgt].
- subst eb. destruct (Pos.compare_cont Eq mx mb) eqn:Hc; try discriminate;
    intros _; apply F2R_le;
    change (Pos.compare_cont Eq mx mb) with (Pos.compare mx mb) in Hc.
  + apply Pos.compare_eq in Hc. subst. lia.
  + change (mx < mb)%positive in Hc. lia.
- intros _. apply bounded_exponent_lt; assumption.
- discriminate.
Qed.


(** ** Rounding gives a float of the format *)

Lemma digits_unique (p : positive) (n : Z) :
  2 ^ (n - 1) <= Zpos p < 2 ^ n -> 0 < n -> Zpos (digits2_pos p) = n.
Proof.
intros [Hlo Hhi] Hn. pose proof (digits_bounds p) as [Dlo Dhi].
set (d := Zpos (digits2_pos p)) in *.
assert (Hd : 0 < d) by (unfold d; lia).
destruct (Z.lt_trichotomy d n) as [Hlt | [Heq | Hgt]]; [| exact Heq |].
- assert (2 ^ d <= 2 ^ (n - 1)) by (apply Z.pow_le_mono_r; lia). lia.
- assert (2 ^ n <= 2 ^ (d - 1)) by (apply Z.pow_le_mono_r; lia). lia.
Qed.

Lemma digits_mono (p q : positive) :
  Zpos p <= Zpos q -> Zpos (digits2_pos p) <= Zpos (digits2_pos q).
Proof.
intros Hpq. pose proof (digits_bounds p) as [Plo _].
pose proof (digits_bounds q) as [_ Qhi].
assert (Hlt : 2 ^ (Zpos (digits2_pos p) - 1) < 2 ^ Zpos (digits2_pos q)) by lia.
apply Z.pow_lt_mono_r_iff in Hlt; lia.
Qed.

Lemma digits_div (p q : positive) (k : Z) :
  0 <= k -> Zpos q = Zpos p / 2 ^ k ->
  Zpos (digits2_pos q) = Zpos (digits2_pos p) - k.
Proof.
intros Hk Hq. pose proof (digits_bounds p) as [Plo Phi].
set (d := Zpos (digits2_pos p)) in *.
assert (Hp : 0 < 2 ^ k) by (apply Z.pow_pos_nonneg; lia).
assert (Hkd : k < d).
{ assert (Hge : 2 ^ k <= Zpos p).
  { destruct (Z_lt_le_dec (Zpos p) (2 ^ k)) as [Hlt | Hge]; [| exact Hge].
    rewrite Z.div_small in Hq by lia. lia. }
  assert (Hlt : 2 ^ k < 2 ^ d) by lia.
  apply Z.pow_lt_mono_r_iff in Hlt; lia. }
apply digits_unique; [| lia]. rewrite Hq. split.
- apply Z.div_le_lower_bound; [exact Hp |].
  rewrite <- Z.pow_add_r by lia. replace (k + (d - k - 1)) with (d - 1) by lia.
  exact Plo.
- apply Z.div_lt_upper_bound; [exact Hp |].
  rewrite <- Z.pow_add_r by lia. replace (k + (d - k)) with d by lia.
  exact Phi.
Qed.

Lemma round_aux_valid (s : bool) (m : positive) (e : Z) :
  e <= fexp prec emax (Zpos (digits2_pos m) + e) ->
  valid_binary (binary_round_aux prec emax s (Zpos m) e loc_Exact) = true.
Proof.
intros Hal. unfold binary_round_aux.
destruct (shr_fexp prec emax (Zpos m) e loc_Exact) as [mrs1 e1] eqn:H1.
apply shr_fexp_exact in H1; [| lia]. cbv zeta in H1.
change (Zdigits2 (Zpos m)) with (Zpos (digits2_pos m)) in H1.
set (d := Zpos (digits2_pos m)) in *.
set (k1 := Z.max 0 (fexp prec emax (d + e) - e)) in *.
destruct H1 as (He1 & Hs1 & _).
pose proof (round_nearest_even_spec mrs1) as Hrne. cbv zeta in Hrne.
set (m1 := round_nearest_even (shr_m mrs1) (loc_of_shr_record mrs1)) in *.
destruct Hrne as [Hm1b _].
assert (Hk1 : 0 <= k1) by (unfold k1; lia).
assert (Hp1 : 0 < 2 ^ k1) by (apply Z.pow_pos_nonneg; lia).
assert (Hs1pos : 0 <= shr_m mrs1) by (rewrite Hs1; apply Z.div_pos; lia).
assert (He1f : e1 = fexp prec emax (d + e)) by (unfold k1 in He1; lia).
destruct (shr_fexp prec emax m1 e1 loc_Exact) as [mrs2 e2] eqn:H2.
apply shr_fexp_exact in H2; [| lia]. cbv zeta in H2.
set (k2 := Z.max 0 (fexp prec emax (Zdigits2 m1 + e1) - e1)) in *.
destruct H2 as (He2 & Hs2 & _).
destruct (shr_m mrs2) as [| p | p] eqn:Hsm2; try reflexivity.
destruct (e2 <=? emax - prec) eqn:Hov; [| reflexivity].
simpl. unfold bounded. rewrite Hov, andb_true_r.
unfold canonical_mantissa. apply Z.eqb_eq.
destruct m1 as [| p1 | p1]; try lia.
{ rewrite Z.div_0_l in Hs2 by (apply Z.pow_nonzero; unfold k2; lia).
  discriminate. }
change (Zdigits2 (Zpos p1)) with (Zpos (digits2_pos p1)) in k2.
set (d1 := Zpos (digits2_pos p1)) in *.
(* the exponent reached by the first shift is below the one of [m1] *)
assert (Hmono : e1 <= fexp prec emax (d1 + e1)).
{ destruct (shr_m mrs1) as [| q | q] eqn:Hq; try lia.
  - (* everything was shifted out: the exponent is [emin] *)
    assert (Hlt : Zpos m < 2 ^ k1).
    { destruct (Z_lt_le_dec (Zpos m) (2 ^ k1)) as [Hlt | Hge]; [exact Hlt |].
      assert (1 <= Zpos m / 2 ^ k1).
      { apply Z.div_le_lower_bound; lia. }
      lia. }
    pose proof (digits_bounds m) as [Dlo _]. fold d in Dlo.
    assert (Hdk : d <= k1).
    { assert (Hlt' : 2 ^ (d - 1) < 2 ^ k1) by lia.
      apply Z.pow_lt_mono_r_iff in Hlt'; lia. }
    unfold fexp, SpecFloat.emin, prec, emax in *. lia.
  - pose proof (@digits_div m q k1 Hk1 Hs1) as Hdq.
    assert (Hd1 : Zpos (digits2_pos q) <= d1).
    { apply digits_mono. lia. }
    fold d in Hdq.
    unfold fexp, SpecFloat.emin, prec, emax in *. lia. }
assert (Hk2 : k2 = fexp prec emax (d1 + e1) - e1) by (unfold k2; lia).
assert (Hk2' : 0 <= k2) by lia.
pose proof (@digits_div p1 p k2 Hk2' Hs2) as Hdp. fold d1 in Hdp.
rewrite Hdp, He2. replace (d1 - k2 + (e1 + k2)) with (d1 + e1) by lia.
lia.
Qed.

Lemma digits_shl (m : positive) (n : positive) :
  Zpos (digits2_pos (Pos.iter xO m n)) = Zpos (digits2_pos m) + Zpos n.
Proof.
induction n as [| n IH] using Pos.peano_ind.
- simpl. lia.
- rewrite Pos.iter_succ. simpl digits2_pos. lia.
Qed.

Lemma binary_round_valid (s : bool) (m : positive) (e : Z) :
  valid_binary (binary_round prec emax s m e) = true.
Proof.
unfold binary_round, shl_align.
destruct (fexp prec emax (Zpos (digits2_pos m) + e) - e) as [| k | k] eqn:Hk;
  apply round_aux_valid; try lia.
rewrite digits_shl.
replace (Zpos (digits2_pos m) + Zpos k
         + fexp prec emax (Zpos (digits2_pos m) + e))
  with (Zpos (digits2_pos m) + e) by lia.
lia.
Qed.

Lemma binary_round_shape (s : bool) (m : positive) (e : Z) :
  match binary_round prec emax s m e with
  | S754_zero s' | S754_infinity s' | S754_finite s' _ _ => s' = s
  | S754_nan => False
  end.
Proof.
unfold binary_round.
destruct (shl_align m e (fexp prec emax (Zpos (digits2_pos m) + e))) as [mz ez].
apply round_aux_shape.
Qed.

(** ** From the primitive floats to their specification *)

Lemma is_finite_SF (x : float) :
  is_finite x = true <-> exists B, B64.finite_le x B.
Proof.
unfold is_finite, is_nan, is_infinity, B64.finite_le.
rewrite !eqb_spec, abs_spec.
change (Prim2SF infinity) with (S754_infinity false).
destruct (Prim2SF x) as [s | s | | s m e]; unfold SFeqb; simpl.
- split; [intros _; exists 0%R; lra | reflexivity].
- split; [destruct s; discriminate | intros [B H]; contradiction].
- split; [discriminate | intros [B H]; contradiction].
- split.
  + intros _. exists (B64.F2R (Zpos m) e). apply Rle_refl.
  + intros _. destruct s; rewrite Z.compare_refl, Pos.compare_cont_refl;
      reflexivity.
Qed.

Lemma is_nan_SF (x : float) : is_nan x = true <-> Prim2SF x = S754_nan.
Proof.
unfold is_nan. rewrite eqb_spec.
destruct (Prim2SF x) as [s | s | | s m e]; unfold SFeqb; simpl.
- split; discriminate.
- split; [destruct s; discriminate | discriminate].
- split; reflexivity.
- split; [| discriminate].
  destruct s; rewrite Z.compare_refl, Pos.compare_cont_refl; discriminate.
Qed.

Lemma is_zero_SF (x : float) :
  is_zero x = true <-> exists s, Prim2SF x = S754_zero s.
Proof.
unfold is_zero. rewrite eqb_spec.
change (Prim2SF zero) with (S754_zero false).
destruct (Prim2SF x) as [s | s | | s m e]; unfold SFeqb; simpl.
- split; [intros _; exists s; reflexivity | reflexivity].
- split; [destruct s; discriminate | intros [s' H]; discriminate].
- split; [discriminate | intros [s' H]; discriminate].
- split; [destruct s; discriminate | intros [s' H]; discriminate].
Qed.

Lemma finite_le_not_nan (x : float) (B : R) :
  B64.finite_le x B -> is_nan x = false.
Proof.
intros H. destruct (is_nan x) eqn:Hn; [| reflexivity].
apply is_nan_SF in Hn. unfold B64.finite_le in H. rewrite Hn in H.
contradiction.
Qed.

Lemma finite_le_weaken (x : float) (B B' : R) :
  B64.finite_le x B -> (B <= B')%R -> B64.finite_le x B'.
Proof. apply magnitude_le_weaken. Qed.

Lemma mul_finite_le (x y b : float) (Bx By : R) (mb : positive) (eb : Z) :
  B64.finite_le x Bx -> B64.finite_le y By ->
  Prim2SF b = S754_finite false mb eb ->
  (Bx * By <= B64.F2R (Zpos mb) eb)%R ->
  B64.finite_le (x * y)%float (B64.F2R (Zpos mb) eb).
Proof.
intros Hx Hy Hb HB. unfold B64.finite_le. rewrite mul_spec.
apply SFmul_magnitude with (Bx := Bx) (By := By); try assumption.
- apply Prim2SF_valid.
- apply Prim2SF_valid.
- pose proof (Prim2SF_valid b) as Hv. rewrite Hb in Hv. exact Hv.
Qed.

Lemma mul_finite_inv (x y : float) (B : R) :
  B64.finite_le (x * y)%float B ->
  (exists Bx, B64.finite_le x Bx) /\ (exists By, B64.finite_le y By).
Proof.
unfold B64.finite_le. rewrite mul_spec. apply SFmul_finite_inv.
Qed.

Lemma leb_abs_finite_le (x b : float) (mb : positive) (eb : Z) :
  (abs x <=? b)%float = true ->
  Prim2SF b = S754_finite false mb eb ->
  B64.finite_le x (B64.F2R (Zpos mb) eb).
Proof.
rewrite leb_spec, abs_spec. intros H Hb. rewrite Hb in H.
apply SFleb_abs_magnitude.
- apply Prim2SF_valid.
- pose proof (Prim2SF_valid b) as Hv. rewrite Hb in Hv. exact Hv.
- exact H.
Qed.

(** A float above zero is its own absolute value. *)
Lemma abs_positive (x : float) : (0 <? x)%float = true -> abs x = x.
Proof.
rewrite ltb_spec. change (Prim2SF 0) with (S754_zero false).
intros H. apply Prim2SF_inj. rewrite abs_spec.
destruct (Prim2SF x) as [s | s | | s m e]; unfold SFltb in H; simpl in H;
  try discriminate; destruct s; try discriminate; reflexivity.
Qed.

Lemma F2R_one : B64.F2R (Zpos 4503599627370496) (-52) = 1%R.
Proof.
change (Zpos 4503599627370496) with (2 ^ 52).
rewrite F2R_pow by lia. reflexivity.
Qed.

Lemma F2R_32767 : B64.F2R (Zpos 9006924376834048) (-38) = 32767%R.
Proof.
change (Zpos 9006924376834048) with (32767 * 2 ^ 38).
rewrite F2R_shift by lia. unfold B64.F2R. simpl. lra.
Qed.

Lemma Prim2SF_one : Prim2SF 1 = S754_finite false 4503599627370496 (-52).
Proof. reflexivity. Qed.

Lemma Prim2SF_32767 :
  Prim2SF 32767 = S754_finite false 9006924376834048 (-38).
Proof. reflexivity. Qed.

(** ** [int] of a float *)

Lemma shiftl_F2R (m e : Z) :
  0 <= m ->
  (IZR (Z.shiftl m e) <= B64.F2R m e < IZR (Z.shiftl m e) + 1)%R.
Proof.
intros Hm. destruct (Z_le_gt_dec 0 e) as [He | He].
- rewrite Z.shiftl_mul_pow2 by exact He.
  unfold B64.F2R. rewrite mult_IZR, <- bpow_Z by exact He. lra.
- rewrite Z.shiftl_div_pow2 by lia.
  set (k := - e). assert (Hk : 0 < k) by (unfold k; lia).
  assert (Hp : 0 < 2 ^ k) by (apply Z.pow_pos_nonneg; lia).
  pose proof (Z.mul_div_le m (2 ^ k) Hp) as Hlo.
  pose proof (Z.mul_succ_div_gt m (2 ^ k) Hp) as Hhi.
  set (q := m / 2 ^ k) in *.
  assert (Hv : (B64.F2R m e * B64.bpow k = IZR m)%R).
  { unfold B64.F2R. rewrite Rmult_assoc, <- bpow_add.
    replace (e + k) with 0 by (unfold k; lia). unfold B64.bpow. simpl. ring. }
  pose proof (bpow_gt_0 k) as Hb.
  assert (Hlo' : (IZR q * B64.bpow k <= IZR m)%R).
  { rewrite bpow_Z, <- mult_IZR by lia. apply IZR_le. lia. }
  assert (Hhi' : (IZR m < (IZR q + 1) * B64.bpow k)%R).
  { rewrite bpow_Z by lia. rewrite <- (plus_IZR q 1), <- mult_IZR.
    apply IZR_lt. unfold Z.succ in Hhi. lia. }
  rewrite <- Hv in Hlo', Hhi'. split.
  + apply Rmult_le_reg_r with (1 := Hb). exact Hlo'.
  + apply Rmult_lt_reg_r with (1 := Hb). exact Hhi'.
Qed.

Lemma F2R_opp (m e : Z) : B64.F2R (- m) e = (- B64.F2R m e)%R.
Proof. unfold B64.F2R. rewrite opp_IZR. ring. Qed.

(** [int] gives the integer part of the value of its argument. *)
Lemma int_B2R (x : float) (z : Z) :
  B64.int x = B64.Return z -> z = Py.int (B64.B2R x).
Proof.
unfold B64.int, B64.B2R.
destruct (Prim2SF x) as [s | s | | s m e]; try discriminate.
- intros H. injection H as <-. symmetry. apply (int_IZR 0).
- intros H. injection H as <-.
  pose proof (@shiftl_F2R (Zpos m) e ltac:(lia)) as Hb.
  assert (H0 : 0 <= Z.shiftl (Zpos m) e) by (apply Z.shiftl_nonneg; lia).
  apply IZR_le in H0.
  destruct s; simpl cond_Zopp.
  + change (Zneg m) with (- Zpos m). rewrite F2R_opp, int_opp.
    f_equal. symmetry. apply int_eq_nonneg; lra.
  + symmetry. apply int_eq_nonneg; lra.
Qed.

Lemma int_finite (x : float) (z : Z) :
  B64.int x = B64.Return z -> exists B, B64.finite_le x B.
Proof.
unfold B64.int, B64.finite_le.
destruct (Prim2SF x) as [s | s | | s m e]; try discriminate; intros _.
- exists 0%R. simpl. lra.
- exists (B64.F2R (Zpos m) e). simpl. lra.
Qed.

Lemma int_finite_le (x : float) (z n : Z) :
  B64.int x = B64.Return z -> B64.finite_le x (IZR n) -> - n <= z <= n.
Proof.
unfold B64.int, B64.finite_le.
destruct (Prim2SF x) as [s | s | | s m e]; try discriminate; simpl.
- intros H Hn. injection H as <-. apply le_IZR in Hn. lia.
- intros H Hn. injection H as <-.
  pose proof (@shiftl_F2R (Zpos m) e ltac:(lia)) as [Hb _].
  assert (H0 : 0 <= Z.shiftl (Zpos m) e) by (apply Z.shiftl_nonneg; lia).
  assert (H1 : Z.shiftl (Zpos m) e <= n) by (apply le_IZR; lra).
  destruct s; simpl; lia.
Qed.


(** ** The conversion of an [int] *)

Lemma to_float_SF (z : Z) (r : float) :
  B64.to_float z = B64.Return r ->
  Prim2SF r = binary_normalize prec emax z 0 false.
Proof.
unfold B64.to_float.
destruct (is_finite (SF2Prim (binary_normalize prec emax z 0 false)));
  [| discriminate].
intros H. injection H as <-. apply Prim2SF_SF2Prim.
destruct z; simpl; [reflexivity | apply binary_round_valid ..].
Qed.

(** A positive [int] converts to a positive float. *)
Lemma to_float_positive (z : Z) (r : float) :
  0 < z -> B64.to_float z = B64.Return r ->
  exists m e, Prim2SF r = S754_finite false m e \/ Prim2SF r = S754_zero false.
Proof.
intros Hz Hr. pose proof (to_float_SF _ Hr) as HSF.
assert (Hfin : is_finite r = true).
{ unfold B64.to_float in Hr.
  destruct (is_finite (SF2Prim (binary_normalize prec emax z 0 false))) eqn:E;
    [| discriminate].
  injection Hr as <-. exact E. }
apply is_finite_SF in Hfin. destruct Hfin as [B HB].
unfold B64.finite_le in HB.
destruct z as [| p | p]; try lia. simpl in HSF.
pose proof (binary_round_shape false p 0) as Hsh. rewrite <- HSF in Hsh.
destruct (Prim2SF r) as [s | s | | s m e]; simpl in HB; try contradiction;
  subst s.
- exists 1%positive, 0. right. reflexivity.
- exists m, e. left. reflexivity.
Qed.


Lemma iter_xO_value (m : positive) (k : positive) :
  Zpos (Pos.iter xO m k) = Zpos m * 2 ^ Zpos k.
Proof.
induction k as [| k IH] using Pos.peano_ind.
- simpl. lia.
- rewrite Pos.iter_succ, Pos2Z.inj_xO, IH, Pos2Z.inj_succ, Z.pow_succ_r by lia.
  ring.
Qed.

(** An [int] that a float bounds converts to a float, within that bound. *)
Lemma to_float_bounded (z : Z) (mb : positive) (eb : Z) :
  0 < z -> bounded prec emax mb eb = true ->
  (IZR z <= B64.F2R (Zpos mb) eb)%R ->
  exists r, B64.to_float z = B64.Return r /\
            B64.finite_le r (B64.F2R (Zpos mb) eb).
Proof.
intros Hz Hb Hle. destruct z as [| p | p]; try lia.
assert (HX : B64.magnitude_le (binary_round prec emax false p 0)
               (B64.F2R (Zpos mb) eb)).
{ unfold binary_round, shl_align.
  assert (Hv : B64.F2R (Zpos p) 0 = IZR (Zpos p)).
  { unfold B64.F2R, B64.bpow. simpl. ring. }
  destruct (fexp prec emax (Zpos (digits2_pos p) + 0) - 0) as [| k | k] eqn:Hk.
  - destruct (@round_aux_bounded false p 0 mb eb ltac:(lia) Hb ltac:(lra))
      as [E | (m' & e' & E & Hv')]; rewrite E; simpl; [| exact Hv'].
    left. apply F2R_gt_0.
  - destruct (@round_aux_bounded false p 0 mb eb ltac:(lia) Hb ltac:(lra))
      as [E | (m' & e' & E & Hv')]; rewrite E; simpl; [| exact Hv'].
    left. apply F2R_gt_0.
  - set (e1 := fexp prec emax (Zpos (digits2_pos p) + 0)) in *.
    assert (Hal : e1 <= fexp prec emax (Zpos (digits2_pos (Pos.iter xO p k)) + e1)).
    { rewrite digits_shl.
      replace (Zpos (digits2_pos p) + Zpos k + e1)
        with (Zpos (digits2_pos p) + 0) by lia.
      fold e1. lia. }
    assert (Hval : (B64.F2R (Zpos (Pos.iter xO p k)) e1
                    <= B64.F2R (Zpos mb) eb)%R).
    { rewrite iter_xO_value, F2R_shift by lia.
      replace (e1 + Zpos k) with 0 by lia. lra. }
    destruct (@round_aux_bounded false (Pos.iter xO p k) e1 mb eb Hal Hb Hval)
      as [E | (m' & e' & E & Hv')]; rewrite E; simpl; [| exact Hv'].
    left. apply F2R_gt_0. }
assert (HP : Prim2SF (SF2Prim (binary_round prec emax false p 0))
             = binary_round prec emax false p 0).
{ apply Prim2SF_SF2Prim. apply binary_round_valid. }
exists (SF2Prim (binary_round prec emax false p 0)).
unfold B64.to_float. simpl binary_normalize.
assert (Hfin : is_finite (SF2Prim (binary_round prec emax false p 0)) = true).
{ apply is_finite_SF. exists (B64.F2R (Zpos mb) eb).
  unfold B64.finite_le. rewrite HP. exact HX. }
rewrite Hfin. split; [reflexivity |].
unfold B64.finite_le. rewrite HP. exact HX.
Qed.



(** A zero times a finite float is a zero. *)
Lemma mul_zero_l (x y : float) :
  is_zero x = true -> is_finite y = true -> is_zero (x * y) = true.
Proof.
intros Hx Hy. apply is_zero_SF in Hx. destruct Hx as [s Hs].
apply is_finite_SF in Hy. destruct Hy as [B HB]. unfold B64.finite_le in HB.
apply is_zero_SF. rewrite mul_spec, Hs.
destruct (Prim2SF y) as [sy | sy | | sy my ey]; simpl in HB; try contradiction;
  eexists; reflexivity.
Qed.

Lemma mul_zero_r (x y : float) :
  is_finite x = true -> is_zero y = true -> is_zero (x * y) = true.
Proof.
intros Hx Hy. apply is_zero_SF in Hy. destruct Hy as [s Hs].
apply is_finite_SF in Hx. destruct Hx as [B HB]. unfold B64.finite_le in HB.
apply is_zero_SF. rewrite mul_spec, Hs.
destruct (Prim2SF x) as [sx | sx | | sx mx ex]; simpl in HB; try contradiction;
  eexists; reflexivity.
Qed.

Lemma is_zero_finite (x : float) : is_zero x = true -> is_finite x = true.
Proof.
intros H. apply is_zero_SF in H. destruct H as [s Hs].
apply is_finite_SF. exists 0%R. unfold B64.finite_le. rewrite Hs. simpl. lra.
Qed.

Lemma int_zero (x : float) (n : Z) :
  is_zero x = true -> B64.int x = B64.Return n -> n = 0.
Proof.
intros H. apply is_zero_SF in H. destruct H as [s Hs].
unfold B64.int. rewrite Hs. intros E. injection E as <-. reflexivity.
Qed.


(** ** Doubling *)

Lemma shr_shift (mrs : shr_record) (e n : Z) :
  shr mrs (e + 1) n = (fst (shr mrs e n), snd (shr mrs e n) + 1).
Proof. destruct n; simpl; f_equal; lia. Qed.

Lemma round_aux_unfold (s : bool) (m : Z) (e : Z) (mrs1 mrs2 : shr_record)
    (e1 e2 : Z) :
  shr_fexp prec emax m e loc_Exact = (mrs1, e1) ->
  shr_fexp prec emax
    (round_nearest_even (shr_m mrs1) (loc_of_shr_record mrs1)) e1 loc_Exact
  = (mrs2, e2) ->
  binary_round_aux prec emax s m e loc_Exact
  = match shr_m mrs2 with
    | Z0 => S754_zero s
    | Zpos p => if e2 <=? emax - prec then S754_finite s p e2
                else S754_infinity s
    | Zneg _ => S754_nan
    end.
Proof. intros H1 H2. unfold binary_round_aux. rewrite H1, H2. reflexivity. Qed.

(** Away from the subnormal range, rounding commutes with doubling. *)
Lemma round_aux_scale (s : bool) (m : positive) (e : Z) :
  -1074 <= Zpos (digits2_pos m) + e - 53 ->
  match binary_round_aux prec emax s (Zpos m) e loc_Exact with
  | S754_finite s' m' e' =>
      binary_round_aux prec emax s (Zpos m) (e + 1) loc_Exact
      = if e' + 1 <=? 971 then S754_finite s' m' (e' + 1)
        else S754_infinity s'
  | S754_zero s' =>
      binary_round_aux prec emax s (Zpos m) (e + 1) loc_Exact = S754_zero s'
  | _ => True
  end.
Proof.
intros Hun. pose proof (digits_bounds m) as [Dlo Dhi].
set (d := Zpos (digits2_pos m)) in *.
assert (Hd : 0 < d) by (unfold d; lia).
destruct (shr_fexp prec emax (Zpos m) e loc_Exact) as [mrs1 e1] eqn:H1.
assert (H1' : shr_fexp prec emax (Zpos m) (e + 1) loc_Exact = (mrs1, e1 + 1)).
{ unfold shr_fexp in H1 |- *.
  replace (fexp prec emax (Zdigits2 (Zpos m) + (e + 1)) - (e + 1))
    with (fexp prec emax (Zdigits2 (Zpos m) + e) - e).
  - rewrite shr_shift, H1. reflexivity.
  - change (Zdigits2 (Zpos m)) with d.
    unfold fexp, SpecFloat.emin, prec, emax. lia. }
pose proof H1 as H1s.
apply shr_fexp_exact in H1s; [| lia]. cbv zeta in H1s.
change (Zdigits2 (Zpos m)) with d in H1s.
set (k1 := Z.max 0 (fexp prec emax (d + e) - e)) in *.
destruct H1s as (He1 & Hs1 & _).
pose proof (round_nearest_even_spec mrs1) as Hrne. cbv zeta in Hrne.
destruct Hrne as [Hm1b _].
assert (Hk1 : k1 = Z.max 0 (d - 53)).
{ unfold k1, fexp, SpecFloat.emin, prec, emax. lia. }
assert (Hk1d : 0 <= k1 <= d - 1) by lia.
assert (Hp1 : 0 < 2 ^ k1) by (apply Z.pow_pos_nonneg; lia).
assert (Hq : 2 ^ (d - 1 - k1) <= shr_m mrs1).
{ rewrite Hs1. apply Z.div_le_lower_bound; [exact Hp1 |].
  rewrite <- Z.pow_add_r by lia.
  replace (k1 + (d - 1 - k1)) with (d - 1) by lia. exact Dlo. }
assert (Hq0 : 0 < 2 ^ (d - 1 - k1)) by (apply Z.pow_pos_nonneg; lia).
destruct (shr_fexp prec emax
            (round_nearest_even (shr_m mrs1) (loc_of_shr_record mrs1)) e1
            loc_Exact) as [mrs2 e2] eqn:H2.
assert (H2' : shr_fexp prec emax
                (round_nearest_even (shr_m mrs1) (loc_of_shr_record mrs1))
                (e1 + 1) loc_Exact = (mrs2, e2 + 1)).
{ destruct (round_nearest_even (shr_m mrs1) (loc_of_shr_record mrs1))
    as [| p1 | p1] eqn:Em1; try lia.
  assert (Hd1 : d - k1 <= Zpos (digits2_pos p1)).
  { pose proof (digits_bounds p1) as [_ D1].
    assert (Hlt : 2 ^ (d - 1 - k1) < 2 ^ Zpos (digits2_pos p1)) by lia.
    apply Z.pow_lt_mono_r_iff in Hlt; lia. }
  unfold shr_fexp in H2 |- *.
  replace (fexp prec emax (Zdigits2 (Zpos p1) + (e1 + 1)) - (e1 + 1))
    with (fexp prec emax (Zdigits2 (Zpos p1) + e1) - e1).
  - rewrite shr_shift, H2. reflexivity.
  - change (Zdigits2 (Zpos p1)) with (Zpos (digits2_pos p1)).
    unfold fexp, SpecFloat.emin, prec, emax. lia. }
rewrite (@round_aux_unfold s _ _ _ _ _ _ H1 H2),
  (@round_aux_unfold s _ _ _ _ _ _ H1' H2').
unfold emax, prec. simpl Z.sub.
destruct (shr_m mrs2) as [| p | p]; [reflexivity | | exact I].
destruct (e2 <=? 971) eqn:E2; [reflexivity | exact I].
Qed.

(** Rounding a mantissa that ends in enough zeros just drops them. *)
Lemma round_aux_exact (s : bool) (m q : positive) (e k : Z) :
  k = fexp prec emax (Zpos (digits2_pos m) + e) - e ->
  0 <= k -> Zpos m = Zpos q * 2 ^ k -> e + k <= 971 ->
  binary_round_aux prec emax s (Zpos m) e loc_Exact = S754_finite s q (e + k).
Proof.
intros Ek Hk Hm Hov.
destruct (shr_fexp prec emax (Zpos m) e loc_Exact) as [mrs1 e1] eqn:H1.
pose proof H1 as H1s.
apply shr_fexp_exact in H1s; [| lia]. cbv zeta in H1s.
change (Zdigits2 (Zpos m)) with (Zpos (digits2_pos m)) in H1s.
rewrite <- Ek, Z.max_r in H1s by exact Hk.
destruct H1s as (He1 & Hs1 & Hr1).
assert (Hp : 0 < 2 ^ k) by (apply Z.pow_pos_nonneg; lia).
assert (Hsq : shr_m mrs1 = Zpos q).
{ rewrite Hs1, Hm. apply Z.div_mul. lia. }
assert (Hex : (shr_r mrs1 || shr_s mrs1)%bool = false).
{ destruct (shr_r mrs1 || shr_s mrs1)%bool; [| reflexivity].
  exfalso. apply (Hr1 eq_refl). rewrite Hm. apply Z.mod_mul. lia. }
pose proof (round_nearest_even_spec mrs1) as [_ Hrne].
specialize (Hrne Hex).
assert (Hdq : Zpos (digits2_pos q) = Zpos (digits2_pos m) - k).
{ apply digits_div; [exact Hk |]. rewrite Hm. symmetry. apply Z.div_mul. lia. }
destruct (shr_fexp prec emax
            (round_nearest_even (shr_m mrs1) (loc_of_shr_record mrs1)) e1
            loc_Exact) as [mrs2 e2] eqn:H2.
rewrite (@round_aux_unfold s _ _ _ _ _ _ H1 H2).
rewrite Hrne, Hsq in H2.
apply shr_fexp_exact in H2; [| lia]. cbv zeta in H2.
change (Zdigits2 (Zpos q)) with (Zpos (digits2_pos q)) in H2.
assert (Hk2 : Z.max 0 (fexp prec emax (Zpos (digits2_pos q) + e1) - e1) = 0).
{ rewrite Hdq, He1.
  replace (Zpos (digits2_pos m) - k + (e + k)) with (Zpos (digits2_pos m) + e)
    by lia.
  lia. }
rewrite Hk2 in H2. destruct H2 as (He2 & Hs2 & _).
rewrite Z.div_1_r in Hs2. rewrite Hs2.
replace e2 with (e + k) by lia.
unfold emax, prec. simpl Z.sub.
destruct (Z.leb_spec (e + k) 971); [reflexivity | lia].
Qed.

(** Twice a normal float has the same mantissa and the next exponent. *)
Lemma double_normal (a : float) (s : bool) (m : positive) (e : Z) :
  Prim2SF a = S754_finite s m e ->
  Zpos (digits2_pos m) = 53 -> e + 1 <= 971 ->
  Prim2SF (2 * a) = S754_finite s m (e + 1).
Proof.
intros Ha Hd He. rewrite mul_spec, Ha.
change (Prim2SF 2) with (S754_finite false 4503599627370496 (-51)).
unfold SF64mul, SFmul. simpl xorb.
pose proof (Prim2SF_valid a) as Hv. rewrite Ha in Hv. simpl in Hv.
apply bounded_inv in Hv.
assert (Hdm : Zpos (digits2_pos (4503599627370496 * m)) = 105).
{ apply digits_unique; [| lia].
  pose proof (digits_bounds m) as [Dlo Dhi]. rewrite Hd in Dlo, Dhi.
  rewrite Pos2Z.inj_mul. change (Zpos 4503599627370496) with (2 ^ 52).
  change (2 ^ (105 - 1)) with (2 ^ 52 * 2 ^ 52).
  change (2 ^ 105) with (2 ^ 52 * 2 ^ 53).
  simpl Z.sub in Dlo. lia. }
rewrite (@round_aux_exact s (4503599627370496 * m) m (-51 + e) 52).
- f_equal. lia.
- rewrite Hdm. unfold fexp, SpecFloat.emin, prec, emax. lia.
- lia.
- rewrite Pos2Z.inj_mul. change (Zpos 4503599627370496) with (2 ^ 52). ring.
- lia.
Qed.

Lemma shiftl_double (m e : Z) :
  0 <= m -> 0 <= Z.shiftl m (e + 1) - 2 * Z.shiftl m e <= 1.
Proof.
intros Hm. destruct (Z_le_gt_dec 0 e) as [He | He].
- rewrite !Z.shiftl_mul_pow2 by lia. rewrite Z.pow_add_r by lia.
  change (2 ^ 1) with 2. lia.
- rewrite !Z.shiftl_div_pow2 by lia.
  set (k := - (e + 1)). replace (- e) with (k + 1) by (unfold k; lia).
  assert (Hk : 0 <= k) by (unfold k; lia).
  assert (Hp : 0 < 2 ^ k) by (apply Z.pow_pos_nonneg; lia).
  rewrite Z.pow_add_r by lia. change (2 ^ 1) with 2.
  rewrite <- Z.div_div by lia.
  pose proof (Z.div_mod (m / 2 ^ k) 2 ltac:(lia)) as Hdm.
  pose proof (Z.mod_pos_bound (m / 2 ^ k) 2 ltac:(lia)) as Hmod.
  lia.
Qed.

(** A float below 1 in magnitude has integer part 0. *)
Lemma int_tiny (x : float) (z : Z) (B : R) :
  B64.finite_le x B -> (B < 1)%R -> B64.int x = B64.Return z -> z = 0.
Proof.
unfold B64.finite_le, B64.int.
destruct (Prim2SF x) as [s | s | | s m e]; simpl; try contradiction.
- intros _ _ H. injection H as <-. reflexivity.
- intros HB H1 H. injection H as <-.
  pose proof (@shiftl_F2R (Zpos m) e ltac:(lia)) as [Hlo _].
  assert (H0 : 0 <= Z.shiftl (Zpos m) e) by (apply Z.shiftl_nonneg; lia).
  assert (Hlt : Z.shiftl (Zpos m) e < 1) by (apply lt_IZR; lra).
  assert (Hz : Z.shiftl (Zpos m) e = 0) by lia.
  rewrite Hz. destruct s; reflexivity.
Qed.


Lemma bpow_lt a b : a < b -> (B64.bpow a < B64.bpow b)%R.
Proof.
intros H. replace b with (a + (b - a)) by lia.
rewrite bpow_add, (@bpow_Z (b - a)) by lia.
assert (H1 : (1 < IZR (2 ^ (b - a)))%R).
{ apply IZR_lt.
  assert (2 ^ 1 <= 2 ^ (b - a)) by (apply Z.pow_le_mono_r; lia).
  change (2 ^ 1) with 2 in *. lia. }
pose proof (bpow_gt_0 a) as H0.
rewrite <- (Rmult_1_r (B64.bpow a)) at 1.
apply Rmult_lt_compat_l; lra.
Qed.

Lemma bpow_1 : B64.bpow 1 = 2%R.
Proof. unfold B64.bpow. simpl. lra. Qed.

Lemma bpow_0 : B64.bpow 0 = 1%R.
Proof. reflexivity. Qed.

Lemma bpow_le_inv a b : (B64.bpow a <= B64.bpow b)%R -> a <= b.
Proof.
intros H. destruct (Z_le_gt_dec a b) as [Hle | Hgt]; [exact Hle |].
assert (Hlt : b < a) by lia. apply bpow_lt in Hlt. lra.
Qed.

Lemma F2R_pow52 e : B64.F2R (Zpos 4503599627370496) e = B64.bpow (52 + e).
Proof.
change (Zpos 4503599627370496) with (2 ^ 52). apply F2R_pow. lia.
Qed.

Lemma F2R_lt_bpow (m : positive) (e : Z) :
  (B64.F2R (Zpos m) e < B64.bpow (Zpos (digits2_pos m) + e))%R.
Proof.
pose proof (digits_bounds m) as [_ Dhi].
rewrite <- F2R_pow by lia. apply F2R_lt. exact Dhi.
Qed.

Lemma F2R_ge_bpow (m : positive) (e : Z) :
  (B64.bpow (Zpos (digits2_pos m) - 1 + e) <= B64.F2R (Zpos m) e)%R.
Proof.
pose proof (digits_bounds m) as [Dlo _].
rewrite <- F2R_pow by lia. apply F2R_le. exact Dlo.
Qed.

Lemma finite_le_32767 : B64.finite_le 32767 32767.
Proof.
unfold B64.finite_le. rewrite Prim2SF_32767. simpl.
rewrite F2R_32767. lra.
Qed.

(** A product with 32767 that stays below 2^-1006 has integer part 0. *)
Lemma int_mul_32767_tiny (p : float) (z : Z) :
  B64.finite_le p (B64.bpow (-1021)) ->
  B64.int (p * 32767) = B64.Return z -> z = 0.
Proof.
intros Hp Hz.
assert (Hq : B64.finite_le (p * 32767)
               (B64.F2R (Zpos 4503599627370496) (-1058))).
{ apply mul_finite_le with (b := 0x1p-1006%float)
                           (Bx := B64.bpow (-1021)) (By := 32767%R).
  - exact Hp.
  - exact finite_le_32767.
  - reflexivity.
  - rewrite F2R_pow52. replace (52 + -1058) with (-1021 + 15) by lia.
    rewrite bpow_add. pose proof (bpow_gt_0 (-1021)) as H0.
    assert (H15 : B64.bpow 15 = 32768%R).
    { rewrite bpow_Z by lia. reflexivity. }
    rewrite H15. apply Rmult_le_compat_l; lra. }
apply int_tiny with (1 := Hq) (3 := Hz).
rewrite F2R_pow52. replace 1%R with (B64.bpow 0) by reflexivity.
apply bpow_lt. lia.
Qed.

(** The last two steps of the loop body, on a float and on its double. *)
Lemma int_mul_32767_double (p1 p2 : float) (s : bool) (m : positive) (e : Z)
    (z1 z2 : Z) :
  Prim2SF p1 = S754_finite s m e ->
  Prim2SF p2 = S754_finite s m (e + 1) ->
  B64.int (p1 * 32767) = B64.Return z1 ->
  B64.int (p2 * 32767) = B64.Return z2 ->
  -1 <= z2 - 2 * z1 <= 1.
Proof.
intros H1 H2 Hz1 Hz2.
set (mc := 9006924376834048%positive).
destruct (Z_le_gt_dec (-1074) (Zpos (digits2_pos (m * mc)) + (e + -38) - 53))
  as [Hun | Hcl].
- (* both products are rounded alike *)
  unfold B64.int in Hz1, Hz2. rewrite mul_spec in Hz1, Hz2.
  rewrite H1 in Hz1. rewrite H2 in Hz2. rewrite Prim2SF_32767 in Hz1, Hz2.
  unfold SF64mul, SFmul in Hz1, Hz2. fold mc in Hz1, Hz2.
  replace (e + 1 + -38) with (e + -38 + 1) in Hz2 by lia.
  pose proof (@round_aux_scale (xorb s false) (m * mc) (e + -38) Hun) as Hsc.
  destruct (binary_round_aux prec emax (xorb s false) (Zpos (m * mc))
              (e + -38) loc_Exact) as [s' | s' | | s' m' e'];
    try discriminate.
  + rewrite Hsc in Hz2. injection Hz1 as <-. injection Hz2 as <-. lia.
  + rewrite Hsc in Hz2. injection Hz1 as <-.
    destruct (e' + 1 <=? 971); [| discriminate]. injection Hz2 as <-.
    pose proof (@shiftl_double (Zpos m') e' ltac:(lia)) as Hd.
    destruct s'; unfold cond_Zopp; lia.
- (* both products are below 2^-1021 *)
  assert (Hv : (B64.F2R (Zpos m) e * 32767 < B64.bpow (-1022))%R).
  { rewrite <- F2R_32767, <- F2R_mul. fold mc.
    apply Rlt_le_trans with (1 := F2R_lt_bpow (m * mc) (e + -38)).
    apply bpow_le. lia. }
  pose proof (F2R_gt_0 m e) as Hm0.
  assert (Hp1 : B64.finite_le p1 (B64.bpow (-1021))).
  { unfold B64.finite_le. rewrite H1. cbn [B64.magnitude_le].
    assert (B64.bpow (-1022) <= B64.bpow (-1021))%R by (apply bpow_le; lia).
    lra. }
  assert (Hp2 : B64.finite_le p2 (B64.bpow (-1021))).
  { unfold B64.finite_le. rewrite H2. cbn [B64.magnitude_le].
    rewrite <- F2R_shift by lia. change (2 ^ 1) with 2.
    assert (H2m : B64.F2R (Zpos m * 2) e = (2 * B64.F2R (Zpos m) e)%R).
    { unfold B64.F2R. rewrite mult_IZR. ring. }
    rewrite H2m.
    replace (-1021) with (-1022 + 1) by lia. rewrite bpow_add.
    rewrite bpow_1. lra. }
  rewrite (@int_mul_32767_tiny p1 z1 Hp1 Hz1), (@int_mul_32767_tiny p2 z2 Hp2 Hz2).
  lia.
Qed.


Lemma finite_le_is_finite (x : float) (B : R) :
  B64.finite_le x B -> is_finite x = true.
Proof. intros H. apply is_finite_SF. exists B. exact H. Qed.

Lemma int_mul_32767_zero (p : float) (z : Z) :
  is_zero p = true -> B64.int (p * 32767) = B64.Return z -> z = 0.
Proof.
intros Hp Hz. apply int_zero with (2 := Hz).
apply mul_zero_l; [exact Hp | reflexivity].
Qed.

Lemma int_mul_32767_infinite (p : float) (z : Z) (s : bool) :
  Prim2SF p = S754_infinity s -> B64.int (p * 32767) = B64.Return z -> False.
Proof.
intros Hp. unfold B64.int. rewrite mul_spec, Hp, Prim2SF_32767. discriminate.
Qed.

(** Doubling the amplitude changes a sample to twice its value, up to
    one unit. *)
Lemma int_double_product (a s : float) (z1 z2 : Z) :
  B64.finite_le a 1 -> B64.finite_le s 1 ->
  B64.int (a * s * 32767) = B64.Return z1 ->
  B64.int (2 * a * s * 32767) = B64.Return z2 ->
  -1 <= z2 - 2 * z1 <= 1.
Proof.
intros Ha Hs Hz1 Hz2.
pose proof (@finite_le_is_finite a 1%R Ha) as Hfa.
pose proof (@finite_le_is_finite s 1%R Hs) as Hfs.
assert (Hf2a : is_finite (2 * a) = true).
{ destruct (@int_finite _ z2 Hz2) as [B2 HB2].
  apply mul_finite_inv in HB2. destruct HB2 as [[Bp2 Hp2] _].
  apply mul_finite_inv in Hp2. destruct Hp2 as [[Ba2 H2a] _].
  apply (@finite_le_is_finite _ _ H2a). }
assert (Hzero : forall p1 p2 : float,
          is_zero p1 = true -> is_zero p2 = true ->
          B64.int (p1 * 32767) = B64.Return z1 ->
          B64.int (p2 * 32767) = B64.Return z2 -> -1 <= z2 - 2 * z1 <= 1).
{ intros p1 p2 H1 H2 E1 E2.
  rewrite (@int_mul_32767_zero p1 z1 H1 E1), (@int_mul_32767_zero p2 z2 H2 E2).
  lia. }
assert (Htiny : forall p1 p2 : float,
          B64.finite_le p1 (B64.bpow (-1021)) ->
          B64.finite_le p2 (B64.bpow (-1021)) ->
          B64.int (p1 * 32767) = B64.Return z1 ->
          B64.int (p2 * 32767) = B64.Return z2 -> -1 <= z2 - 2 * z1 <= 1).
{ intros p1 p2 H1 H2 E1 E2.
  rewrite (@int_mul_32767_tiny p1 z1 H1 E1), (@int_mul_32767_tiny p2 z2 H2 E2).
  lia. }
assert (H21 : B64.bpow (-1021) = (2 * B64.bpow (-1022))%R).
{ replace (-1021) with (1 + -1022) by lia. rewrite bpow_add, bpow_1.
  reflexivity. }
pose proof (bpow_gt_0 (-1022)) as Hb0.
destruct (Prim2SF s) as [ss | ss | | ss ms es] eqn:ES;
  try (unfold B64.finite_le in Hs; rewrite ES in Hs; contradiction).
{ (* the sine is a zero *)
  assert (Hsz : is_zero s = true) by (apply is_zero_SF; now exists ss).
  apply Hzero with (p1 := (a * s)%float) (p2 := (2 * a * s)%float);
    try assumption.
  - apply mul_zero_r; assumption.
  - apply mul_zero_r; assumption. }
destruct (Prim2SF a) as [sa | sa | | sa ma ea] eqn:EA;
  try (unfold B64.finite_le in Ha; rewrite EA in Ha; contradiction).
{ (* the amplitude is a zero *)
  assert (Haz : is_zero a = true) by (apply is_zero_SF; now exists sa).
  assert (Ha2z : is_zero (2 * a) = true)
    by (apply mul_zero_r; [reflexivity | exact Haz]).
  apply Hzero with (p1 := (a * s)%float) (p2 := (2 * a * s)%float);
    try assumption; apply mul_zero_l; assumption. }
pose proof (Prim2SF_valid a) as Hva. rewrite EA in Hva. simpl in Hva.
pose proof (Prim2SF_valid s) as Hvs. rewrite ES in Hvs. simpl in Hvs.
pose proof (@bounded_inv ma ea Hva) as (Hda & Hea & Hna).
assert (HA : (B64.F2R (Zpos ma) ea <= 1)%R).
{ unfold B64.finite_le in Ha. rewrite EA in Ha. exact Ha. }
assert (HS : (B64.F2R (Zpos ms) es <= 1)%R).
{ unfold B64.finite_le in Hs. rewrite ES in Hs. exact Hs. }
pose proof (F2R_gt_0 ma ea) as HA0. pose proof (F2R_gt_0 ms es) as HS0.
assert (Hsfin : B64.finite_le s (B64.F2R (Zpos ms) es)).
{ unfold B64.finite_le. rewrite ES. simpl. lra. }
assert (Hafin : B64.finite_le a (B64.F2R (Zpos ma) ea)).
{ unfold B64.finite_le. rewrite EA. simpl. lra. }
assert (E1021 : B64.F2R (Zpos 4503599627370496) (-1073) = B64.bpow (-1021)).
{ rewrite F2R_pow52. f_equal. }
destruct (Z.eq_dec (Zpos (digits2_pos ma)) 53) as [Hnorm | Hsub].
- (* a normal amplitude *)
  assert (Hea1 : ea + 1 <= 971).
  { pose proof (F2R_ge_bpow ma ea) as Hge. rewrite Hnorm in Hge.
    assert (Hle : (B64.bpow (53 - 1 + ea) <= B64.bpow 0)%R).
    { replace (B64.bpow 0) with 1%R by reflexivity. lra. }
    apply bpow_le_inv in Hle. lia. }
  pose proof (@double_normal a sa ma ea EA Hnorm Hea1) as E2A.
  assert (H2afin : B64.finite_le (2 * a) (2 * B64.F2R (Zpos ma) ea)).
  { unfold B64.finite_le. rewrite E2A. cbn [B64.magnitude_le].
    rewrite <- F2R_shift by lia. change (2 ^ 1) with 2.
    unfold B64.F2R. rewrite mult_IZR. lra. }
  assert (EP1 : Prim2SF (a * s)
                = binary_round_aux prec emax (xorb sa ss) (Zpos (ma * ms))
                    (ea + es) loc_Exact).
  { rewrite mul_spec, EA, ES. reflexivity. }
  assert (EP2 : Prim2SF (2 * a * s)
                = binary_round_aux prec emax (xorb sa ss) (Zpos (ma * ms))
                    (ea + es + 1) loc_Exact).
  { rewrite mul_spec, E2A, ES. unfold SF64mul, SFmul. f_equal. lia. }
  destruct (Z_le_gt_dec (-1074) (Zpos (digits2_pos (ma * ms)) + (ea + es) - 53))
    as [Hun | Hcl].
  + pose proof (@round_aux_scale (xorb sa ss) (ma * ms) (ea + es) Hun) as Hsc.
    destruct (binary_round_aux prec emax (xorb sa ss) (Zpos (ma * ms))
                (ea + es) loc_Exact) as [s' | s' | | s' m' e'].
    * rewrite Hsc in EP2.
      apply Hzero with (p1 := (a * s)%float) (p2 := (2 * a * s)%float);
        try assumption; apply is_zero_SF; eexists; eassumption.
    * exfalso. apply (@int_mul_32767_infinite _ z1 s' EP1 Hz1).
    * exfalso. unfold B64.int in Hz1. rewrite mul_spec, EP1 in Hz1.
      discriminate.
    * rewrite Hsc in EP2. destruct (e' + 1 <=? 971).
      -- apply (@int_mul_32767_double _ _ s' m' e' z1 z2 EP1 EP2 Hz1 Hz2).
      -- exfalso. apply (@int_mul_32767_infinite _ z2 s' EP2 Hz2).
  + assert (Hx : (B64.F2R (Zpos ma) ea * B64.F2R (Zpos ms) es
                  < B64.bpow (-1022))%R).
    { rewrite <- F2R_mul.
      apply Rlt_le_trans with (1 := F2R_lt_bpow (ma * ms) (ea + es)).
      apply bpow_le. lia. }
    apply Htiny with (p1 := (a * s)%float) (p2 := (2 * a * s)%float);
      try assumption; rewrite <- E1021.
    * apply mul_finite_le with (b := 0x1p-1021%float)
        (Bx := B64.F2R (Zpos ma) ea) (By := B64.F2R (Zpos ms) es);
        try assumption; [reflexivity | rewrite E1021; lra].
    * apply mul_finite_le with (b := 0x1p-1021%float)
        (Bx := (2 * B64.F2R (Zpos ma) ea)%R) (By := B64.F2R (Zpos ms) es);
        try assumption; [reflexivity | rewrite E1021; lra].
- (* a subnormal amplitude *)
  assert (Hlt : (B64.F2R (Zpos ma) ea < B64.bpow (-1022))%R).
  { apply Rlt_le_trans with (1 := F2R_lt_bpow ma ea). apply bpow_le. lia. }
  assert (H2a : B64.finite_le (2 * a) (B64.bpow (-1021))).
  { rewrite <- E1021.
    apply mul_finite_le with (b := 0x1p-1021%float) (Bx := 2%R)
                             (By := B64.F2R (Zpos ma) ea);
      try assumption; [| reflexivity | rewrite E1021; lra].
    unfold B64.finite_le.
    change (Prim2SF 2) with (S754_finite false 4503599627370496 (-51)).
    cbn [B64.magnitude_le]. rewrite F2R_pow52.
    change (52 + -51) with 1. rewrite bpow_1. lra. }
  apply Htiny with (p1 := (a * s)%float) (p2 := (2 * a * s)%float);
    try assumption; rewrite <- E1021.
  * apply mul_finite_le with (b := 0x1p-1021%float)
      (Bx := B64.F2R (Zpos ma) ea) (By := 1%R);
      try assumption; [reflexivity | rewrite E1021; lra].
  * apply mul_finite_le with (b := 0x1p-1021%float)
      (Bx := B64.bpow (-1021)) (By := 1%R);
      try assumption; [reflexivity | rewrite E1021; lra].
Qed.

End F64.

(** * The synthesis in binary64 *)

Section B64Synthesis.

Variable libm_sin : float -> float.

Local Open Scope Z_scope.

Lemma math_sin_inv (x s : float) :
  B64.math_sin libm_sin x = B64.Return s -> s = libm_sin x.
Proof.
unfold B64.math_sin.
destruct (is_nan (libm_sin x) && negb (is_nan x))%bool; [discriminate |].
destruct (is_infinity (libm_sin x) && is_finite x)%bool; [discriminate |].
intros H. injection H as <-. reflexivity.
Qed.

Lemma sample_int_inv (f : float) (sr : Z) (a : float) (i z : Z) :
  B64.sample_int libm_sin f sr a i = B64.Return z ->
  exists t s,
    B64.truediv i sr = B64.Return t /\
    B64.math_sin libm_sin (2 * B64.math_pi * f * t) = B64.Return s /\
    B64.int (a * s * 32767) = B64.Return z.
Proof.
unfold B64.sample_int, B64.bind.
destruct (B64.truediv i sr) as [t |] eqn:Ht; [| discriminate].
destruct (B64.math_sin libm_sin (2 * B64.math_pi * f * t)) as [s |] eqn:Hs;
  [| discriminate].
intros H. exists t, s. repeat split; assumption.
Qed.

Lemma for_samples_inv (f : float) (sr : Z) (a : float)
    (indices acc buf : list Z) :
  B64.for_samples libm_sin f sr a indices acc = B64.Return buf ->
  exists zs,
    buf = acc ++ zs /\
    Forall2 (fun i z => B64.sample_int libm_sin f sr a i = B64.Return z)
      indices zs.
Proof.
revert acc. induction indices as [| i rest IH]; intros acc; simpl.
- intros H. injection H as <-. exists []. split; [now rewrite app_nil_r | constructor].
- unfold B64.bind at 1.
  destruct (B64.sample_int libm_sin f sr a i) as [z |] eqn:Hz; [| discriminate].
  intros H. apply IH in H. destruct H as (zs & -> & Hzs).
  exists (z :: zs). split.
  + now rewrite <- app_assoc.
  + constructor; assumption.
Qed.

Lemma for_samples_intro (f : float) (sr : Z) (a : float)
    (indices acc zs : list Z) :
  Forall2 (fun i z => B64.sample_int libm_sin f sr a i = B64.Return z)
    indices zs ->
  B64.for_samples libm_sin f sr a indices acc = B64.Return (acc ++ zs).
Proof.
intros H. revert acc. induction H as [| i z rest zs Hz _ IH]; intros acc; simpl.
- now rewrite app_nil_r.
- rewrite Hz. simpl. rewrite IH, <- app_assoc. reflexivity.
Qed.

Lemma generate_samples_inv (f d : float) (sr : Z) (a : float) (buf : list Z) :
  B64.generate_samples libm_sin f d sr a = B64.Return buf ->
  exists n,
    B64.num_samples sr d = B64.Return n /\
    Forall2 (fun i z => B64.sample_int libm_sin f sr a i = B64.Return z)
      (Py.range n) buf.
Proof.
unfold B64.generate_samples, B64.bind.
destruct (B64.num_samples sr d) as [n |] eqn:Hn; [| discriminate].
intros H. apply for_samples_inv in H. destruct H as (zs & -> & Hzs).
exists n. split; [reflexivity | exact Hzs].
Qed.

Lemma num_samples_inv (sr : Z) (d : float) (n : Z) :
  B64.num_samples sr d = B64.Return n ->
  exists r, B64.to_float sr = B64.Return r /\
            B64.int (r * d) = B64.Return n.
Proof.
unfold B64.num_samples, B64.bind.
destruct (B64.to_float sr) as [r |] eqn:Hr; [| discriminate].
intros H. exists r. split; [reflexivity | exact H].
Qed.

Lemma Forall2_nth (A B : Type) (P : A -> B -> Prop) (l : list A)
    (l' : list B) (k : nat) (da : A) (db : B) :
  Forall2 P l l' -> (k < List.length l')%nat -> P (nth k l da) (nth k l' db).
Proof.
intros H. revert k. induction H as [| x y l l' Hxy _ IH]; intros k Hk.
- simpl in Hk. lia.
- destruct k as [| k]; simpl; [exact Hxy |]. apply IH. simpl in Hk. lia.
Qed.

Lemma generate_samples_length (f d : float) (sr : Z) (a : float)
    (buf : list Z) (n : Z) :
  B64.generate_samples libm_sin f d sr a = B64.Return buf ->
  B64.num_samples sr d = B64.Return n ->
  List.length buf = Z.to_nat n.
Proof.
intros H Hn. apply generate_samples_inv in H. destruct H as (n' & Hn' & Hf).
rewrite Hn in Hn'. injection Hn' as <-.
apply Forall2_length in Hf. rewrite <- Hf. apply range_length.
Qed.

Lemma generate_samples_nth (f d : float) (sr : Z) (a : float)
    (buf : list Z) (k : nat) :
  B64.generate_samples libm_sin f d sr a = B64.Return buf ->
  (k < List.length buf)%nat ->
  B64.sample_int libm_sin f sr a (Z.of_nat k) = B64.Return (nth k buf 0).
Proof.
intros H Hk. apply generate_samples_inv in H. destruct H as (n & Hn & Hf).
pose proof (Forall2_length Hf) as Hlen. rewrite range_length in Hlen.
pose proof (@Forall2_nth _ _ _ _ _ k 0 0 Hf Hk) as Hnth.
cbv beta in Hnth. rewrite range_nth in Hnth by lia. exact Hnth.
Qed.

(** The sign of the number of samples. *)
Lemma num_samples_sign (sr : Z) (d : float) (n : Z) :
  0 < sr -> B64.num_samples sr d = B64.Return n ->
  ((0 <? d)%float = true -> 0 <= n) /\ ((d <=? 0)%float = true -> n <= 0).
Proof.
intros Hsr Hn. apply num_samples_inv in Hn. destruct Hn as (r & Hr & Hn).
destruct (F64.to_float_positive Hsr Hr) as (m & e & HR).
unfold B64.int in Hn. rewrite mul_spec in Hn.
rewrite ltb_spec, leb_spec. change (Prim2SF 0) with (S754_zero false).
unfold SFltb, SFleb.
destruct (Prim2SF d) as [sd | sd | | sd md ed];
  destruct HR as [HR | HR]; rewrite HR in Hn; simpl in Hn |- *;
  try discriminate;
  try (injection Hn as <-; split; intros _; lia);
  try (destruct sd; discriminate).
pose proof (F64.round_aux_shape sd (m * md) (e + ed)) as Hsh.
destruct (binary_round_aux prec emax sd (Zpos (m * md)) (e + ed)
            loc_Exact) as [s | s | | s m' e']; try discriminate;
  injection Hn as <-; subst s.
- split; intros _; lia.
- assert (H0 : 0 <= Z.shiftl (Zpos m') e') by (apply Z.shiftl_nonneg; lia).
  destruct sd; simpl; split; intros H; try discriminate; lia.
Qed.


Hypothesis sine : B64.libm_sine libm_sin.

(** A sine that enters a finite product is within [-1, 1]. *)
Lemma math_sin_finite_le (x s : float) (B : R) :
  B64.math_sin libm_sin x = B64.Return s ->
  B64.finite_le s B -> B64.finite_le s 1.
Proof.
intros Hs HB. apply math_sin_inv in Hs.
destruct (B64.sin_range sine x) as [Hle | Hnan].
- rewrite <- Hs in Hle. rewrite <- F64.F2R_one.
  apply F64.leb_abs_finite_le with (1 := Hle). apply F64.Prim2SF_one.
- rewrite <- Hs in Hnan. rewrite (@F64.finite_le_not_nan s B HB) in Hnan.
  discriminate.
Qed.

(** Doubling the amplitude doubles a sample, up to one unit. *)
Lemma sample_int_double (f : float) (sr : Z) (a : float) (i z1 z2 : Z) :
  (abs a <=? 1)%float = true ->
  B64.sample_int libm_sin f sr a i = B64.Return z1 ->
  B64.sample_int libm_sin f sr (2 * a) i = B64.Return z2 ->
  -1 <= z2 - 2 * z1 <= 1.
Proof.
intros Ha H1 H2.
apply sample_int_inv in H1. destruct H1 as (t & s & Ht & Hs & Hz1).
apply sample_int_inv in H2. destruct H2 as (t' & s' & Ht' & Hs' & Hz2).
rewrite Ht in Ht'. injection Ht' as <-.
rewrite Hs in Hs'. injection Hs' as <-.
destruct (@F64.int_finite _ z1 Hz1) as [B HB].
apply F64.mul_finite_inv in HB. destruct HB as [[Bp HBp] _].
apply F64.mul_finite_inv in HBp. destruct HBp as [_ [Bs HBs]].
apply F64.int_double_product with (a := a) (s := s); try assumption.
- rewrite <- F64.F2R_one.
  apply F64.leb_abs_finite_le with (1 := Ha). apply F64.Prim2SF_one.
- apply math_sin_finite_le with (1 := Hs) (2 := HBs).
Qed.

(** With an amplitude in [-1, 1], a sample that the loop body returns is
    within [-32767, 32767]. *)
Lemma sample_int_range (f : float) (sr : Z) (a : float) (i z : Z) :
  (abs a <=? 1)%float = true ->
  B64.sample_int libm_sin f sr a i = B64.Return z ->
  -32767 <= z <= 32767.
Proof.
intros Ha Hz. apply sample_int_inv in Hz. destruct Hz as (t & s & _ & Hs & Hz).
apply math_sin_inv in Hs.
change (- (32767) <= z <= 32767).
apply F64.int_finite_le with (1 := Hz).
destruct (@F64.int_finite _ z Hz) as [B HB].
apply F64.mul_finite_inv in HB. destruct HB as [[Bp HBp] _].
apply F64.mul_finite_inv in HBp. destruct HBp as [_ [Bs HBs]].
assert (Hs1 : B64.finite_le s 1).
{ destruct (B64.sin_range sine (2 * B64.math_pi * f * t)) as [Hle | Hnan].
  - rewrite <- Hs in Hle. rewrite <- F64.F2R_one.
    apply F64.leb_abs_finite_le with (1 := Hle). apply F64.Prim2SF_one.
  - rewrite <- Hs in Hnan. rewrite (@F64.finite_le_not_nan s Bs HBs) in Hnan.
    discriminate. }
assert (Ha1 : B64.finite_le a 1).
{ rewrite <- F64.F2R_one.
  apply F64.leb_abs_finite_le with (1 := Ha). apply F64.Prim2SF_one. }
assert (Hp1 : B64.finite_le (a * s) 1).
{ rewrite <- F64.F2R_one.
  apply F64.mul_finite_le with (b := 1%float) (Bx := 1%R) (By := 1%R);
    try assumption; [apply F64.Prim2SF_one | rewrite F64.F2R_one; lra]. }
rewrite <- F64.F2R_32767.
apply F64.mul_finite_le with (b := 32767%float) (Bx := 1%R) (By := 32767%R).
- exact Hp1.
- unfold B64.finite_le. rewrite F64.Prim2SF_32767. simpl.
  rewrite F64.F2R_32767. lra.
- apply F64.Prim2SF_32767.
- rewrite F64.F2R_32767. lra.
Qed.



Lemma generate_samples_range (f d : float) (sr : Z) (a : float)
    (buf : list Z) :
  (abs a <=? 1)%float = true ->
  B64.generate_samples libm_sin f d sr a = B64.Return buf ->
  Forall (fun z => -32767 <= z <= 32767) buf.
Proof.
intros Ha H. apply generate_samples_inv in H. destruct H as (n & _ & Hf).
induction Hf as [| i z l l' Hz _ IH]; constructor.
- apply sample_int_range with (2 := Hz). exact Ha.
- exact IH.
Qed.

Lemma valid_abs_amplitude (spec : B64.ToneSpec) :
  B64.valid spec -> (abs (B64.amplitude spec) <=? 1)%float = true.
Proof.
intros (_ & _ & _ & Ha0 & Ha1). rewrite F64.abs_positive; assumption.
Qed.

End B64Synthesis.

(** The Taylor sine is a sine in the sense of [B64.libm_sine]. *)
Lemma SFltb_clamp (s : bool) (m : positive) (e : Z) (p : positive) (k : Z) :
  SFltb (S754_finite s m e) (S754_finite true p k) = false ->
  SFltb (S754_finite false p k) (S754_finite s m e) = false ->
  SFleb (S754_finite false m e) (S754_finite false p k) = true.
Proof.
unfold SFltb, SFleb, SFcompare.
change (Pos.compare_cont Eq p m) with (Pos.compare p m).
change (Pos.compare_cont Eq m p) with (Pos.compare m p).
rewrite (Z.compare_antisym e k), (Pos.compare_antisym m p).
destruct s; destruct (e ?= k)%Z; destruct (m ?= p)%positive; simpl;
  intros H1 H2; try discriminate; reflexivity.
Qed.

Lemma clamp1_range (y : float) :
  (abs (B64.clamp1 y) <=? 1)%float = true \/ is_nan (B64.clamp1 y) = true.
Proof.
unfold B64.clamp1.
destruct (y <? -1)%float eqn:Hlo; [left; reflexivity |].
destruct (1 <? y)%float eqn:Hhi; [left; reflexivity |].
rewrite ltb_spec in Hlo, Hhi.
destruct (is_nan y) eqn:Hn; [right; reflexivity | left].
rewrite leb_spec, abs_spec.
assert (Hy : Prim2SF y <> S754_nan).
{ intros E. apply F64.is_nan_SF in E. congruence. }
change (Prim2SF (-1)) with (S754_finite true 4503599627370496 (-52)) in Hlo.
rewrite F64.Prim2SF_one in Hhi |- *.
destruct (Prim2SF y) as [s | s | | s m e]; try congruence.
- reflexivity.
- destruct s; discriminate.
- apply SFltb_clamp with (s := s); assumption.
Qed.

Lemma taylor_sin_sine : B64.libm_sine B64.taylor_sin.
Proof.
split; intros x.
- unfold B64.taylor_sin.
  destruct (is_zero x) eqn:Hz.
  + left. apply F64.is_zero_SF in Hz. destruct Hz as [s Hs].
    rewrite leb_spec, abs_spec, Hs. reflexivity.
  + destruct (negb (is_finite x)); [right; reflexivity | apply clamp1_range].
- intros Hz. unfold B64.taylor_sin. rewrite Hz. exact Hz.
Qed.

(** * The claims *)

(** ** The synthesized buffer, index by index *)


Lemma valid_tone_c1 : valid tone_c1.
Proof. unfold valid, tone_c1; simpl. repeat split; try lra; lia. Qed.

Lemma valid_tone_quarter (a : R) : (0 < a <= 1)%R -> valid (tone_quarter a).
Proof. intros Ha. unfold valid, tone_quarter; simpl. repeat split; try lra; lia. Qed.

Lemma sample_value_half (frequency : R) (sample_rate : Z) (amplitude : R)
    (i : Z) :
  (4 * frequency * IZR i = 2 * IZR sample_rate)%R ->
  IZR sample_rate <> 0%R ->
  sample_value frequency sample_rate amplitude i = 0%Z.
Proof.
  intros Hq Hsr. unfold sample_value.
  rewrite (angle_quarters _ _ Hq Hsr).
  replace (2 * (PI / 2))%R with PI by field.
  rewrite sin_PI, Rmult_0_r, Rmult_0_l. apply (int_IZR 0).
Qed.

(** The one-second tone at 4 samples per second has four samples. *)
Lemma synthesize_tone_quarter (a : R) :
  synthesize (tone_quarter a)
  = Ok [0%Z; Py.int (a * 32767)%R; 0%Z; Py.int (- (a * 32767))%R].
Proof.
  rewrite synthesize_ok. unfold tone_quarter.
  cbn [frequency duration sample_rate amplitude].
  assert (num_samples 4 1 = 4%Z) as ->.
  { unfold num_samples. rewrite Rmult_1_r. apply int_IZR. }
  change (Py.range 4) with [0; 1; 2; 3]%Z. cbn [map].
  rewrite sample_value_0.
  rewrite (@sample_value_quarter 1 4 a 1) by lra.
  rewrite (@sample_value_half 1 4 a 2) by lra.
  rewrite (@sample_value_three_quarters 1 4 a 3) by lra.
  reflexivity.
Qed.

(** ** C1: the length of the synthesized buffer *)

(** C1, as stated, fails: with sample_rate = 44100 and duration = 0.4375
    the product is 19293.75, which rounds to 19294, but the buffer has
    19293 samples. *)
Lemma C1_length_is_not_round :
  valid tone_c1 /\
  exists buf, synthesize tone_c1 = Ok buf /\
    Z.of_nat (List.length buf)
    <> round (IZR (sample_rate tone_c1) * duration tone_c1)%R.
Proof.
  split; [exact valid_tone_c1|].
  eexists. split; [apply synthesize_ok|].
  rewrite length_map, range_length.
  unfold tone_c1. cbn [sample_rate duration].
  assert (num_samples 44100 (7 / 16) = 19293%Z) as ->.
  { unfold num_samples. apply int_eq_nonneg; lra. }
  assert (round (44100 * (7 / 16)) = 19294%Z) as ->.
  { apply round_eq_up. lra. }
  lia.
Qed.

(** C1, amended: whenever the synthesis returns a buffer, its length is
    int(sample_rate * duration): the binary64 product of the float of the
    sample rate and the duration, truncated toward zero (not rounded); for a
    valid ToneSpec this is a non-negative number, the length itself. *)
Theorem C1_length_is_truncated_product (libm_sin : float -> float)
    (spec : B64.ToneSpec) (buf : list Z) :
  B64.synthesize libm_sin spec = B64.Return buf ->
  exists r n,
    B64.to_float (B64.sample_rate spec) = B64.Return r /\
    B64.int (r * B64.duration spec) = B64.Return n /\
    n = Py.int (B64.B2R (r * B64.duration spec)) /\
    List.length buf = Z.to_nat n /\
    (B64.valid spec -> Z.of_nat (List.length buf) = n).
Proof.
  unfold B64.synthesize. intros H.
  destruct (@generate_samples_inv _ _ _ _ _ _ H) as (n & Hn & _).
  destruct (@num_samples_inv _ _ _ Hn) as (r & Hr & Hint).
  exists r, n. split; [exact Hr|]. split; [exact Hint|].
  split; [now apply F64.int_B2R|].
  pose proof (@generate_samples_length _ _ _ _ _ _ _ H Hn) as Hlen.
  split; [exact Hlen|].
  intros (_ & Hd & Hsr & _).
  destruct (@num_samples_sign _ _ _ Hsr Hn) as [Hpos _].
  specialize (Hpos Hd). lia.
Qed.

Lemma C1_length_is_truncated_product_witness :
  B64.synthesize B64.taylor_sin B64.tone_029
  = B64.Return B64.tone_029_samples /\
  exists r n,
    B64.to_float (B64.sample_rate B64.tone_029) = B64.Return r /\
    B64.int (r * B64.duration B64.tone_029) = B64.Return n /\
    n = Py.int (B64.B2R (r * B64.duration B64.tone_029)) /\
    List.length B64.tone_029_samples = Z.to_nat n /\
    (B64.valid B64.tone_029
     -> Z.of_nat (List.length B64.tone_029_samples) = n).
Proof.
  split; [vm_compute; reflexivity|].
  apply (@C1_length_is_truncated_product B64.taylor_sin B64.tone_029).
  vm_compute. reflexivity.
Defined.

(** ** C2: the value of each sample *)

(** C2, as stated, fails: at a quarter period of the 1 Hz tone with
    amplitude 0.25 the scaled sine is 8191.75; the specification's rounding
    gives 8192, the code's sample is 8191. *)
Lemma C2_sample_is_not_rounded :
  valid (tone_quarter (1 / 4)) /\
  exists buf, synthesize (tone_quarter (1 / 4)) = Ok buf /\
    (1 < List.length buf)%nat /\
    nth 1 buf 0%Z <> spec_sample (tone_quarter (1 / 4)) 1.
Proof.
  split; [apply valid_tone_quarter; lra|].
  eexists. split; [apply synthesize_tone_quarter|].
  split; [simpl; lia|].
  cbn [nth]. unfold spec_sample, tone_quarter.
  cbn [frequency sample_rate amplitude].
  rewrite (@angle_quarters 1 4 1 1) by lra.
  rewrite Rmult_1_l, sin_PI2.
  assert (Py.int (1 / 4 * 32767) = 8191%Z) as ->.
  { apply int_eq_nonneg; lra. }
  assert (round (1 / 4 * 1 * 32767) = 8192%Z) as ->.
  { apply round_eq_up. lra. }
  discriminate.
Qed.

(** C2, amended: for every valid ToneSpec and every index i of a returned
    buffer, the i-th sample is int(amplitude * sin(2 pi frequency i /
    sample_rate) * 32767) as binary64 evaluates it: [t] is the rounded
    quotient i / sample_rate, [s] the value of [math.sin] at the rounded
    product 2 * pi * frequency * t, and the sample is the rounded product
    amplitude * s * 32767 truncated toward zero; no clamping is applied, and
    the value lies in [-32767, 32767] as it is. *)
Theorem C2_sample_is_truncated_binary64 (libm_sin : float -> float)
    (spec : B64.ToneSpec) (buf : list Z) (k : nat) :
  B64.libm_sine libm_sin ->
  B64.valid spec ->
  B64.synthesize libm_sin spec = B64.Return buf ->
  (k < List.length buf)%nat ->
  exists t s,
    B64.truediv (Z.of_nat k) (B64.sample_rate spec) = B64.Return t /\
    B64.math_sin libm_sin (2 * B64.math_pi * B64.frequency spec * t)
    = B64.Return s /\
    B64.int (B64.amplitude spec * s * 32767) = B64.Return (nth k buf 0%Z) /\
    nth k buf 0%Z = Py.int (B64.B2R (B64.amplitude spec * s * 32767)) /\
    (-32767 <= nth k buf 0 <= 32767)%Z.
Proof.
  intros Hsin Hv H Hk. unfold B64.synthesize in H.
  pose proof (@generate_samples_nth _ _ _ _ _ _ _ H Hk) as Hs.
  destruct (@sample_int_inv _ _ _ _ _ _ Hs) as (t & s & Ht & Hsn & Hint).
  exists t, s. split; [exact Ht|]. split; [exact Hsn|]. split; [exact Hint|].
  split; [now apply F64.int_B2R|].
  apply (@sample_int_range _ Hsin _ _ _ _ _ (valid_abs_amplitude Hv) Hs).
Qed.

Lemma C2_sample_is_truncated_binary64_witness :
  B64.libm_sine B64.taylor_sin /\
  B64.valid B64.tone_029 /\
  B64.synthesize B64.taylor_sin B64.tone_029
  = B64.Return B64.tone_029_samples /\
  (25 < List.length B64.tone_029_samples)%nat /\
  exists t s,
    B64.truediv (Z.of_nat 25) (B64.sample_rate B64.tone_029) = B64.Return t /\
    B64.math_sin B64.taylor_sin
      (2 * B64.math_pi * B64.frequency B64.tone_029 * t)
    = B64.Return s /\
    B64.int (B64.amplitude B64.tone_029 * s * 32767)
    = B64.Return (nth 25 B64.tone_029_samples 0%Z) /\
    nth 25 B64.tone_029_samples 0%Z
    = Py.int (B64.B2R (B64.amplitude B64.tone_029 * s * 32767)) /\
    (-32767 <= nth 25 B64.tone_029_samples 0 <= 32767)%Z.
Proof.
  assert (Hv : B64.valid B64.tone_029) by (repeat split).
  assert (Hs : B64.synthesize B64.taylor_sin B64.tone_029
               = B64.Return B64.tone_029_samples)
    by (vm_compute; reflexivity).
  assert (Hk : (25 < List.length B64.tone_029_samples)%nat) by (simpl; lia).
  split; [exact taylor_sin_sine|]. split; [exact Hv|]. split; [exact Hs|].
  split; [exact Hk|].
  exact (@C2_sample_is_truncated_binary64 B64.taylor_sin B64.tone_029
           B64.tone_029_samples 25 taylor_sin_sine Hv Hs Hk).
Defined.

(** ** C3: the amplitude and the 16-bit range *)

(** C3, as stated, fails: nothing clamps the amplitude.  With amplitude 2
    the product amplitude * 32767 is 65534, the sample at the quarter
    period is 65534, and packing it raises [struct.error]. *)
Lemma C3_amplitude_is_not_clamped :
  (32767 < amplitude (tone_quarter 2) * 32767)%R /\
  exists buf, synthesize (tone_quarter 2) = Ok buf /\
    nth 1 buf 0%Z = 65534%Z /\
    Struct.pack_h (nth 1 buf 0%Z) = Raise StructError /\
    fst (encode_wav buf (sample_rate (tone_quarter 2))) = Raise StructError.
Proof.
  split; [unfold tone_quarter; simpl; lra|].
  eexists. split; [apply synthesize_tone_quarter|].
  assert (Py.int (2 * 32767) = 65534%Z) as ->.
  { replace (2 * 32767)%R with (IZR 65534) by lra. apply int_IZR. }
  cbn [nth]. split; [reflexivity|]. split; [reflexivity|].
  unfold tone_quarter. cbn [sample_rate].
  change ([0; 65534; 0; Py.int (- (2 * 32767))]%Z)
    with ([0] ++ 65534 :: [0; Py.int (- (2 * 32767))])%Z.
  rewrite encode_wav_bad_sample; [reflexivity|lia|lia| |unfold int16; lia|simpl; lia].
  constructor; [unfold int16; lia|constructor].
Qed.

(** C3, amended: the amplitude is used as passed, without clamping.  For
    every call with -1 <= amplitude <= 1 the product amplitude * 32767 stays
    within the 16-bit range, and every sample of a returned buffer, computed
    from the amplitude as it was passed, lies in [-32767, 32767]. *)
Theorem C3_amplitude_used_as_passed (libm_sin : float -> float)
    (frequency duration : float) (sample_rate : Z) (amplitude : float)
    (buf : list Z) :
  B64.libm_sine libm_sin ->
  (abs amplitude <=? 1)%float = true ->
  B64.generate_samples libm_sin frequency duration sample_rate amplitude
  = B64.Return buf ->
  B64.finite_le (amplitude * 32767) 32767 /\
  Forall (fun z => (-32767 <= z <= 32767)%Z) buf /\
  forall k : nat, (k < List.length buf)%nat ->
    exists t s,
      B64.truediv (Z.of_nat k) sample_rate = B64.Return t /\
      B64.math_sin libm_sin (2 * B64.math_pi * frequency * t)
      = B64.Return s /\
      B64.int (amplitude * s * 32767) = B64.Return (nth k buf 0%Z).
Proof.
  intros Hsin Ha H. split; [|split].
  - rewrite <- F64.F2R_32767.
    apply F64.mul_finite_le with (b := 32767%float) (Bx := 1%R)
                                 (By := 32767%R).
    + rewrite <- F64.F2R_one.
      apply F64.leb_abs_finite_le with (1 := Ha). apply F64.Prim2SF_one.
    + unfold B64.finite_le. rewrite F64.Prim2SF_32767. simpl.
      rewrite F64.F2R_32767. lra.
    + apply F64.Prim2SF_32767.
    + rewrite F64.F2R_32767. lra.
  - apply (@generate_samples_range _ Hsin _ _ _ _ _ Ha H).
  - intros k Hk. apply sample_int_inv.
    apply (@generate_samples_nth _ _ _ _ _ _ _ H Hk).
Qed.

Lemma C3_amplitude_used_as_passed_witness :
  B64.libm_sine B64.taylor_sin /\
  (abs (-0.5) <=? 1)%float = true /\
  B64.generate_samples B64.taylor_sin 1 1 4 (-0.5)
  = B64.Return [0; -16383; 0; 16383]%Z /\
  B64.finite_le (-0.5 * 32767) 32767 /\
  Forall (fun z => (-32767 <= z <= 32767)%Z) [0; -16383; 0; 16383]%Z /\
  forall k : nat, (k < List.length [0; -16383; 0; 16383]%Z)%nat ->
    exists t s,
      B64.truediv (Z.of_nat k) 4 = B64.Return t /\
      B64.math_sin B64.taylor_sin (2 * B64.math_pi * 1 * t)
      = B64.Return s /\
      B64.int (-0.5 * s * 32767)
      = B64.Return (nth k [0; -16383; 0; 16383]%Z 0%Z).
Proof.
  assert (Ha : (abs (-0.5) <=? 1)%float = true) by reflexivity.
  assert (Hs : B64.generate_samples B64.taylor_sin 1 1 4 (-0.5)
               = B64.Return [0; -16383; 0; 16383]%Z)
    by (vm_compute; reflexivity).
  split; [exact taylor_sin_sine|]. split; [exact Ha|]. split; [exact Hs|].
  exact (@C3_amplitude_used_as_passed B64.taylor_sin 1 1 4 (-0.5)
           [0; -16383; 0; 16383]%Z taylor_sin_sine Ha Hs).
Defined.

(** ** C4: every sample fits 16 bits *)

(** C4: for every valid ToneSpec, every sample of the buffer that the
    synthesis returns lies in [-32768, 32767]. *)
Theorem C4_samples_in_int16_range (libm_sin : float -> float)
    (spec : B64.ToneSpec) (buf : list Z) :
  B64.libm_sine libm_sin ->
  B64.valid spec ->
  B64.synthesize libm_sin spec = B64.Return buf ->
  Forall (fun s => (-32768 <= s <= 32767)%Z) buf.
Proof.
  intros Hsin Hv H.
  pose proof (@generate_samples_range _ Hsin _ _ _ _ _
                (valid_abs_amplitude Hv) H) as Hr.
  apply Forall_impl with (2 := Hr). intros z Hz. lia.
Qed.

Lemma C4_samples_in_int16_range_witness :
  B64.libm_sine B64.taylor_sin /\
  B64.valid B64.tone_029 /\
  B64.synthesize B64.taylor_sin B64.tone_029
  = B64.Return B64.tone_029_samples /\
  Forall (fun s => (-32768 <= s <= 32767)%Z) B64.tone_029_samples.
Proof.
  assert (Hv : B64.valid B64.tone_029) by (repeat split).
  assert (Hs : B64.synthesize B64.taylor_sin B64.tone_029
               = B64.Return B64.tone_029_samples)
    by (vm_compute; reflexivity).
  split; [exact taylor_sin_sine|]. split; [exact Hv|]. split; [exact Hs|].
  exact (@C4_samples_in_int16_range B64.taylor_sin B64.tone_029
           B64.tone_029_samples taylor_sin_sine Hv Hs).
Defined.

(** ** C5: reading the encoded buffer back *)

(** C5, as stated, fails: the header of a WAV file holds the sample rate
    and the byte rate in 32 bits.  At 2^31 samples per second (1 Hz for
    2^-31 s, one sample) the byte rate does not fit: [wave] raises
    [struct.error] while writing the header, the file is left with the
    eight bytes RIFFRIFF, and these do not decode. *)
Lemma C5_large_rate_does_not_round_trip :
  valid tone_rate31 /\
  synthesize tone_rate31 = Ok [0%Z] /\
  encode_wav [0%Z] (sample_rate tone_rate31)
  = (Raise StructError, ["R"; "I"; "F"; "F"; "R"; "I"; "F"; "F"]%byte) /\
  decode_wav ["R"; "I"; "F"; "F"; "R"; "I"; "F"; "F"]%byte = None.
Proof.
  split; [|split; [|split]].
  - unfold valid, tone_rate31; simpl. repeat split; try lra; lia.
  - rewrite synthesize_ok. unfold tone_rate31.
    cbn [frequency duration sample_rate amplitude].
    assert (num_samples 2147483648 (/ 2147483648) = 1%Z) as ->.
    { unfold num_samples.
      replace (2147483648 * / 2147483648)%R with (IZR 1) by (field; lra).
      apply int_IZR. }
    change (Py.range 1) with [0%Z]. cbn [map].
    rewrite sample_value_0. reflexivity.
  - vm_compute. reflexivity.
  - vm_compute. reflexivity.
Qed.

(** C5, amended: for every valid ToneSpec whose sample rate and data length
    fit the 32-bit fields of the header (2 * sample_rate < 2^32 and
    36 + 2 * N < 2^32), the encoder produces a byte stream for the buffer
    the synthesis returns, and the reader gets back that buffer, sample for
    sample, as mono 16-bit audio at the given rate. *)
Theorem C5_decode_encode_roundtrip (libm_sin : float -> float)
    (spec : B64.ToneSpec) (buf : list Z) :
  B64.libm_sine libm_sin ->
  B64.valid spec ->
  B64.synthesize libm_sin spec = B64.Return buf ->
  (2 * B64.sample_rate spec < 4294967296)%Z ->
  (36 + 2 * Z.of_nat (List.length buf) < 4294967296)%Z ->
  exists bytes,
    encode_wav buf (B64.sample_rate spec) = (Ok tt, bytes) /\
    decode_wav bytes = Some (mkWav 1 (B64.sample_rate spec) 16 buf).
Proof.
  intros Hsin Hv H Hsr2 Hsize.
  assert (Hall : Forall int16 buf).
  { pose proof (@generate_samples_range _ Hsin _ _ _ _ _
                  (valid_abs_amplitude Hv) H) as Hr.
    apply Forall_impl with (2 := Hr). intros z Hz. unfold int16. lia. }
  destruct Hv as (_ & _ & Hsr & _).
  eexists. split; [apply encode_wav_ok; assumption|].
  apply decode_wav_header_frames; [lia|assumption|assumption].
Qed.

Lemma C5_decode_encode_roundtrip_witness :
  B64.libm_sine B64.taylor_sin /\
  B64.valid B64.tone_029 /\
  B64.synthesize B64.taylor_sin B64.tone_029
  = B64.Return B64.tone_029_samples /\
  (2 * B64.sample_rate B64.tone_029 < 4294967296)%Z /\
  (36 + 2 * Z.of_nat (List.length B64.tone_029_samples) < 4294967296)%Z /\
  exists bytes,
    encode_wav B64.tone_029_samples (B64.sample_rate B64.tone_029)
    = (Ok tt, bytes) /\
    decode_wav bytes
    = Some (mkWav 1 (B64.sample_rate B64.tone_029) 16 B64.tone_029_samples).
Proof.
  assert (Hv : B64.valid B64.tone_029) by (repeat split).
  assert (Hs : B64.synthesize B64.taylor_sin B64.tone_029
               = B64.Return B64.tone_029_samples)
    by (vm_compute; reflexivity).
  assert (H1 : (2 * B64.sample_rate B64.tone_029 < 4294967296)%Z)
    by (simpl; lia).
  assert (H2 : (36 + 2 * Z.of_nat (List.length B64.tone_029_samples)
                < 4294967296)%Z) by (simpl; lia).
  split; [exact taylor_sin_sine|]. split; [exact Hv|]. split; [exact Hs|].
  split; [exact H1|]. split; [exact H2|].
  exact (@C5_decode_encode_roundtrip B64.taylor_sin B64.tone_029
           B64.tone_029_samples taylor_sin_sine Hv Hs H1 H2).
Defined.

(** ** C7: non-positive duration or frequency *)






(** ** C8: the 440 Hz scenario *)




(** ** C9: doubling the amplitude *)

(** C9: for every valid ToneSpec with amplitude a, the buffers that the
    synthesis returns for a and for 2a have the same length, and at every
    index the sample for 2a is within one quantization step of twice the
    sample for a.  (Nothing is clamped, so this holds with or without
    2a <= 1.) *)
Theorem C9_amplitude_doubling (libm_sin : float -> float)
    (spec : B64.ToneSpec) (buf buf2 : list Z) :
  B64.libm_sine libm_sin ->
  B64.valid spec ->
  B64.synthesize libm_sin spec = B64.Return buf ->
  B64.synthesize libm_sin
    (B64.mkTone (B64.frequency spec) (B64.duration spec)
       (B64.sample_rate spec) (2 * B64.amplitude spec))
  = B64.Return buf2 ->
  List.length buf2 = List.length buf /\
  forall k : nat, (k < List.length buf)%nat ->
    (Z.abs (nth k buf2 0 - 2 * nth k buf 0) <= 1)%Z.
Proof.
  intros Hsin Hv H1 H2. unfold B64.synthesize in H1, H2.
  cbn [B64.frequency B64.duration B64.sample_rate B64.amplitude] in H2.
  destruct (@generate_samples_inv _ _ _ _ _ _ H1) as (n & Hn & _).
  pose proof (@generate_samples_length _ _ _ _ _ _ _ H1 Hn) as L1.
  pose proof (@generate_samples_length _ _ _ _ _ _ _ H2 Hn) as L2.
  split; [congruence|].
  intros k Hk.
  pose proof (@generate_samples_nth _ _ _ _ _ _ _ H1 Hk) as S1.
  assert (Hk2 : (k < List.length buf2)%nat) by congruence.
  pose proof (@generate_samples_nth _ _ _ _ _ _ _ H2 Hk2) as S2.
  pose proof (@sample_int_double _ Hsin _ _ _ _ _ _
                (valid_abs_amplitude Hv) S1 S2).
  lia.
Qed.

Lemma C9_amplitude_doubling_witness :
  B64.libm_sine B64.taylor_sin /\
  B64.valid (B64.tone_unit 0.25) /\
  B64.synthesize B64.taylor_sin (B64.tone_unit 0.25)
  = B64.Return [0; 8191; 0; -8191]%Z /\
  B64.synthesize B64.taylor_sin
    (B64.mkTone (B64.frequency (B64.tone_unit 0.25))
       (B64.duration (B64.tone_unit 0.25))
       (B64.sample_rate (B64.tone_unit 0.25))
       (2 * B64.amplitude (B64.tone_unit 0.25)))
  = B64.Return [0; 16383; 0; -16383]%Z /\
  List.length [0; 16383; 0; -16383]%Z = List.length [0; 8191; 0; -8191]%Z /\
  forall k : nat, (k < List.length [0; 8191; 0; -8191]%Z)%nat ->
    (Z.abs (nth k [0; 16383; 0; -16383] 0 - 2 * nth k [0; 8191; 0; -8191] 0)
     <= 1)%Z.
Proof.
  assert (Hv : B64.valid (B64.tone_unit 0.25)) by (repeat split).
  assert (H1 : B64.synthesize B64.taylor_sin (B64.tone_unit 0.25)
               = B64.Return [0; 8191; 0; -8191]%Z)
    by (vm_compute; reflexivity).
  assert (H2 : B64.synthesize B64.taylor_sin
                 (B64.mkTone (B64.frequency (B64.tone_unit 0.25))
                    (B64.duration (B64.tone_unit 0.25))
                    (B64.sample_rate (B64.tone_unit 0.25))
                    (2 * B64.amplitude (B64.tone_unit 0.25)))
               = B64.Return [0; 16383; 0; -16383]%Z)
    by (vm_compute; reflexivity).
  split; [exact taylor_sin_sine|]. split; [exact Hv|]. split; [exact H1|].
  split; [exact H2|].
  exact (@C9_amplitude_doubling B64.taylor_sin (B64.tone_unit 0.25)
           [0; 8191; 0; -8191]%Z [0; 16383; 0; -16383]%Z taylor_sin_sine Hv
           H1 H2).
Defined.


(** ** C10: the symmetric range and the packing step *)

(** C10: for every call with 0 < amplitude <= 1, every sample of the
    returned buffer lies in [-32767, 32767], so -32768 never occurs, and
    [struct.pack('<h', sample)] succeeds on every sample. *)
Theorem C10_symmetric_range_and_packing (libm_sin : float -> float)
    (frequency duration : float) (sample_rate : Z) (amplitude : float)
    (buf : list Z) :
  B64.libm_sine libm_sin ->
  (0 <? amplitude)%float = true -> (amplitude <=? 1)%float = true ->
  B64.generate_samples libm_sin frequency duration sample_rate amplitude
  = B64.Return buf ->
  Forall (fun s => (-32767 <= s <= 32767)%Z) buf /\
  Forall (fun s => s <> (-32768)%Z) buf /\
  Forall (fun s => Struct.pack_h s = Ok (Struct.le_bytes 2 s)) buf.
Proof.
  intros Hsin Ha0 Ha1 H.
  assert (Ha : (abs amplitude <=? 1)%float = true)
    by (rewrite F64.abs_positive; assumption).
  pose proof (@generate_samples_range _ Hsin _ _ _ _ _ Ha H) as Hr.
  split; [exact Hr|].
  split; apply Forall_impl with (2 := Hr); intros z Hz; [lia|].
  apply pack_h_ok. unfold int16. lia.
Qed.

Lemma C10_symmetric_range_and_packing_witness :
  B64.libm_sine B64.taylor_sin /\
  (0 <? 0.5)%float = true /\ (0.5 <=? 1)%float = true /\
  B64.generate_samples B64.taylor_sin 1 1 4 0.5
  = B64.Return [0; 16383; 0; -16383]%Z /\
  Forall (fun s => (-32767 <= s <= 32767)%Z) [0; 16383; 0; -16383]%Z /\
  Forall (fun s => s <> (-32768)%Z) [0; 16383; 0; -16383]%Z /\
  Forall (fun s => Struct.pack_h s = Ok (Struct.le_bytes 2 s))
    [0; 16383; 0; -16383]%Z.
Proof.
  assert (Hs : B64.generate_samples B64.taylor_sin 1 1 4 0.5
               = B64.Return [0; 16383; 0; -16383]%Z)
    by (vm_compute; reflexivity).
  split; [exact taylor_sin_sine|].
  split; [reflexivity|]. split; [reflexivity|]. split; [exact Hs|].
  exact (@C10_symmetric_range_and_packing B64.taylor_sin 1 1 4 0.5
           [0; 16383; 0; -16383]%Z taylor_sin_sine eq_refl eq_refl Hs).
Defined.

(** * Properties of the scripts *)

(** [str] of an [int], on three values. *)
Example str_int_examples :
  str_int 30 = "30"%string /\ str_int 0 = "0"%string
  /\ str_int (-5) = "-5"%string.
Proof. repeat split; reflexivity. Qed.

(** ** Writing all frames at once *)

Section AtOnce.
Local Open Scope Z_scope.

Lemma wav_header_length (sr dl : Z) : List.length (wav_header sr dl) = 44%nat.
Proof. reflexivity. Qed.

Lemma patchheader_header_state (sr nfr nfw dl : Z) (data : list byte) :
  36 + Z.of_nat (List.length data) < 4294967296 ->
  _patchheader (header_state sr nfr nfw dl data)
  = (Ok tt, header_state sr nfr nfw (Z.of_nat (List.length data)) data).
Proof.
  intros Hsize. unfold _patchheader, header_state.
  cbn [wbind get datawritten datalength].
  destruct (Z.eqb_spec (Z.of_nat (List.length data)) dl) as [<- | Hne].
  - reflexivity.
  - wave_run. rewrite !pack_L_ok by lia.
    wave_cbn. list_cbn. reflexivity.
Qed.

Lemma close_header_state (sr nfr nfw dl : Z) (data : list byte) :
  36 + Z.of_nat (List.length data) < 4294967296 ->
  close (header_state sr nfr nfw dl data)
  = (Ok tt, header_state sr nfr nfw (Z.of_nat (List.length data)) data).
Proof.
  intros Hsize. unfold close, _ensure_header_written.
  unfold header_state at 1. cbn [wbind get headerwritten ret datalength datawritten].
  fold (header_state sr nfr nfw dl data).
  destruct (Z.eqb_spec dl (Z.of_nat (List.length data))) as [-> | Hne].
  - reflexivity.
  - cbn [negb]. now apply patchheader_header_state.
Qed.

Lemma writeframes_configured (sr : Z) (data : list byte) :
  0 < sr -> 2 * sr < 4294967296 ->
  36 + Z.of_nat (List.length data) < 4294967296 ->
  exists nfr nfw,
    writeframes data (configured sr)
    = (Ok tt, header_state sr nfr nfw (Z.of_nat (List.length data)) data).
Proof.
  intros Hsr Hsr2 Hsize.
  set (L := Z.of_nat (List.length data)) in *.
  assert (0 <= L) as HL by (subst L; lia).
  assert (0 <= L / (1 * 2) < 2147483630) as Hdiv.
  { change (1 * 2) with 2. split; [apply Z.div_pos; lia|].
    apply Z.div_lt_upper_bound; lia. }
  exists (L / (1 * 2)), (0 + L / (2 * 1)).
  unfold writeframes, writeframesraw, _ensure_header_written. fold L.
  unfold configured. wave_run. fold (configured sr).
  rewrite write_header_ok by assumption.
  unfold floordiv. wave_run.
  rewrite firstn_all2, skipn_all2, app_nil_r by (rewrite wav_header_length; lia).
  rewrite Z.add_0_l. fold L.
  change {| file := _; nchannels := 1; sampwidth := 2; framerate := sr;
            nframes := L / (1 * 2); nframeswritten := 0 + L / (2 * 1);
            datawritten := L; datalength := L / (1 * 2) * 1 * 2;
            headerwritten := true; form_length_pos := 4;
            data_length_pos := 40 |}
    with (header_state sr (L / (1 * 2)) (0 + L / (2 * 1))
            (L / (1 * 2) * 1 * 2) data).
  destruct (Z.eqb_spec (L / (1 * 2) * 1 * 2) L) as [-> | Hne].
  - reflexivity.
  - cbn [negb]. apply patchheader_header_state. exact Hsize.
Qed.

(** The whole [with] block that writes [data] in one call. *)
Lemma write_wav_at_once_ok (data : list byte) (sr : Z) :
  0 < sr -> 2 * sr < 4294967296 ->
  36 + Z.of_nat (List.length data) < 4294967296 ->
  write_wav_at_once data sr
  = (Ok tt, wav_header sr (Z.of_nat (List.length data)) ++ data).
Proof.
  intros Hsr Hsr2 Hsize. unfold write_wav_at_once, with_open.
  rewrite setters_ok by assumption.
  destruct (writeframes_configured data Hsr Hsr2 Hsize) as (nfr & nfw & ->).
  rewrite close_header_state by assumption. reflexivity.
Qed.

(** X1: Writing the frames of a 16-bit buffer with one writeframes call,
    as generate_test_tones.py and continuous_tone.py do, leaves byte for
    byte the file that generate_sine_wave's sample-by-sample loop leaves,
    whenever the samples, the sample rate and the data length fit. *)
Theorem write_wav_at_once_encode_wav (samples : list Z) (sr : Z) :
  0 < sr -> 2 * sr < 4294967296 ->
  Forall int16 samples ->
  36 + 2 * Z.of_nat (List.length samples) < 4294967296 ->
  write_wav_at_once (Np.tobytes samples) sr = encode_wav samples sr.
Proof.
  intros Hsr Hsr2 Hall Hsize. unfold Np.tobytes.
  rewrite write_wav_at_once_ok, encode_wav_ok; try assumption.
  - rewrite frames_of_length. do 3 f_equal. lia.
  - rewrite frames_of_length. lia.
Qed.
End AtOnce.

(** ** When [generate_sine_wave] raises and what it leaves behind *)

Section EncoderEdges.
Local Open Scope Z_scope.

Lemma int16_dec (z : Z) : {int16 z} + {~ int16 z}.
Proof.
  unfold int16.
  destruct (Z_le_dec (-32768) z); [|right; lia].
  destruct (Z_le_dec z 32767); [left; lia|right; lia].
Qed.

(** A list with a sample outside 16 bits splits at the first such sample. *)
Lemma first_bad_sample (samples : list Z) :
  ~ Forall int16 samples ->
  exists pre s post,
    samples = pre ++ s :: post /\ Forall int16 pre /\ ~ int16 s.
Proof.
  induction samples as [|x rest IH]; intros Hnot.
  - exfalso. apply Hnot. constructor.
  - destruct (int16_dec x) as [Hx | Hx].
    + destruct IH as (pre & s & post & -> & Hpre & Hs).
      { intros Hrest. apply Hnot. now constructor. }
      exists (x :: pre), s, post. repeat split; auto.
    + exists [], x, rest. repeat split; auto.
Qed.

Lemma encode_wav_ok_iff (samples : list Z) (sr : Z) :
  0 < sr ->
  fst (encode_wav samples sr) = Ok tt <->
  Forall int16 samples /\ 2 * sr < 4294967296 /\
  36 + 2 * Z.of_nat (List.length samples) < 4294967296.
Proof.
  intros Hsr. split.
  - intros Hok.
    destruct (encode_wav_ok_sizes samples Hsr Hok) as [Hsr2 Hsize].
    split; [|split; assumption].
    destruct (Forall_dec int16 int16_dec samples) as [Hall | Hnot];
      [assumption|exfalso].
    destruct (first_bad_sample Hnot) as (pre & s & post & -> & Hpre & Hs).
    rewrite encode_wav_bad_sample in Hok; try assumption; [discriminate|].
    rewrite length_app in Hsize. cbn [List.length] in Hsize. lia.
  - intros (Hall & Hsr2 & Hsize). now rewrite encode_wav_ok.
Qed.

(** A sample rate that is not positive: [setframerate] raises, [close] finds
    no sampling rate and raises too, and the file stays empty. *)
Lemma encode_wav_nonpositive_rate (samples : list Z) (sr : Z) :
  sr <= 0 -> encode_wav samples sr = (Raise WaveError, []).
Proof.
  intros Hsr. unfold encode_wav, with_open, write_wav.
  unfold setnchannels, setsampwidth, setframerate, initfp.
  wave_run.
  unfold close, _ensure_header_written. wave_run. reflexivity.
Qed.

End EncoderEdges.

Lemma generate_sine_wave_unfold (frequency_text : string)
    (frequency duration : R) (sample_rate : Z) (amplitude : R)
    (fs : filesystem) (buf : list Z) :
  generate_samples frequency duration sample_rate amplitude = Ok buf ->
  generate_sine_wave frequency_text frequency duration sample_rate amplitude fs
  = (match fst (encode_wav buf sample_rate) with
     | Ok _ => Ok ("tone_" ++ frequency_text ++ "hz.wav")%string
     | Raise e => Raise e
     end,
     store ("tone_" ++ frequency_text ++ "hz.wav")
       (snd (encode_wav buf sample_rate)) fs).
Proof.
  intros Hgen. unfold generate_sine_wave. rewrite Hgen.
  destruct (encode_wav buf sample_rate) as [[[]|e] bytes]; reflexivity.
Qed.

Section SampleShape.
Local Open Scope R_scope.

(** Truncation toward zero never gains magnitude. *)
Lemma int_abs_le_abs (x : R) : Rabs (IZR (Py.int x)) <= Rabs x.
Proof.
  destruct (Rlt_le_dec x 0) as [Hneg | Hpos].
  - pose proof (int_neg_bounds Hneg) as [B1 B2].
    assert (IZR (Py.int x) <= 0) as Hle.
    { apply IZR_le. apply Z.lt_succ_r, lt_IZR. rewrite succ_IZR. simpl. lra. }
    rewrite !Rabs_left1 by lra. lra.
  - pose proof (int_nonneg_bounds Hpos) as [B1 B2].
    assert (0 <= IZR (Py.int x)) as Hge.
    { apply IZR_le. apply Z.lt_succ_r, lt_IZR. rewrite succ_IZR. simpl. lra. }
    rewrite !Rabs_right by lra. lra.
Qed.

Lemma sample_value_magnitude (frequency : R) (sample_rate : Z)
    (amplitude : R) (i : Z) :
  Rabs (IZR (sample_value frequency sample_rate amplitude i))
  <= Rabs amplitude * 32767.
Proof.
  unfold sample_value.
  eapply Rle_trans; [apply int_abs_le_abs|].
  rewrite !Rabs_mult.
  pose proof (SIN_bound (2 * PI * frequency * (IZR i / IZR sample_rate))) as Hs.
  assert (Rabs (sin (2 * PI * frequency * (IZR i / IZR sample_rate))) <= 1)
    by (apply Rabs_le; lra).
  rewrite (Rabs_right 32767) by lra.
  pose proof (Rabs_pos amplitude). nra.
Qed.


End SampleShape.

Lemma eqb_store_same (name : string) (data : list byte) (fs : filesystem) :
  store name data fs name = Some data.
Proof. unfold store. now rewrite String.eqb_refl. Qed.

(** The synthesis of [play_tone] (sample rate 44100, amplitude 0.3) when the
    data fit the header. *)
Lemma call_generate_sine_wave_default (frequency : number) (duration : R)
    (w : world) :
  (36 + 2 * num_samples 44100 duration < 4294967296)%Z ->
  exists bytes,
    call_generate_sine_wave frequency duration 44100 (3 / 10) w
    = (Done ("tone_" ++ str frequency ++ "hz.wav")%string,
       mkWorld (store ("tone_" ++ str frequency ++ "hz.wav") bytes (files w))
         (commands w) (sleeps w)).
Proof.
  intros Hfit. unfold call_generate_sine_wave.
  rewrite (@generate_sine_wave_unfold (str frequency) (val frequency) duration
             44100 (3 / 10) (files w) _
             (generate_samples_ok (val frequency) 44100 (3 / 10) duration)).
  rewrite encode_wav_ok.
  - eexists. reflexivity.
  - lia.
  - lia.
  - apply Forall_forall. intros s Hs.
    apply in_map_iff in Hs as (i & <- & _).
    apply sample_value_int16. lra.
  - rewrite length_map, range_length. lia.
Qed.

Lemma play_tone_run (os : nat -> run_outcome) (frequency : number)
    (duration : R) (w : world) :
  (36 + 2 * num_samples 44100 duration < 4294967296)%Z ->
  exists bytes,
    play_tone os frequency duration w
    = (player_result (os (List.length (commands w))),
       mkWorld
         (Os.unlink ("tone_" ++ str frequency ++ "hz.wav")
            (store ("tone_" ++ str frequency ++ "hz.wav") bytes (files w)))
         (commands w
          ++ [["afplay"; "tone_" ++ str frequency ++ "hz.wav"]%string])
         (sleeps w)).
Proof.
  intros Hfit.
  destruct (@call_generate_sine_wave_default frequency duration w Hfit) as [bytes Hgen].
  exists bytes. unfold play_tone, pbind. rewrite Hgen.
  unfold try_finally, try_except, Os.subprocess_run, Os.path_exists, Os.remove,
    pbind, pret.
  cbn [files commands sleeps].
  destruct (os (List.length (commands w))) as [status|]; cbn [player_result].
  - destruct (status =? 0)%Z; cbn [is_CalledProcessError files commands sleeps];
      rewrite eqb_store_same; cbn [files commands sleeps];
      rewrite eqb_store_same; reflexivity.
  - cbn [is_CalledProcessError files commands sleeps].
    rewrite eqb_store_same; cbn [files commands sleeps];
      rewrite eqb_store_same; reflexivity.
Qed.

Lemma num_samples_two_seconds : num_samples 44100 2 = 88200%Z.
Proof.
  unfold num_samples. replace (44100 * 2)%R with (IZR 88200) by lra.
  apply int_IZR.
Qed.

Lemma play_tone_two_seconds (os : nat -> run_outcome) (frequency : number)
    (w : world) :
  exists bytes,
    play_tone os frequency 2 w
    = (player_result (os (List.length (commands w))),
       mkWorld
         (Os.unlink ("tone_" ++ str frequency ++ "hz.wav")
            (store ("tone_" ++ str frequency ++ "hz.wav") bytes (files w)))
         (commands w
          ++ [["afplay"; "tone_" ++ str frequency ++ "hz.wav"]%string])
         (sleeps w)).
Proof.
  apply play_tone_run. rewrite num_samples_two_seconds. lia.
Qed.

Lemma player_result_found (r : run_outcome) :
  r <> NotFound -> player_result r = Done tt.
Proof. destruct r; [reflexivity|contradiction]. Qed.

(** X10: With an afplay command present (whatever it exits with), the
    script body of generate_tone.py ends normally, runs afplay exactly
    four times, on tone_440hz.wav, tone_261.63hz.wav, tone_329.63hz.wav
    and tone_523.25hz.wav in that order, and leaves none of these four
    files and every other file as it was. *)
Theorem generate_tone_main_with_player (os : nat -> run_outcome) (w : world) :
  (forall k, os k <> NotFound) ->
  exists w',
    generate_tone_main os w = (Done tt, w') /\
    commands w'
    = commands w ++ map (fun name => ["afplay"%string; name]) tone_files /\
    (forall n, files w' n
               = if existsb (String.eqb n) tone_files then None
                 else files w n) /\
    sleeps w' = sleeps w.
Proof.
  intros Hos. unfold generate_tone_main, notes.
  cbn [for_each fst]. unfold pbind.
  destruct (play_tone_two_seconds os (mkNumber "440" 440) w) as [b1 ->].
  rewrite player_result_found by apply Hos.
  match goal with |- context [play_tone os ?f 2 ?w1] =>
    destruct (play_tone_two_seconds os f w1) as [b2 ->] end.
  rewrite player_result_found by apply Hos.
  match goal with |- context [play_tone os ?f 2 ?w1] =>
    destruct (play_tone_two_seconds os f w1) as [b3 ->] end.
  rewrite player_result_found by apply Hos.
  match goal with |- context [play_tone os ?f 2 ?w1] =>
    destruct (play_tone_two_seconds os f w1) as [b4 ->] end.
  rewrite player_result_found by apply Hos.
  eexists. split; [reflexivity|]. cbn [files commands sleeps str].
  split; [|split; [|reflexivity]].
  - rewrite <- !app_assoc. reflexivity.
  - intros n. unfold Os.unlink, store, tone_files. cbn [existsb].
    cbn [String.append].
    destruct (String.eqb n "tone_440hz.wav");
      destruct (String.eqb n "tone_261.63hz.wav");
      destruct (String.eqb n "tone_329.63hz.wav");
      destruct (String.eqb n "tone_523.25hz.wav"); reflexivity.
Qed.

(** X11: Without an afplay command the script body of generate_tone.py
    stops at the first note with FileNotFoundError: one command was tried,
    tone_440hz.wav is removed again, and the other notes are never
    generated. *)
Theorem generate_tone_main_without_player (os : nat -> run_outcome)
    (w : world) :
  os (List.length (commands w)) = NotFound ->
  exists w',
    generate_tone_main os w = (Failed FileNotFoundError, w') /\
    commands w' = commands w ++ [["afplay"; "tone_440hz.wav"]%string] /\
    forall n, files w' n
              = if String.eqb n "tone_440hz.wav" then None else files w n.
Proof.
  intros Hos. unfold generate_tone_main, notes.
  cbn [for_each fst]. unfold pbind.
  destruct (play_tone_two_seconds os (mkNumber "440" 440) w) as [b1 ->].
  rewrite Hos. cbn [player_result].
  eexists. split; [reflexivity|]. cbn [files commands str].
  split; [reflexivity|].
  intros n. unfold Os.unlink, store. cbn [String.append].
  destruct (String.eqb n "tone_440hz.wav"); reflexivity.
Qed.

Lemma generate_tone_main_with_player_witness :
  exists w',
    generate_tone_main (fun _ => Exited 0) (mkWorld (fun _ => None) [] 0)
    = (Done tt, w') /\
    commands w' = map (fun name => ["afplay"%string; name]) tone_files /\
    (forall n, files w' n
               = if existsb (String.eqb n) tone_files then None else None) /\
    sleeps w' = 0%nat.
Proof.
  apply (@generate_tone_main_with_player (fun _ => Exited 0)
           (mkWorld (fun _ => None) [] 0)).
  intros k. discriminate.
Defined.

Lemma generate_tone_main_without_player_witness :
  exists w',
    generate_tone_main (fun _ => NotFound) (mkWorld (fun _ => None) [] 0)
    = (Failed FileNotFoundError, w') /\
    commands w' = [["afplay"; "tone_440hz.wav"]%string] /\
    forall n, files w' n
              = if String.eqb n "tone_440hz.wav" then None else None.
Proof.
  apply (@generate_tone_main_without_player (fun _ => NotFound)
           (mkWorld (fun _ => None) [] 0)).
  reflexivity.
Defined.

(** ** The numpy tones of generate_test_tones.py and continuous_tone.py *)

Section NumpyFacts.

Lemma wrap16_int16 (z : Z) : int16 z -> Np.wrap16 z = z.
Proof.
  unfold int16, Np.wrap16. intros Hz.
  destruct (Z.leb_spec (-2147483648) z); [|lia].
  destruct (Z.leb_spec z 2147483647); [|lia].
  cbn [andb]. rewrite Z.mod_small by lia. lia.
Qed.

(** An element of a numpy tone, [sin(2 pi f t) * level * 32767] cast to
    int16, is the sample [generate_sine_wave] computes at the same time
    with amplitude [level], when [|level| <= 1]. *)
Lemma astype_sample_value (frequency : R) (sample_rate : Z) (level : R)
    (i : Z) (t : R) :
  (-1 <= level <= 1)%R ->
  t = (IZR i / IZR sample_rate)%R ->
  Np.astype_int16 (sin (2 * PI * frequency * t) * level * 32767)%R
  = sample_value frequency sample_rate level i.
Proof.
  intros Hl ->. unfold Np.astype_int16.
  replace (sin (2 * PI * frequency * (IZR i / IZR sample_rate)) * level * 32767)%R
    with (level * sin (2 * PI * frequency * (IZR i / IZR sample_rate)) * 32767)%R
    by ring.
  fold (sample_value frequency sample_rate level i).
  apply wrap16_int16. now apply sample_value_int16.
Qed.

Lemma test_tone_audio_int_samples (freq : R) :
  test_tone_audio_int freq
  = Done (map (sample_value freq 44100 (1 / 2)) (Py.range 132300)).
Proof.
  unfold test_tone_audio_int.
  assert (Py.int (44100 * 3) = 132300%Z) as ->.
  { replace (44100 * 3)%R with (IZR 132300) by lra. apply int_IZR. }
  unfold Np.linspace. change (132300 <? 0)%Z with false. cbn [obind].
  generalize (Py.range 132300). intros indices.
  rewrite !map_map. apply f_equal. apply map_ext. intros i.
  apply astype_sample_value; [lra|]. field.
Qed.

Lemma continuous_audio_int_samples (frequency : R) :
  continuous_audio_int frequency
  = Done (map (sample_value frequency 44100 (3 / 10)) (Py.range 220500)).
Proof.
  unfold continuous_audio_int. change (44100 * 5)%Z with 220500%Z.
  unfold Np.linspace. change (220500 <? 0)%Z with false. cbn [obind].
  generalize (Py.range 220500). intros indices.
  rewrite !map_map. apply f_equal. apply map_ext. intros i.
  apply astype_sample_value; [lra|]. field.
Qed.


(** A sample of amplitude [level] as an integer bound. *)
Lemma sample_value_level_bound (frequency : R) (sample_rate : Z) (level : R)
    (i : Z) (bound : Z) :
  (0 <= level)%R -> (level * 32767 < IZR bound + 1)%R ->
  (- bound <= sample_value frequency sample_rate level i <= bound)%Z.
Proof.
  intros Hl Hb.
  pose proof (sample_value_magnitude frequency sample_rate level i) as Hm.
  rewrite (Rabs_right level) in Hm by lra.
  assert (- (level * 32767) <= IZR (sample_value frequency sample_rate level i)
          <= level * 32767)%R as [Hlo Hhi].
  { revert Hm. unfold Rabs. destruct (Rcase_abs _); lra. }
  split.
  - apply Z.lt_succ_r, lt_IZR. rewrite succ_IZR, opp_IZR. lra.
  - apply Z.lt_succ_r, lt_IZR. rewrite succ_IZR. lra.
Qed.

Lemma samples_length (frequency : R) (sample_rate : Z) (level : R) (n : Z) :
  (0 <= n)%Z ->
  Z.of_nat (List.length (map (sample_value frequency sample_rate level)
                           (Py.range n))) = n.
Proof. intros Hn. rewrite length_map, range_length. lia. Qed.

Lemma samples_int16 (frequency : R) (sample_rate : Z) (level : R) (n : Z) :
  (-1 <= level <= 1)%R ->
  Forall int16 (map (sample_value frequency sample_rate level) (Py.range n)).
Proof.
  intros Hl. apply Forall_forall. intros s Hs.
  apply in_map_iff in Hs as (i & <- & _). now apply sample_value_int16.
Qed.

Lemma num_samples_three_seconds : num_samples 44100 3 = 132300%Z.
Proof.
  unfold num_samples. replace (44100 * 3)%R with (IZR 132300) by lra.
  apply int_IZR.
Qed.

End NumpyFacts.

(** X12: For every frequency, the sample array of generate_test_tones.py
    has 132300 elements, all in [-16383, 16383], so the cast to int16
    never leaves the 16-bit range. *)
Theorem test_tone_audio_int_range (freq : R) :
  exists audio_int,
    test_tone_audio_int freq = Done audio_int /\
    Z.of_nat (List.length audio_int) = 132300%Z /\
    Forall (fun s => (-16383 <= s <= 16383)%Z) audio_int.
Proof.
  eexists. split; [apply test_tone_audio_int_samples|].
  split; [apply samples_length; lia|].
  apply Forall_forall. intros s Hs.
  apply in_map_iff in Hs as (i & <- & _).
  apply (@sample_value_level_bound freq 44100 (1 / 2) i 16383); lra.
Qed.

Lemma store_other (name n : string) (data : list byte) (fs : filesystem) :
  String.eqb n name = false -> store name data fs n = fs n.
Proof. intros H. unfold store. now rewrite H. Qed.

Lemma write_numpy_tone (frequency level : R) (n : Z) :
  (-1 <= level <= 1)%R -> (0 <= n)%Z -> (36 + 2 * n < 4294967296)%Z ->
  write_wav_at_once
    (Np.tobytes (map (sample_value frequency 44100 level) (Py.range n))) 44100
  = (Ok tt, numpy_tone_file frequency level n).
Proof.
  intros Hl Hn Hfit.
  pose proof (@samples_length frequency 44100 level n Hn) as Hlen.
  unfold Np.tobytes, numpy_tone_file.
  rewrite write_wav_at_once_ok by (rewrite ?frames_of_length; lia).
  rewrite frames_of_length. do 3 f_equal. lia.
Qed.

Lemma numpy_tone_file_reads_back (frequency level : R) (n : Z) :
  (-1 <= level <= 1)%R -> (0 <= n)%Z -> (36 + 2 * n < 4294967296)%Z ->
  Z.of_nat (List.length (numpy_tone_file frequency level n)) = (44 + 2 * n)%Z /\
  decode_wav (numpy_tone_file frequency level n)
  = Some (mkWav 1 44100 16
            (map (sample_value frequency 44100 level) (Py.range n))).
Proof.
  intros Hl Hn Hfit.
  pose proof (@samples_length frequency 44100 level n Hn) as Hlen.
  unfold numpy_tone_file. split.
  - rewrite length_app, wav_header_length, frames_of_length. lia.
  - rewrite <- Hlen at 1.
    apply decode_wav_header_frames; [lia|apply samples_int16; assumption|lia].
Qed.

Lemma test_tone_run (note_name : string) (freq : R) (w : world) :
  test_tone note_name freq w
  = (Done tt,
     mkWorld (store (note_name ++ "_test.wav")
                (numpy_tone_file freq (1 / 2) 132300) (files w))
       (commands w) (sleeps w)).
Proof.
  unfold test_tone. rewrite test_tone_audio_int_samples.
  unfold save_as. rewrite write_numpy_tone by (try lra; lia). reflexivity.
Qed.

(** X14: generate_test_tones.py ends normally and runs no command; for
    each of its five notes it leaves a file <note>_test.wav of 264644
    bytes that reads back as mono, 16-bit, 44100 Hz with that note's
    samples; every other file is as it was. *)
Theorem generate_test_tones_effect (w : world) :
  exists w',
    generate_test_tones w = (Done tt, w') /\
    commands w' = commands w /\ sleeps w' = sleeps w /\
    Forall (fun note =>
              exists audio_int bytes,
                test_tone_audio_int (snd note) = Done audio_int /\
                files w' (fst note ++ "_test.wav")%string = Some bytes /\
                Z.of_nat (List.length bytes) = 264644%Z /\
                decode_wav bytes = Some (mkWav 1 44100 16 audio_int))
      test_notes /\
    forall n, existsb (String.eqb n) test_files = false ->
              files w' n = files w n.
Proof.
  unfold generate_test_tones, test_notes. cbn [for_each fst snd].
  unfold pbind. rewrite !test_tone_run. cbn [files commands sleeps].
  eexists. split; [reflexivity|]. cbn [files commands sleeps].
  split; [reflexivity|]. split; [reflexivity|]. split.
  - repeat constructor; cbn [fst snd String.append];
      (eexists _, _; split; [apply test_tone_audio_int_samples|]);
      (split; [repeat (rewrite store_other by reflexivity); apply eqb_store_same|]);
      apply numpy_tone_file_reads_back; try lra; lia.
  - intros n Hn. unfold test_files, test_notes in Hn.
    cbn [map fst String.append existsb] in Hn.
    repeat (apply orb_false_elim in Hn; destruct Hn as [? Hn]).
    repeat (rewrite store_other by assumption). reflexivity.
Qed.

(** ** continuous_tone.py *)

Lemma attempts_le (os : nat -> run_outcome) (n start : nat) :
  (attempts os start n <= n)%nat.
Proof.
  revert start. induction n as [|n IH]; intros start; cbn [attempts]; [lia|].
  destruct (os start) as [status|]; [|lia].
  destruct (status =? 0)%Z; [|lia]. specialize (IH (S start)). lia.
Qed.

Lemma attempts_all (os : nat -> run_outcome) (n start : nat) :
  (forall k, (start <= k)%nat -> os k = Exited 0) -> attempts os start n = n.
Proof.
  revert start. induction n as [|n IH]; intros start Hos;
    cbn [attempts]; [reflexivity|].
  rewrite Hos by lia. cbn. rewrite IH; [reflexivity|].
  intros k Hk. apply Hos. lia.
Qed.

Lemma subprocess_run_eq (os : nat -> run_outcome) (cmd : list string)
    (w : world) :
  Os.subprocess_run os cmd w
  = (match os (List.length (commands w)) with
     | NotFound => Failed FileNotFoundError
     | Exited status =>
         if (status =? 0)%Z then Done tt
         else Failed (CalledProcessError status)
     end,
     mkWorld (files w) (commands w ++ [cmd]) (sleeps w)).
Proof.
  unfold Os.subprocess_run.
  destruct (os (List.length (commands w))) as [status|]; [|reflexivity].
  destruct (status =? 0)%Z; reflexivity.
Qed.

(** A loop that runs the same command for each item. *)
Lemma for_each_subprocess_run (A : Type) (os : nat -> run_outcome)
    (cmd : list string) (items : list A) :
  forall w : world,
  exists r,
    for_each items (fun _ => Os.subprocess_run os cmd) w
    = (r,
       mkWorld (files w)
         (commands w
          ++ repeat cmd (attempts os (List.length (commands w))
                           (List.length items)))
         (sleeps w)).
Proof.
  induction items as [|x rest IH]; intros w.
  - exists (Done tt). cbn. rewrite app_nil_r. now destruct w.
  - cbn [for_each List.length attempts]. unfold pbind.
    rewrite subprocess_run_eq.
    destruct (os (List.length (commands w))) as [status|].
    + destruct (status =? 0)%Z.
      * destruct (IH (mkWorld (files w) (commands w ++ [cmd]) (sleeps w)))
          as [r Hr].
        exists r. rewrite Hr. cbn [files commands sleeps].
        rewrite length_app. cbn [List.length].
        replace (List.length (commands w) + 1)%nat
          with (S (List.length (commands w))) by lia.
        cbn [repeat]. rewrite <- app_assoc. reflexivity.
      * eexists. reflexivity.
    + eexists. reflexivity.
Qed.

(** X15: When sox exits with status 0, play_continuous_tone returns having
    run that one sox command only: no file is written and afplay is never
    run. *)
Theorem play_continuous_tone_sox (os : nat -> run_outcome)
    (frequency : number) (duration : Z) (w : world) :
  os (List.length (commands w)) = Exited 0 ->
  play_continuous_tone os frequency duration w
  = (Done tt,
     mkWorld (files w) (commands w ++ [sox_command frequency duration])
       (sleeps w)).
Proof.
  intros Hos. unfold play_continuous_tone, try_except, Os.subprocess_run.
  rewrite Hos. reflexivity.
Qed.

(** The fallback, run: the file and the commands. *)
Lemma play_continuous_tone_fallback_run (os : nat -> run_outcome)
    (frequency : number) (duration : Z) (w : world) :
  os (List.length (commands w)) <> Exited 0 ->
  play_continuous_tone os frequency duration w
  = (Done tt,
     mkWorld
       (store ("continuous_" ++ str frequency ++ "hz.wav")
          (numpy_tone_file (val frequency) (3 / 10) 220500) (files w))
       (commands w ++ [sox_command frequency duration]
        ++ repeat ["afplay"; "continuous_" ++ str frequency ++ "hz.wav"]%string
             (attempts os (S (List.length (commands w)))
                (Z.to_nat (duration / 5))))
       (sleeps w)).
Proof.
  intros Hos. unfold play_continuous_tone.
  assert (exists e,
            Os.subprocess_run os
              ["sox"; "-n"; "-t"; "coreaudio"; "default"; "synth";
               str_int duration; "sine"; str frequency; "vol"; "0.3"]%string w
            = (Failed e,
               mkWorld (files w)
                 (commands w ++ [sox_command frequency duration]) (sleeps w))
            /\ is_CalledProcessError_or_FileNotFoundError e = true)
    as (e & Hsox & He).
  { unfold Os.subprocess_run.
    destruct (os (List.length (commands w))) as [status|].
    - destruct (Z.eqb_spec status 0) as [-> | Hne]; [contradiction|].
      eexists. split; reflexivity.
    - eexists. split; reflexivity. }
  unfold try_except at 1. rewrite Hsox, He.
  unfold try_except. rewrite continuous_audio_int_samples.
  unfold pbind, save_as. cbn [files commands sleeps].
  rewrite write_numpy_tone by (try lra; lia). cbn [fst snd].
  match goal with |- context [for_each ?items ?body ?w1] =>
    destruct (@for_each_subprocess_run Z os
                ["afplay"; "continuous_" ++ str frequency ++ "hz.wav"]%string
                items w1) as [r Hr]
  end.
  cbn [files commands sleeps] in Hr. rewrite Hr.
  rewrite range_length, length_app. cbn [List.length].
  replace (List.length (commands w) + 1)%nat
    with (S (List.length (commands w))) by lia.
  rewrite <- app_assoc.
  destruct r as [[]|e']; reflexivity.
Qed.

(** X16: When sox is missing or exits with a non-zero status,
    play_continuous_tone still returns normally; it has written
    continuous_<frequency>hz.wav (441044 bytes, reading back as mono,
    16-bit, 44100 Hz with the 220500 samples of the 5 second tone), left
    it in place, and run afplay on it until the first run that fails, at
    most floor(duration / 5) times. *)
Theorem play_continuous_tone_fallback (os : nat -> run_outcome)
    (frequency : number) (duration : Z) (w : world) :
  os (List.length (commands w)) <> Exited 0 ->
  exists bytes,
    play_continuous_tone os frequency duration w
    = (Done tt,
       mkWorld
         (store ("continuous_" ++ str frequency ++ "hz.wav") bytes (files w))
         (commands w ++ [sox_command frequency duration]
          ++ repeat ["afplay"; "continuous_" ++ str frequency ++ "hz.wav"]%string
               (attempts os (S (List.length (commands w)))
                  (Z.to_nat (duration / 5))))
         (sleeps w)) /\
    Z.of_nat (List.length bytes) = 441044%Z /\
    exists audio_int,
      continuous_audio_int (val frequency) = Done audio_int /\
      decode_wav bytes = Some (mkWav 1 44100 16 audio_int).
Proof.
  intros Hos. exists (numpy_tone_file (val frequency) (3 / 10) 220500).
  split; [|split].
  - now apply play_continuous_tone_fallback_run.
  - apply numpy_tone_file_reads_back; try lra; lia.
  - eexists. split; [apply continuous_audio_int_samples|].
    apply numpy_tone_file_reads_back; try lra; lia.
Qed.

Lemma play_continuous_tone_fallback_commands (os : nat -> run_outcome)
    (frequency : number) (duration : Z) (w : world) :
  os (List.length (commands w)) <> Exited 0 ->
  exists w',
    play_continuous_tone os frequency duration w = (Done tt, w') /\
    commands w'
    = commands w ++ [sox_command frequency duration]
      ++ repeat ["afplay"; "continuous_" ++ str frequency ++ "hz.wav"]%string
           (attempts os (S (List.length (commands w)))
              (Z.to_nat (duration / 5))) /\
    files w' ("continuous_" ++ str frequency ++ "hz.wav")%string <> None.
Proof.
  intros Hos.
  pose proof (@play_continuous_tone_fallback_run os frequency duration w Hos)
    as Hrun.
  eexists. split; [exact Hrun|]. cbn [commands files]. split; [reflexivity|].
  rewrite eqb_store_same. discriminate.
Qed.

(** X17: In the fallback, a duration under 5 seconds plays nothing: the
    file is written but afplay is never run. *)
Theorem play_continuous_tone_short_duration (os : nat -> run_outcome)
    (frequency : number) (duration : Z) (w : world) :
  os (List.length (commands w)) <> Exited 0 ->
  (duration < 5)%Z ->
  exists w',
    play_continuous_tone os frequency duration w = (Done tt, w') /\
    commands w' = commands w ++ [sox_command frequency duration] /\
    files w' ("continuous_" ++ str frequency ++ "hz.wav")%string <> None.
Proof.
  intros Hos Hd.
  destruct (@play_continuous_tone_fallback_commands os frequency duration w Hos)
    as (w' & Hrun & Hcmd & Hfile).
  exists w'. split; [exact Hrun|]. split; [|exact Hfile].
  rewrite Hcmd.
  assert (duration / 5 <= 0)%Z as Hq
    by (apply Z.lt_succ_r; apply Z.div_lt_upper_bound; lia).
  replace (Z.to_nat (duration / 5)) with 0%nat by lia.
  reflexivity.
Qed.

(** X18: In the fallback with a working afplay and a duration >= 0, afplay
    is run exactly floor(duration / 5) times, so less than five seconds of
    the requested duration are dropped. *)
Theorem play_continuous_tone_fallback_plays (os : nat -> run_outcome)
    (frequency : number) (duration : Z) (w : world) :
  os (List.length (commands w)) <> Exited 0 ->
  (forall k, (List.length (commands w) < k)%nat -> os k = Exited 0) ->
  (0 <= duration)%Z ->
  exists (w' : world) (loops : Z),
    play_continuous_tone os frequency duration w = (Done tt, w') /\
    commands w'
    = commands w ++ [sox_command frequency duration]
      ++ repeat ["afplay"; "continuous_" ++ str frequency ++ "hz.wav"]%string
           (Z.to_nat loops) /\
    (5 * loops <= duration < 5 * loops + 5)%Z.
Proof.
  intros Hos Hplay Hd.
  destruct (@play_continuous_tone_fallback_commands os frequency duration w Hos)
    as (w' & Hrun & Hcmd & _).
  exists w', (duration / 5)%Z. split; [exact Hrun|]. split.
  - rewrite Hcmd, attempts_all; [reflexivity|].
    intros k Hk. apply Hplay. lia.
  - pose proof (Z.div_mod duration 5 ltac:(lia)).
    pose proof (Z.mod_pos_bound duration 5 ltac:(lia)). lia.
Qed.

(** X19: For every frequency, the sample array of the fallback of
    continuous_tone.py has 220500 elements, all in [-9830, 9830], so the
    cast to int16 never leaves the 16-bit range. *)
Theorem continuous_audio_int_range (frequency : R) :
  exists audio_int,
    continuous_audio_int frequency = Done audio_int /\
    Z.of_nat (List.length audio_int) = 220500%Z /\
    Forall (fun s => (-9830 <= s <= 9830)%Z) audio_int.
Proof.
  eexists. split; [apply continuous_audio_int_samples|].
  split; [apply samples_length; lia|].
  apply Forall_forall. intros s Hs.
  apply in_map_iff in Hs as (i & <- & _).
  apply (@sample_value_level_bound frequency 44100 (3 / 10) i 9830); lra.
Qed.

(** ** loop_tone.py *)

Lemma play_tone_round_eq (os : nat -> run_outcome) (note_name : string)
    (w : world) :
  play_tone_round os note_name w
  = match os (List.length (commands w)) with
    | NotFound =>
        (Failed FileNotFoundError,
         mkWorld (files w)
           (commands w ++ [["afplay"; note_name ++ "_test.wav"]%string])
           (sleeps w))
    | Exited status =>
        if (status =? 0)%Z
        then (Done Continue,
              mkWorld (files w)
                (commands w ++ [["afplay"; note_name ++ "_test.wav"]%string])
                (S (sleeps w)))
        else (Done Break,
              mkWorld (files w)
                (commands w ++ [["afplay"; note_name ++ "_test.wav"]%string])
                (sleeps w))
    end.
Proof.
  unfold play_tone_round, try_except, pbind. rewrite subprocess_run_eq.
  destruct (os (List.length (commands w))) as [status|]; [|reflexivity].
  destruct (status =? 0)%Z; reflexivity.
Qed.

(** [k] rounds in which the player exits with status 0. *)
Lemma play_tone_loop_rounds (os : nat -> run_outcome) (frequency : R)
    (note_name : string) (k : nat) :
  forall (rest : nat) (w : world),
  (forall j, (j < k)%nat -> os (List.length (commands w) + j)%nat = Exited 0) ->
  play_tone_loop (k + rest) os frequency note_name w
  = play_tone_loop rest os frequency note_name
      (mkWorld (files w)
         (commands w ++ repeat ["afplay"; note_name ++ "_test.wav"]%string k)
         (k + sleeps w)).
Proof.
  induction k as [|k IH]; intros rest w Hos.
  - cbn [Nat.add repeat]. rewrite app_nil_r. now destruct w.
  - cbn [Nat.add play_tone_loop]. unfold pbind. rewrite play_tone_round_eq.
    pose proof (Hos 0%nat ltac:(lia)) as H0. rewrite Nat.add_0_r in H0.
    rewrite H0. cbn [Z.eqb].
    rewrite IH.
    + cbn [files commands sleeps repeat].
      rewrite <- app_assoc. cbn [app].
      replace (k + S (sleeps w))%nat with (S (k + sleeps w)) by lia.
      reflexivity.
    + intros j Hj. cbn [commands]. rewrite length_app. cbn [List.length].
      replace (List.length (commands w) + 1 + j)%nat
        with (List.length (commands w) + S j)%nat by lia.
      apply Hos. lia.
Qed.

(** X20: If afplay exits with status 0 on the first k runs and with a non-
    zero status on the next, play_tone_loop returns after exactly k+1 runs
    of afplay on <note>_test.wav and k sleeps, with the files untouched. *)
Theorem play_tone_loop_stops_at_failure (os : nat -> run_outcome)
    (frequency : R) (note_name : string) (k rest : nat) (status : Z)
    (w : world) :
  (forall j, (j < k)%nat -> os (List.length (commands w) + j)%nat = Exited 0) ->
  os (List.length (commands w) + k)%nat = Exited status -> status <> 0%Z ->
  play_tone_loop (k + S rest) os frequency note_name w
  = (Done (Some tt),
     mkWorld (files w)
       (commands w
        ++ repeat ["afplay"; note_name ++ "_test.wav"]%string (S k))
       (k + sleeps w)).
Proof.
  intros Hok Hfail Hstatus.
  rewrite play_tone_loop_rounds by assumption.
  cbn [play_tone_loop]. unfold pbind. rewrite play_tone_round_eq.
  cbn [files commands sleeps]. rewrite length_app, repeat_length, Hfail.
  destruct (Z.eqb_spec status 0) as [|_]; [contradiction|].
  cbn [pret]. rewrite <- app_assoc.
  replace (repeat ["afplay"; note_name ++ "_test.wav"]%string k
           ++ [["afplay"; note_name ++ "_test.wav"]%string])
    with (repeat ["afplay"; note_name ++ "_test.wav"]%string (S k))
    by (rewrite <- repeat_cons; reflexivity).
  reflexivity.
Qed.

(** X21: If afplay exits with status 0 on the first k runs and is then not
    found, play_tone_loop raises FileNotFoundError (it handles only
    CalledProcessError), after k+1 attempts and k sleeps, with the files
    untouched. *)
Theorem play_tone_loop_player_missing (os : nat -> run_outcome)
    (frequency : R) (note_name : string) (k rest : nat) (w : world) :
  (forall j, (j < k)%nat -> os (List.length (commands w) + j)%nat = Exited 0) ->
  os (List.length (commands w) + k)%nat = NotFound ->
  play_tone_loop (k + S rest) os frequency note_name w
  = (Failed FileNotFoundError,
     mkWorld (files w)
       (commands w
        ++ repeat ["afplay"; note_name ++ "_test.wav"]%string (S k))
       (k + sleeps w)).
Proof.
  intros Hok Hfail.
  rewrite play_tone_loop_rounds by assumption.
  cbn [play_tone_loop]. unfold pbind. rewrite play_tone_round_eq.
  cbn [files commands sleeps]. rewrite length_app, repeat_length, Hfail.
  rewrite <- app_assoc.
  replace (repeat ["afplay"; note_name ++ "_test.wav"]%string k
           ++ [["afplay"; note_name ++ "_test.wav"]%string])
    with (repeat ["afplay"; note_name ++ "_test.wav"]%string (S k))
    by (rewrite <- repeat_cons; reflexivity).
  reflexivity.
Qed.

(** X22: As long as afplay exits with status 0, play_tone_loop does not
    return: after any number n of such rounds it is still looping, having
    run afplay n times and slept n times. *)
Theorem play_tone_loop_goes_on (os : nat -> run_outcome) (frequency : R)
    (note_name : string) (rounds : nat) (w : world) :
  (forall j, (j < rounds)%nat ->
             os (List.length (commands w) + j)%nat = Exited 0) ->
  play_tone_loop rounds os frequency note_name w
  = (Done None,
     mkWorld (files w)
       (commands w
        ++ repeat ["afplay"; note_name ++ "_test.wav"]%string rounds)
       (rounds + sleeps w)).
Proof.
  intros Hok.
  rewrite <- (Nat.add_0_r rounds) at 1.
  rewrite play_tone_loop_rounds by assumption. reflexivity.
Qed.

(** ** Concrete runs *)

Lemma write_wav_at_once_encode_wav_witness :
  write_wav_at_once (Np.tobytes [0; 1; -2]%Z) 44100
  = encode_wav [0; 1; -2]%Z 44100.
Proof.
  apply (@write_wav_at_once_encode_wav [0; 1; -2]%Z 44100).
  - lia.
  - lia.
  - repeat constructor; unfold int16; lia.
  - simpl. lia.
Defined.

Lemma play_continuous_tone_sox_witness :
  play_continuous_tone (fun _ => Exited 0) (mkNumber "440" 440) 30
    (mkWorld (fun _ => None) [] 0)
  = (Done tt,
     mkWorld (fun _ => None) ([] ++ [sox_command (mkNumber "440" 440) 30]) 0).
Proof.
  apply (@play_continuous_tone_sox (fun _ => Exited 0) (mkNumber "440" 440) 30
           (mkWorld (fun _ => None) [] 0)).
  reflexivity.
Defined.

Lemma play_continuous_tone_fallback_witness :
  exists bytes,
    play_continuous_tone (fun _ => NotFound) (mkNumber "440" 440) 30
      (mkWorld (fun _ => None) [] 0)
    = (Done tt,
       mkWorld (store "continuous_440hz.wav" bytes (fun _ => None))
         ([] ++ [sox_command (mkNumber "440" 440) 30]
          ++ repeat ["afplay"; "continuous_440hz.wav"]%string
               (attempts (fun _ => NotFound) 1 (Z.to_nat (30 / 5))))
         0) /\
    Z.of_nat (List.length bytes) = 441044%Z /\
    exists audio_int,
      continuous_audio_int 440 = Done audio_int /\
      decode_wav bytes = Some (mkWav 1 44100 16 audio_int).
Proof.
  apply (@play_continuous_tone_fallback (fun _ => NotFound)
           (mkNumber "440" 440) 30 (mkWorld (fun _ => None) [] 0)).
  discriminate.
Defined.

Lemma play_continuous_tone_short_duration_witness :
  exists w',
    play_continuous_tone (fun _ => Exited 1) (mkNumber "440" 440) 4
      (mkWorld (fun _ => None) [] 0) = (Done tt, w') /\
    commands w' = [] ++ [sox_command (mkNumber "440" 440) 4] /\
    files w' "continuous_440hz.wav"%string <> None.
Proof.
  apply (@play_continuous_tone_short_duration (fun _ => Exited 1)
           (mkNumber "440" 440) 4 (mkWorld (fun _ => None) [] 0)).
  - discriminate.
  - lia.
Defined.

Lemma play_continuous_tone_fallback_plays_witness :
  exists (w' : world) (loops : Z),
    play_continuous_tone only_afplay (mkNumber "440" 440) 32
      (mkWorld (fun _ => None) [] 0) = (Done tt, w') /\
    commands w'
    = [] ++ [sox_command (mkNumber "440" 440) 32]
      ++ repeat ["afplay"; "continuous_440hz.wav"]%string (Z.to_nat loops) /\
    (5 * loops <= 32 < 5 * loops + 5)%Z.
Proof.
  apply (@play_continuous_tone_fallback_plays only_afplay
           (mkNumber "440" 440) 32 (mkWorld (fun _ => None) [] 0)).
  - discriminate.
  - intros k Hk. destruct k; [simpl in Hk; lia|reflexivity].
  - lia.
Defined.

Lemma play_tone_loop_stops_at_failure_witness :
  play_tone_loop (2 + 8) fails_third 440 "A4" (mkWorld (fun _ => None) [] 0)
  = (Done (Some tt),
     mkWorld (fun _ => None)
       ([] ++ repeat ["afplay"; "A4" ++ "_test.wav"]%string 3) (2 + 0)).
Proof.
  apply (@play_tone_loop_stops_at_failure fails_third 440 "A4" 2 7 1
           (mkWorld (fun _ => None) [] 0)).
  - intros j Hj. destruct j as [|[|j]]; [reflexivity|reflexivity|lia].
  - reflexivity.
  - lia.
Defined.

Lemma play_tone_loop_player_missing_witness :
  play_tone_loop (2 + 8) gone_third 440 "A4" (mkWorld (fun _ => None) [] 0)
  = (Failed FileNotFoundError,
     mkWorld (fun _ => None)
       ([] ++ repeat ["afplay"; "A4" ++ "_test.wav"]%string 3) (2 + 0)).
Proof.
  apply (@play_tone_loop_player_missing gone_third 440 "A4" 2 7
           (mkWorld (fun _ => None) [] 0)).
  - intros j Hj. destruct j as [|[|j]]; [reflexivity|reflexivity|lia].
  - reflexivity.
Defined.

Lemma play_tone_loop_goes_on_witness :
  play_tone_loop 2 fails_third 440 "A4" (mkWorld (fun _ => None) [] 0)
  = (Done None,
     mkWorld (fun _ => None)
       ([] ++ repeat ["afplay"; "A4" ++ "_test.wav"]%string 2) (2 + 0)).
Proof.
  apply (@play_tone_loop_goes_on fails_third 440 "A4" 2
           (mkWorld (fun _ => None) [] 0)).
  intros j Hj. destruct j as [|[|j]]; [reflexivity|reflexivity|lia].
Defined.

(** * [generate_sine_wave] and [play_tone] in binary64 *)

Lemma is_infinity_SF (x : float) :
  is_infinity x = true <-> exists s, Prim2SF x = S754_infinity s.
Proof.
unfold is_infinity. rewrite eqb_spec, abs_spec.
change (Prim2SF infinity) with (S754_infinity false).
destruct (Prim2SF x) as [s | s | | s m e]; unfold SFeqb; simpl.
- split; [discriminate | intros [s' H]; discriminate].
- split; [intros _; exists s; reflexivity | reflexivity].
- split; [discriminate | intros [s' H]; discriminate].
- split; [discriminate | intros [s' H]; discriminate].
Qed.

Section B64Calls.

Variable libm_sin : float -> float.

Local Open Scope Z_scope.

Lemma generate_sine_wave_unfold64 (frequency_text : string)
    (frequency duration : float) (sample_rate : Z) (amplitude : float)
    (fs : filesystem) (buf : list Z) :
  B64.generate_samples libm_sin frequency duration sample_rate amplitude
  = B64.Return buf ->
  B64.generate_sine_wave libm_sin frequency_text frequency duration
    sample_rate amplitude fs
  = (match fst (encode_wav buf sample_rate) with
     | Ok _ => B64.Return ("tone_" ++ frequency_text ++ "hz.wav")%string
     | Raise e => B64.Raised (B64.Exn e)
     end,
     store ("tone_" ++ frequency_text ++ "hz.wav")
       (snd (encode_wav buf sample_rate)) fs).
Proof.
  intros Hgen. unfold B64.generate_sine_wave. rewrite Hgen.
  destruct (encode_wav buf sample_rate) as [[[]|e] bytes]; reflexivity.
Qed.

Lemma generate_sine_wave_raised64 (frequency_text : string)
    (frequency duration : float) (sample_rate : Z) (amplitude : float)
    (fs : filesystem) (e : B64.exception) :
  B64.generate_samples libm_sin frequency duration sample_rate amplitude
  = B64.Raised e ->
  B64.generate_sine_wave libm_sin frequency_text frequency duration
    sample_rate amplitude fs
  = (B64.Raised e, fs).
Proof.
  intros Hgen. unfold B64.generate_sine_wave. rewrite Hgen. reflexivity.
Qed.

(** X2: For a positive sample rate, generate_sine_wave returns its file
    name, rather than raising, exactly when the synthesis loop returns a
    buffer, every sample of it lies in [-32768, 32767],
    2 * sample_rate < 2^32 and 36 + 2 * (number of samples) < 2^32. *)
Theorem generate_sine_wave_returns_iff (frequency_text : string)
    (frequency duration : float) (sample_rate : Z) (amplitude : float)
    (fs : filesystem) :
  0 < sample_rate ->
  fst (B64.generate_sine_wave libm_sin frequency_text frequency duration
         sample_rate amplitude fs)
  = B64.Return ("tone_" ++ frequency_text ++ "hz.wav")%string
  <->
  exists buf,
    B64.generate_samples libm_sin frequency duration sample_rate amplitude
    = B64.Return buf /\
    Forall (fun s => -32768 <= s <= 32767) buf /\
    2 * sample_rate < 4294967296 /\
    36 + 2 * Z.of_nat (List.length buf) < 4294967296.
Proof.
  intros Hsr.
  destruct (B64.generate_samples libm_sin frequency duration sample_rate
              amplitude) as [buf | e] eqn:Hgen.
  - rewrite (@generate_sine_wave_unfold64 frequency_text _ _ _ _ fs _ Hgen). cbn [fst].
    pose proof (encode_wav_ok_iff buf Hsr) as Hiff.
    destruct (fst (encode_wav buf sample_rate)) as [[]|e]; split.
    + intros _. exists buf. split; [reflexivity|]. now apply Hiff.
    + reflexivity.
    + discriminate.
    + intros (buf' & Hb & Hall). injection Hb as <-.
      apply Hiff in Hall. discriminate.
  - rewrite (@generate_sine_wave_raised64 frequency_text _ _ _ _ fs _ Hgen). cbn [fst].
    split; [discriminate|]. intros (buf & Hb & _). discriminate.
Qed.

(** X3: With a sample rate that is zero or negative, a call of
    generate_sine_wave whose synthesis loop returns raises wave.Error and
    leaves an empty (zero-byte) file under the tone's name. *)
Theorem generate_sine_wave_nonpositive_rate (frequency_text : string)
    (frequency duration : float) (sample_rate : Z) (amplitude : float)
    (fs : filesystem) (buf : list Z) :
  sample_rate <= 0 ->
  B64.generate_samples libm_sin frequency duration sample_rate amplitude
  = B64.Return buf ->
  B64.generate_sine_wave libm_sin frequency_text frequency duration
    sample_rate amplitude fs
  = (B64.Raised (B64.Exn WaveError),
     store ("tone_" ++ frequency_text ++ "hz.wav") [] fs).
Proof.
  intros Hsr Hgen.
  rewrite (@generate_sine_wave_unfold64 frequency_text _ _ _ _ fs _ Hgen).
  rewrite encode_wav_nonpositive_rate by assumption. reflexivity.
Qed.

(** X4: With a positive sample rate that fits the header
    (2 * sample_rate < 2^32), when the synthesis loop returns a buffer whose
    first sample outside [-32768, 32767] follows samples that fit (and
    these fit the header: 36 + 2 * their number < 2^32), generate_sine_wave
    raises struct.error and leaves behind a well-formed WAV file that reads
    back as exactly the samples before the offending one. *)
Theorem generate_sine_wave_partial_file (frequency_text : string)
    (frequency duration : float) (sample_rate : Z) (amplitude : float)
    (fs : filesystem) (pre : list Z) (s : Z) (post : list Z) :
  0 < sample_rate -> 2 * sample_rate < 4294967296 ->
  B64.generate_samples libm_sin frequency duration sample_rate amplitude
  = B64.Return (pre ++ s :: post) ->
  Forall (fun x => -32768 <= x <= 32767) pre ->
  ~ (-32768 <= s <= 32767) ->
  36 + 2 * Z.of_nat (List.length pre) < 4294967296 ->
  exists bytes,
    B64.generate_sine_wave libm_sin frequency_text frequency duration
      sample_rate amplitude fs
    = (B64.Raised (B64.Exn StructError),
       store ("tone_" ++ frequency_text ++ "hz.wav") bytes fs) /\
    decode_wav bytes = Some (mkWav 1 sample_rate 16 pre).
Proof.
  intros Hsr Hsr2 Hgen Hpre Hs Hsize.
  rewrite (@generate_sine_wave_unfold64 frequency_text _ _ _ _ fs _ Hgen).
  rewrite encode_wav_bad_sample by assumption.
  eexists. split; [reflexivity|].
  apply decode_wav_header_frames; [lia|assumption|assumption].
Qed.

(** X5: An exception of the synthesis loop escapes generate_sine_wave
    before the file is opened: the directory is left as it was.  This is
    what happens when sample_rate * duration is infinite (OverflowError from
    int) or NaN (ValueError from int). *)
Theorem generate_sine_wave_synthesis_raises (frequency_text : string)
    (frequency duration : float) (sample_rate : Z) (amplitude : float)
    (fs : filesystem) (r : float) :
  B64.to_float sample_rate = B64.Return r ->
  (forall e,
     B64.generate_samples libm_sin frequency duration sample_rate amplitude
     = B64.Raised e ->
     B64.generate_sine_wave libm_sin frequency_text frequency duration
       sample_rate amplitude fs
     = (B64.Raised e, fs)) /\
  (is_infinity (r * duration) = true ->
   B64.generate_sine_wave libm_sin frequency_text frequency duration
     sample_rate amplitude fs
   = (B64.Raised B64.OverflowError, fs)) /\
  (is_nan (r * duration) = true ->
   B64.generate_sine_wave libm_sin frequency_text frequency duration
     sample_rate amplitude fs
   = (B64.Raised B64.ValueError, fs)).
Proof.
  intros Hr. split; [|split].
  - intros e He. now apply generate_sine_wave_raised64.
  - intros Hinf. apply generate_sine_wave_raised64.
    unfold B64.generate_samples, B64.num_samples. rewrite Hr. cbn [B64.bind].
    apply is_infinity_SF in Hinf. destruct Hinf as [s Hs].
    unfold B64.int. rewrite Hs. reflexivity.
  - intros Hnan. apply generate_sine_wave_raised64.
    unfold B64.generate_samples, B64.num_samples. rewrite Hr. cbn [B64.bind].
    apply F64.is_nan_SF in Hnan.
    unfold B64.int. rewrite Hnan. reflexivity.
Qed.

(** ** [play_tone] *)

Hypothesis sine : B64.libm_sine libm_sin.

(** The synthesis of [play_tone] (sample rate 44100, amplitude 0.3) when it
    returns a buffer that fits the header. *)
Lemma call_generate_sine_wave_default64 (frequency : B64Script.number)
    (duration : float) (w : world) (buf : list Z) :
  B64.generate_samples libm_sin (B64Script.val frequency) duration 44100
    0x1.3333333333333p-2
  = B64.Return buf ->
  36 + 2 * Z.of_nat (List.length buf) < 4294967296 ->
  exists bytes,
    B64Script.call_generate_sine_wave libm_sin frequency duration 44100
      0x1.3333333333333p-2 w
    = (Done ("tone_" ++ B64Script.str frequency ++ "hz.wav")%string,
       mkWorld
         (store ("tone_" ++ B64Script.str frequency ++ "hz.wav") bytes
            (files w))
         (commands w) (sleeps w)).
Proof.
  intros Hgen Hfit. unfold B64Script.call_generate_sine_wave.
  rewrite (@generate_sine_wave_unfold64 (B64Script.str frequency) _ _ _ _
             (files w) _ Hgen).
  rewrite encode_wav_ok.
  - eexists. reflexivity.
  - lia.
  - lia.
  - assert (Forall (fun z => -32767 <= z <= 32767) buf) as Hr.
    { eapply generate_samples_range; [exact sine | | exact Hgen].
      reflexivity. }
    apply Forall_impl with (2 := Hr). intros z Hz. unfold int16. lia.
  - exact Hfit.
Qed.

Lemma play_tone_run64 (os : nat -> run_outcome) (frequency : B64Script.number)
    (duration : float) (w : world) (buf : list Z) :
  B64.generate_samples libm_sin (B64Script.val frequency) duration 44100
    0x1.3333333333333p-2
  = B64.Return buf ->
  36 + 2 * Z.of_nat (List.length buf) < 4294967296 ->
  exists bytes,
    B64Script.play_tone libm_sin os frequency duration w
    = (player_result (os (List.length (commands w))),
       mkWorld
         (Os.unlink ("tone_" ++ B64Script.str frequency ++ "hz.wav")
            (store ("tone_" ++ B64Script.str frequency ++ "hz.wav") bytes
               (files w)))
         (commands w
          ++ [["afplay";
               "tone_" ++ B64Script.str frequency ++ "hz.wav"]%string])
         (sleeps w)).
Proof.
  intros Hgen Hfit.
  destruct (@call_generate_sine_wave_default64 frequency _ w _ Hgen Hfit)
    as [bytes Hcall].
  exists bytes. unfold B64Script.play_tone, pbind. rewrite Hcall.
  unfold try_finally, try_except, Os.subprocess_run, Os.path_exists, Os.remove,
    pbind, pret.
  cbn [files commands sleeps].
  destruct (os (List.length (commands w))) as [status|]; cbn [player_result].
  - destruct (status =? 0)%Z; cbn [is_CalledProcessError files commands sleeps];
      rewrite eqb_store_same; cbn [files commands sleeps];
      rewrite eqb_store_same; reflexivity.
  - cbn [is_CalledProcessError files commands sleeps].
    rewrite eqb_store_same; cbn [files commands sleeps];
      rewrite eqb_store_same; reflexivity.
Qed.

(** X7: When the synthesis returns and the tone fits a WAV file
    (36 + 2 * (number of samples) < 2^32), play_tone ends, whatever the
    player does, with no file under the tone's name (a file of that name
    that existed before is gone too) and every other file as it was. *)
Theorem play_tone_removes_file (os : nat -> run_outcome)
    (frequency : B64Script.number) (duration : float) (w : world)
    (buf : list Z) :
  B64.generate_samples libm_sin (B64Script.val frequency) duration 44100
    0x1.3333333333333p-2
  = B64.Return buf ->
  36 + 2 * Z.of_nat (List.length buf) < 4294967296 ->
  exists r w',
    B64Script.play_tone libm_sin os frequency duration w = (r, w') /\
    files w' ("tone_" ++ B64Script.str frequency ++ "hz.wav")%string = None /\
    forall n, n <> ("tone_" ++ B64Script.str frequency ++ "hz.wav")%string ->
      files w' n = files w n.
Proof.
  intros Hgen Hfit.
  destruct (@play_tone_run64 os frequency _ w _ Hgen Hfit) as [bytes Hrun].
  eexists _, _. split; [exact Hrun|]. cbn [files]. split.
  - unfold Os.unlink. now rewrite String.eqb_refl.
  - intros n Hn. unfold Os.unlink, store.
    destruct (String.eqb_spec n
                ("tone_" ++ B64Script.str frequency ++ "hz.wav"));
      [contradiction|reflexivity].
Qed.

(** X8: When the synthesis returns and the tone fits a WAV file, play_tone
    runs exactly one command, afplay on the tone file, and never sleeps; it
    returns normally whatever status the player exits with, and raises
    FileNotFoundError when there is no afplay command. *)
Theorem play_tone_outcome (os : nat -> run_outcome)
    (frequency : B64Script.number) (duration : float) (w : world)
    (buf : list Z) :
  B64.generate_samples libm_sin (B64Script.val frequency) duration 44100
    0x1.3333333333333p-2
  = B64.Return buf ->
  36 + 2 * Z.of_nat (List.length buf) < 4294967296 ->
  exists w',
    B64Script.play_tone libm_sin os frequency duration w
    = (match os (List.length (commands w)) with
       | Exited _ => Done tt
       | NotFound => Failed FileNotFoundError
       end, w') /\
    commands w'
    = commands w
      ++ [["afplay"; "tone_" ++ B64Script.str frequency ++ "hz.wav"]%string] /\
    sleeps w' = sleeps w.
Proof.
  intros Hgen Hfit.
  destruct (@play_tone_run64 os frequency _ w _ Hgen Hfit) as [bytes Hrun].
  eexists. split; [exact Hrun|]. split; reflexivity.
Qed.

(** X9: When generate_sine_wave raises, play_tone raises the same
    exception and runs no command; the cleanup is not reached.  An
    exception of the synthesis loop leaves the directory as it was; when
    the loop returns a buffer that does not fit a WAV file
    (36 + 2 * (number of samples) >= 2^32), the encoder raises and the
    partly written tone file stays in the directory. *)
Theorem play_tone_generation_fails (os : nat -> run_outcome)
    (frequency : B64Script.number) (duration : float) (w : world) :
  (forall e,
     B64.generate_samples libm_sin (B64Script.val frequency) duration 44100
       0x1.3333333333333p-2
     = B64.Raised e ->
     B64Script.play_tone libm_sin os frequency duration w
     = (Failed (B64Script.script_error e), w)) /\
  (forall buf,
     B64.generate_samples libm_sin (B64Script.val frequency) duration 44100
       0x1.3333333333333p-2
     = B64.Return buf ->
     ~ 36 + 2 * Z.of_nat (List.length buf) < 4294967296 ->
     exists e bytes,
       B64Script.play_tone libm_sin os frequency duration w
       = (Failed (Lib e),
          mkWorld
            (store ("tone_" ++ B64Script.str frequency ++ "hz.wav") bytes
               (files w))
            (commands w) (sleeps w))).
Proof.
  split.
  - intros e Hgen.
    unfold B64Script.play_tone, pbind, B64Script.call_generate_sine_wave.
    rewrite (@generate_sine_wave_raised64 (B64Script.str frequency) _ _ _ _
               (files w) _ Hgen).
    destruct w; reflexivity.
  - intros buf Hgen Hbig.
    unfold B64Script.play_tone, pbind, B64Script.call_generate_sine_wave.
    rewrite (@generate_sine_wave_unfold64 (B64Script.str frequency) _ _ _ _
               (files w) _ Hgen).
    destruct (@encode_wav_too_long buf 44100) as [e He]; try lia.
    rewrite He. eexists _, _. reflexivity.
Qed.

End B64Calls.

(** ** Concrete calls, with the reference sine *)

Lemma generate_sine_wave_returns_iff_witness :
  fst (B64.generate_sine_wave B64.taylor_sin "440" 440 0x1.a36e2eb1c432dp-15
         44100 0x1.3333333333333p-2 (fun _ => None))
  = B64.Return "tone_440hz.wav"%string.
Proof.
  refine (proj2 (@generate_sine_wave_returns_iff B64.taylor_sin "440" 440
                   0x1.a36e2eb1c432dp-15 44100 0x1.3333333333333p-2
                   (fun _ => None) _) _).
  - reflexivity.
  - exists [0; 615]%Z. split; [reflexivity|]. split.
    + repeat constructor; discriminate.
    + split; reflexivity.
Defined.

Lemma generate_sine_wave_nonpositive_rate_witness :
  B64.generate_sine_wave B64.taylor_sin "440" 440 (-1) (-4) 0.5
    (fun _ => None)
  = (B64.Raised (B64.Exn WaveError),
     store "tone_440hz.wav" [] (fun _ => None)).
Proof.
  apply (@generate_sine_wave_nonpositive_rate B64.taylor_sin "440" 440 (-1)
           (-4) 0.5 (fun _ => None) [0; 0; 0; 0]%Z).
  - discriminate.
  - reflexivity.
Defined.

Lemma generate_sine_wave_partial_file_witness :
  exists bytes,
    B64.generate_sine_wave B64.taylor_sin "1" 1 1 4 1.5 (fun _ => None)
    = (B64.Raised (B64.Exn StructError),
       store "tone_1hz.wav" bytes (fun _ => None)) /\
    decode_wav bytes = Some (mkWav 1 4 16 [0%Z]).
Proof.
  apply (@generate_sine_wave_partial_file B64.taylor_sin "1" 1 1 4 1.5
           (fun _ => None) [0%Z] 49150%Z [0; -49150]%Z).
  - reflexivity.
  - reflexivity.
  - reflexivity.
  - repeat constructor; discriminate.
  - intros [_ H]. now apply H.
  - reflexivity.
Defined.

Lemma generate_sine_wave_synthesis_raises_witness :
  B64.generate_sine_wave B64.taylor_sin "440" 440 0x1.23a516e82d9bap+1013
    44100 0x1.3333333333333p-2 (fun _ => None)
  = (B64.Raised B64.OverflowError, fun _ => None).
Proof.
  refine (proj1 (proj2 (@generate_sine_wave_synthesis_raises B64.taylor_sin
                          "440" 440 0x1.23a516e82d9bap+1013 44100
                          0x1.3333333333333p-2 (fun _ => None) 44100 _)) _).
  - reflexivity.
  - reflexivity.
Defined.

Lemma play_tone_removes_file_witness :
  exists r w',
    B64Script.play_tone B64.taylor_sin (fun _ => Exited 1)
      (B64Script.mkNumber "440" 440) 0x1.a36e2eb1c432dp-15
      (mkWorld (fun _ => None) [] 0) = (r, w') /\
    files w' "tone_440hz.wav"%string = None /\
    forall n, n <> "tone_440hz.wav"%string -> files w' n = None.
Proof.
  apply (@play_tone_removes_file B64.taylor_sin taylor_sin_sine
           (fun _ => Exited 1) (B64Script.mkNumber "440" 440)
           0x1.a36e2eb1c432dp-15 (mkWorld (fun _ => None) [] 0)
           [0; 615]%Z).
  - reflexivity.
  - reflexivity.
Defined.

Lemma play_tone_outcome_witness :
  exists w',
    B64Script.play_tone B64.taylor_sin (fun _ => NotFound)
      (B64Script.mkNumber "440" 440) 0x1.a36e2eb1c432dp-15
      (mkWorld (fun _ => None) [] 0)
    = (Failed FileNotFoundError, w') /\
    commands w' = [["afplay"; "tone_440hz.wav"]%string] /\
    sleeps w' = 0%nat.
Proof.
  apply (@play_tone_outcome B64.taylor_sin taylor_sin_sine
           (fun _ => NotFound) (B64Script.mkNumber "440" 440)
           0x1.a36e2eb1c432dp-15 (mkWorld (fun _ => None) [] 0)
           [0; 615]%Z).
  - reflexivity.
  - reflexivity.
Defined.

Lemma play_tone_generation_fails_witness :
  B64Script.play_tone B64.taylor_sin (fun _ => Exited 0)
    (B64Script.mkNumber "440" 440) 0x1.23a516e82d9bap+1013
    (mkWorld (fun _ => None) [] 0)
  = (Failed (B64Script.script_error B64.OverflowError),
     mkWorld (fun _ => None) [] 0).
Proof.
  apply (proj1 (@play_tone_generation_fails B64.taylor_sin (fun _ => Exited 0)
                  (B64Script.mkNumber "440" 440) 0x1.23a516e82d9bap+1013
                  (mkWorld (fun _ => None) [] 0))).
  reflexivity.
Defined.
